(** * noworries: the rule-based Comparison Engine and the Visual Diff Engine

    A shallow embedding of [ComparisonEngine] (token matching, severity,
    scoring), of [VisualDiffEngine] (pixel diff, flood fill, region
    merge, side-by-side image) and of the [ValidatorService] that calls
    both, followed by the properties established about them.

    Modelling conventions.
    - A JavaScript [number] is an exact rational, or one of NaN, +Infinity,
      -Infinity ([JS.number]).  Binary64 rounding and the sign of zero are
      not modelled; every comparison, the [x || d] fallback and the special
      values behave as in the source.  A property that a rounding could
      break is stated for inputs on which the source does not round
      ([exactDifferences]), or in the form that holds with and without the
      rounding ([percentSeverity]).
    - Quantities the source only ever fills with integers (scores, penalty
      sums, pixel coordinates, counters) are [Z] or [nat].
    - A string built by a template literal from a number is kept symbolic
      ([text]): the Number-to-string conversion is not modelled.
    - The engine's mutable fields [mismatches] and [mismatchIdCounter] are
      an explicit state ([engine]) threaded through every method.
    - chroma-js, pixelmatch and pngjs are external libraries: they are
      parameters ([Chroma], [ImageLibs]) of the functions that call them;
      so are the analyzers and the LLM service of the validator
      ([ValidatorService.Instance]).
    - A promise that rejects, or a call that throws, returns [None] or an
      error value. *)

From Stdlib Require Import ZArith QArith Qabs Qround Lqa Lia.
From Stdlib Require Import String Ascii List Bool Floats.
From stdpp Require Import base gmap sets list strings pretty.

Set Warnings "-register-all,-inexact-float".

Local Open Scope string_scope.
Local Open Scope Z_scope.

(** ** JavaScript numbers and built-ins *)

Module JS.

Inductive number : Type :=
| NaN
| NegInf
| Fin (q : Q)
| PosInf.

Definition ofZ (z : Z) : number := Fin (inject_Z z).

Definition Qltb (x y : Q) : bool := negb (Qle_bool y x).

(** [a < b] *)
Definition lt (a b : number) : bool :=
  match a, b with
  | NaN, _ | _, NaN => false
  | NegInf, NegInf => false
  | NegInf, _ => true
  | Fin _, NegInf => false
  | Fin x, Fin y => Qltb x y
  | Fin _, PosInf => true
  | PosInf, _ => false
  end.

(** [a <= b] *)
Definition le (a b : number) : bool :=
  match a, b with
  | NaN, _ | _, NaN => false
  | NegInf, _ => true
  | Fin _, NegInf => false
  | Fin x, Fin y => Qle_bool x y
  | Fin _, PosInf => true
  | PosInf, PosInf => true
  | PosInf, _ => false
  end.

(** [a > b] and [a >= b] *)
Definition gt (a b : number) : bool := lt b a.
Definition ge (a b : number) : bool := le b a.

(** [a === b] and [a !== b] on numbers *)
Definition seq (a b : number) : bool :=
  match a, b with
  | NegInf, NegInf | PosInf, PosInf => true
  | Fin x, Fin y => Qeq_bool x y
  | _, _ => false
  end.
Definition sne (a b : number) : bool := negb (seq a b).

Definition neg (a : number) : number :=
  match a with
  | NaN => NaN
  | NegInf => PosInf
  | Fin x => Fin (- x)
  | PosInf => NegInf
  end.

Definition add (a b : number) : number :=
  match a, b with
  | NaN, _ | _, NaN => NaN
  | Fin x, Fin y => Fin (x + y)
  | PosInf, NegInf | NegInf, PosInf => NaN
  | PosInf, _ | _, PosInf => PosInf
  | NegInf, _ | _, NegInf => NegInf
  end.

Definition sub (a b : number) : number := add a (neg b).

Definition Qsgn (x : Q) : Z := Z.sgn (Qnum x).

(** The sign of a number: [None] for NaN. *)
Definition sign (a : number) : option Z :=
  match a with
  | NaN => None
  | NegInf => Some (-1)
  | Fin x => Some (Qsgn x)
  | PosInf => Some 1
  end.

Definition signedInf (s : Z) : number :=
  if (s <? 0)%Z then NegInf else PosInf.

Definition mul (a b : number) : number :=
  match a, b with
  | Fin x, Fin y => Fin (x * y)
  | _, _ =>
      match sign a, sign b with
      | Some sa, Some sb =>
          if (sa * sb =? 0)%Z then NaN else signedInf (sa * sb)
      | _, _ => NaN
      end
  end.

(** [a / b]; a zero divisor counts as +0. *)
Definition div (a b : number) : number :=
  match a, b with
  | NaN, _ | _, NaN => NaN
  | Fin x, Fin y =>
      if Qeq_bool y 0 then
        (if (Qsgn x =? 0)%Z then NaN else signedInf (Qsgn x))
      else Fin (x / y)
  | Fin _, _ => Fin 0
  | _, Fin y => signedInf (match sign a with Some s => s | None => 1 end
                           * (if (Qsgn y <? 0)%Z then -1 else 1))
  | _, _ => NaN
  end.

(** [Math.abs] *)
Definition abs (a : number) : number :=
  match a with
  | NaN => NaN
  | Fin x => Fin (Qabs x)
  | _ => PosInf
  end.

(** [Math.round]: to the nearest integer, halves upwards. *)
Definition round (a : number) : number :=
  match a with
  | Fin x => ofZ (Qfloor (x + (1 # 2)))
  | _ => a
  end.

(** Truthiness of a number, and [a || d]. *)
Definition truthy (a : number) : bool :=
  match a with
  | NaN => false
  | Fin x => negb (Qeq_bool x 0)
  | _ => true
  end.
Definition orElse (a d : number) : number := if truthy a then a else d.

(** *** Strings *)

Definition nonEmpty (s : string) : bool :=
  match s with EmptyString => false | _ => true end.

Definition lowerAscii (c : ascii) : ascii :=
  let n := nat_of_ascii c in
  if ((65 <=? n) && (n <=? 90))%nat then ascii_of_nat (n + 32) else c.
Definition upperAscii (c : ascii) : ascii :=
  let n := nat_of_ascii c in
  if ((97 <=? n) && (n <=? 122))%nat then ascii_of_nat (n - 32) else c.

(** [toLowerCase] and [toUpperCase], on the ASCII letters. *)
Fixpoint toLowerCase (s : string) : string :=
  match s with
  | EmptyString => EmptyString
  | String c r => String (lowerAscii c) (toLowerCase r)
  end.
Fixpoint toUpperCase (s : string) : string :=
  match s with
  | EmptyString => EmptyString
  | String c r => String (upperAscii c) (toUpperCase r)
  end.

(** [s.startsWith(p)] *)
Definition startsWith (s p : string) : bool := String.prefix p s.

(** [s.includes(p)] *)
Fixpoint includes (s p : string) : bool :=
  String.prefix p s ||
  match s with
  | EmptyString => false
  | String _ r => includes r p
  end.

(** [s.split(' ')[0]] *)
Fixpoint firstWord (s : string) : string :=
  match s with
  | EmptyString => EmptyString
  | String c r => if Ascii.eqb c " " then EmptyString else String c (firstWord r)
  end.

(** *** [parseFloat] and [parseInt(_, 10)] *)

Definition isDigit (c : ascii) : bool :=
  let n := nat_of_ascii c in ((48 <=? n) && (n <=? 57))%nat.
Definition digitVal (c : ascii) : Z := Z.of_nat (nat_of_ascii c) - 48.
Definition isSpace (c : ascii) : bool :=
  let n := nat_of_ascii c in
  ((9 <=? n) && (n <=? 13))%nat || (n =? 32)%nat.

Fixpoint trimStart (s : string) : string :=
  match s with
  | EmptyString => EmptyString
  | String c r => if isSpace c then trimStart r else s
  end.

(** Reads a run of decimal digits onto [acc]; returns the value, the number
    of digits read and the rest. *)
Fixpoint readDigits (s : string) (acc : Z) (count : nat) : Z * nat * string :=
  match s with
  | EmptyString => (acc, count, s)
  | String c r =>
      if isDigit c then readDigits r (10 * acc + digitVal c) (S count)
      else (acc, count, s)
  end.

Definition readSign (s : string) : bool * string :=
  match s with
  | String "-" r => (true, r)
  | String "+" r => (false, r)
  | _ => (false, s)
  end.

Definition readExponent (s : string) : Z :=
  match s with
  | String c r =>
      if Ascii.eqb c "e" || Ascii.eqb c "E" then
        let '(eneg, r1) := readSign r in
        let '(ev, ec, _) := readDigits r1 0 0 in
        if (ec =? 0)%nat then 0 else if eneg then - ev else ev
      else 0
  | EmptyString => 0
  end.

Definition parseFloat (s : string) : number :=
  let '(negative, s0) := readSign (trimStart s) in
  if String.prefix "Infinity" s0 then (if negative then NegInf else PosInf)
  else
    let '(ip, ic, s1) := readDigits s0 0 0 in
    let '(fp, fc, s2) :=
      match s1 with
      | String "." r => readDigits r ip 0
      | _ => (ip, 0%nat, s1)
      end in
    if (ic + fc =? 0)%nat then NaN
    else
      let mant := inject_Z (if negative then - fp else fp) in
      Fin (mant * Qpower (10 # 1) (readExponent s2 - Z.of_nat fc)).

Definition parseInt (s : string) : number :=
  let '(negative, s0) := readSign (trimStart s) in
  let '(v, n, _) := readDigits s0 0 0 in
  if (n =? 0)%nat then NaN else ofZ (if negative then - v else v).

End JS.


(** ** Data model (the type definitions in src/store/index.ts) *)

Module Severity.
Inductive t : Set := critical | major | minor | info.
End Severity.
Abbreviation MismatchSeverity := Severity.t.

Module Category.
Inductive t : Set :=
  color | typography | spacing | layout | border | alignment | size.
End Category.
Abbreviation MismatchCategory := Category.t.

#[global] Instance severity_eq_dec : EqDecision MismatchSeverity.
Proof. solve_decision. Defined.
#[global] Instance category_eq_dec : EqDecision MismatchCategory.
Proof. solve_decision. Defined.

(** The fields of [ComputedStyleData] the engine reads; the others
    (fontFamily, letterSpacing, textAlign, borderStyle, width, height,
    display, position and the flex properties) are never read. *)
Record ComputedStyleData : Type := {
  color : string;
  backgroundColor : string;
  fontSize : string;
  fontWeight : string;
  lineHeight : string;
  margin : string;
  marginTop : string;
  marginRight : string;
  marginBottom : string;
  marginLeft : string;
  padding : string;
  paddingTop : string;
  paddingRight : string;
  paddingBottom : string;
  paddingLeft : string;
  borderRadius : string;
  borderWidth : string;
  borderColor : string;
  gap : option string
}.

(** [styles[prop]] for the keys the engine uses; [None] is [undefined]. *)
Definition styleProp (styles : ComputedStyleData) (prop : string) : option string :=
  if String.eqb prop "color" then Some (color styles)
  else if String.eqb prop "backgroundColor" then Some (backgroundColor styles)
  else if String.eqb prop "fontSize" then Some (fontSize styles)
  else if String.eqb prop "fontWeight" then Some (fontWeight styles)
  else if String.eqb prop "lineHeight" then Some (lineHeight styles)
  else if String.eqb prop "margin" then Some (margin styles)
  else if String.eqb prop "marginTop" then Some (marginTop styles)
  else if String.eqb prop "marginRight" then Some (marginRight styles)
  else if String.eqb prop "marginBottom" then Some (marginBottom styles)
  else if String.eqb prop "marginLeft" then Some (marginLeft styles)
  else if String.eqb prop "padding" then Some (padding styles)
  else if String.eqb prop "paddingTop" then Some (paddingTop styles)
  else if String.eqb prop "paddingRight" then Some (paddingRight styles)
  else if String.eqb prop "paddingBottom" then Some (paddingBottom styles)
  else if String.eqb prop "paddingLeft" then Some (paddingLeft styles)
  else if String.eqb prop "borderRadius" then Some (borderRadius styles)
  else if String.eqb prop "borderWidth" then Some (borderWidth styles)
  else if String.eqb prop "borderColor" then Some (borderColor styles)
  else if String.eqb prop "gap" then gap styles
  else None.

(** [DOMElement]; [textContent], [attributes] and [boundingBox] are never
    read by the engine. *)
Inductive DOMElement : Type :=
  mkDOMElement {
    tagName : string;
    elemId : option string;
    className : option string;
    computedStyles : ComputedStyleData;
    children : list DOMElement
  }.

Record FigmaColor : Type := { colorName : string; hex : string }.

Inductive TokenLineHeight : Type :=
| LineHeightNumber (n : JS.number)
| LineHeightString (s : string).

Record FigmaTypography : Type := {
  typoFontFamily : string;
  typoFontSize : JS.number;
  typoFontWeight : JS.number;
  typoLineHeight : TokenLineHeight
}.

Record FigmaSpacing : Type := { spacingName : string; value : JS.number }.

(** [styles : Partial<ComputedStyleData>] is read by key only. *)
Record FigmaComponent : Type := {
  componentName : string;
  styles : gmap string string
}.

Record FigmaDesignTokens : Type := {
  colors : list FigmaColor;
  typography : list FigmaTypography;
  spacing : list FigmaSpacing
}.

Record FigmaAnalysisResult : Type := {
  designTokens : FigmaDesignTokens;
  components : list FigmaComponent
}.

Record WebAnalysisResult : Type := { domTree : list DOMElement }.

(** A string value of a mismatch: a plain string, or the template literals
    [`${n}px`] and [`${n}`] over a number. *)
Inductive text : Type :=
| Str (s : string)
| Px (n : JS.number)
| Num (n : JS.number).

Record ElementRef : Type := {
  selector : string;
  refTagName : string;
  refId : option string;
  refClassName : option string
}.

Record StyleMismatch : Type := {
  mismatchId : string;
  category : MismatchCategory;
  severity : MismatchSeverity;
  property : string;
  expectedValue : text;
  actualValue : text;
  element : ElementRef;
  figmaComponent : option string;
  deviation : JS.number
}.

Record Summary : Type := {
  total : nat;
  nCritical : nat;
  nMajor : nat;
  nMinor : nat;
  nInfo : nat
}.

(** [ComparisonResult] without its [timestamp]. [categoryScores] keeps the
    insertion order of the object's keys, which [Object.entries] follows. *)
Record ComparisonResult : Type := {
  overallScore : JS.number;
  categoryScores : list (MismatchCategory * Z);
  resultMismatches : list StyleMismatch;
  summary : Summary
}.

Record BoundingBox : Type := { x : Z; y : Z; width : Z; height : Z }.

(** ** chroma-js *)

(** The part of chroma-js the engine calls: [chroma s] ([None] when it
    throws), [chroma.deltaE], which is a finite number on any two colours,
    and [c.hex()]. *)
Record Chroma : Type := {
  chromaColor : Type;
  chroma : string -> option chromaColor;
  deltaE : chromaColor -> chromaColor -> Q;
  toHex : chromaColor -> string
}.

(** ** The Comparison Engine ([ComparisonEngine], in
    src/services/validator/index.ts) *)

Module THRESHOLDS.
Module color.
Definition deltaE : JS.number := JS.ofZ 5.
Definition critical : JS.number := JS.ofZ 20.
Definition major : JS.number := JS.ofZ 10.
End color.
Module fontSize.
Definition pixels : JS.number := JS.ofZ 2.
Definition critical : JS.number := JS.ofZ 8.
Definition major : JS.number := JS.ofZ 4.
End fontSize.
Module spacing.
Definition pixels : JS.number := JS.ofZ 4.
Definition critical : JS.number := JS.ofZ 16.
Definition major : JS.number := JS.ofZ 8.
End spacing.
Module borderRadius.
Definition pixels : JS.number := JS.ofZ 2.
Definition critical : JS.number := JS.ofZ 8.
Definition major : JS.number := JS.ofZ 4.
End borderRadius.
Module lineHeight.
Definition ratio : JS.number := JS.Fin (1 # 10).
Definition critical : JS.number := JS.Fin (3 # 10).
Definition major : JS.number := JS.Fin (2 # 10).
End lineHeight.
End THRESHOLDS.

(** The engine's mutable fields. *)
Record engine : Type := {
  mismatches : list StyleMismatch;
  mismatchIdCounter : nat
}.

Definition newRun : engine := {| mismatches := []; mismatchIdCounter := 0 |}.

(** [addMismatch]: pushes the mismatch under the id [mismatch-<n>] of the
    incremented counter. *)
Definition addMismatch (cat : MismatchCategory) (prop : string)
    (expected actual : text) (el : ElementRef) (comp : option string)
    (dev : JS.number) (sev : MismatchSeverity) (st : engine) : engine :=
  let n := S (mismatchIdCounter st) in
  {| mismatches :=
       mismatches st ++
       [ {| mismatchId := "mismatch-" ++ pretty n;
            category := cat; severity := sev; property := prop;
            expectedValue := expected; actualValue := actual;
            element := el; figmaComponent := comp; deviation := dev |} ];
     mismatchIdCounter := n |}.

(** Truthiness of an optional string field. *)
Definition truthyStr (s : option string) : bool :=
  match s with Some v => JS.nonEmpty v | None => false end.

Definition buildSelector (el : DOMElement) (path : string) : string :=
  if truthyStr (elemId el) then "#" ++ default "" (elemId el)
  else
    let firstClass :=
      if truthyStr (className el) then JS.firstWord (default "" (className el))
      else "" in
    if JS.nonEmpty firstClass then "." ++ firstClass
    else if JS.nonEmpty path then path else tagName el.

Definition elementRef (el : DOMElement) (sel : string) : ElementRef :=
  {| selector := sel; refTagName := tagName el;
     refId := elemId el; refClassName := className el |}.

(** [`${selector} > :nth-child(${index + 1})`] *)
Definition nthChild (parent : string) (index : nat) : string :=
  parent ++ " > :nth-child(" ++ pretty (index + 1)%nat ++ ")".

(** The traversal shared by the three [processElement] closures: the
    element's own checks under its selector, then the children in order,
    each under the path of its position. *)
Fixpoint processElement (check : DOMElement -> string -> engine -> engine)
    (el : DOMElement) (path : string) (st : engine) : engine :=
  let sel := buildSelector el path in
  (fix forEach (cs : list DOMElement) (index : nat) (st : engine) : engine :=
     match cs with
     | [] => st
     | child :: rest =>
         forEach rest (S index)
           (processElement check child (nthChild sel index) st)
     end) (children el) 0%nat (check el sel st).

(** [domTree.forEach((element, index) => processElement(element, ...))] *)
Fixpoint forEachRoot (check : DOMElement -> string -> engine -> engine)
    (els : list DOMElement) (index : nat) (st : engine) : engine :=
  match els with
  | [] => st
  | el :: rest =>
      forEachRoot check rest (S index)
        (processElement check el (nthChild "body" index) st)
  end.

(** *** Severity *)

Definition getColorSeverity (d : JS.number) : MismatchSeverity :=
  if JS.ge d THRESHOLDS.color.critical then Severity.critical
  else if JS.ge d THRESHOLDS.color.major then Severity.major
  else Severity.minor.

Definition getFontSizeSeverity (d : JS.number) : MismatchSeverity :=
  if JS.ge d THRESHOLDS.fontSize.critical then Severity.critical
  else if JS.ge d THRESHOLDS.fontSize.major then Severity.major
  else Severity.minor.

Definition getSpacingSeverity (d : JS.number) : MismatchSeverity :=
  if JS.ge d THRESHOLDS.spacing.critical then Severity.critical
  else if JS.ge d THRESHOLDS.spacing.major then Severity.major
  else Severity.minor.

Definition getBorderRadiusSeverity (d : JS.number) : MismatchSeverity :=
  if JS.ge d THRESHOLDS.borderRadius.critical then Severity.critical
  else if JS.ge d THRESHOLDS.borderRadius.major then Severity.major
  else Severity.minor.

Definition getLineHeightSeverity (d : JS.number) : MismatchSeverity :=
  if JS.ge d THRESHOLDS.lineHeight.critical then Severity.critical
  else if JS.ge d THRESHOLDS.lineHeight.major then Severity.major
  else Severity.minor.

(** *** Colors *)

Record ColorMismatch : Type := {
  expected : string;
  actual : string;
  colorDeviation : JS.number
}.

Section WithChroma.
Context (lib : Chroma).

(** One turn of the loop of [findColorMismatch] over [(closestColor,
    minDeltaE)]; a token whose hex does not parse is skipped. *)
Definition closerColor (actualChroma : chromaColor lib)
    (acc : option FigmaColor * JS.number) (figmaColor : FigmaColor)
    : option FigmaColor * JS.number :=
  match chroma lib (hex figmaColor) with
  | None => acc
  | Some figmaChroma =>
      let d := JS.Fin (deltaE lib actualChroma figmaChroma) in
      if JS.lt d (snd acc) then (Some figmaColor, d) else acc
  end.

(** [findColorMismatch]. [closestColor] starts as [figmaColors[0]], which
    is [undefined] on an empty list; reading [.hex] of it then throws and
    the outer [catch] returns [null]. *)
Definition findColorMismatch (actualColor : string)
    (figmaColors : list FigmaColor) : option ColorMismatch :=
  match chroma lib actualColor with
  | None => None
  | Some actualChroma =>
      let '(closestColor, minDeltaE) :=
        foldl (closerColor actualChroma) (head figmaColors, JS.PosInf)
          figmaColors in
      if JS.le minDeltaE THRESHOLDS.color.deltaE then None
      else
        match closestColor with
        | None => None
        | Some c =>
            Some {| expected := hex c;
                    actual := JS.toUpperCase (toHex lib actualChroma);
                    colorDeviation := minDeltaE |}
        end
  end.

(** The checks of one element in [compareColors]. *)
Definition checkColors (figmaColors : list FigmaColor) (el : DOMElement)
    (sel : string) (st : engine) : engine :=
  let styles := computedStyles el in
  let st :=
    if JS.nonEmpty (color styles) then
      match findColorMismatch (color styles) figmaColors with
      | Some m =>
          addMismatch Category.color "color" (Str (expected m))
            (Str (actual m)) (elementRef el sel) None (colorDeviation m)
            (getColorSeverity (colorDeviation m)) st
      | None => st
      end
    else st in
  let st :=
    if JS.nonEmpty (backgroundColor styles)
       && negb (String.eqb (backgroundColor styles) "rgba(0, 0, 0, 0)") then
      match findColorMismatch (backgroundColor styles) figmaColors with
      | Some m =>
          addMismatch Category.color "backgroundColor" (Str (expected m))
            (Str (actual m)) (elementRef el sel) None (colorDeviation m)
            (getColorSeverity (colorDeviation m)) st
      | None => st
      end
    else st in
  if JS.nonEmpty (borderColor styles)
     && negb (String.eqb (borderWidth styles) "0px") then
    match findColorMismatch (borderColor styles) figmaColors with
    | Some m =>
        addMismatch Category.border "borderColor" (Str (expected m))
          (Str (actual m)) (elementRef el sel) None (colorDeviation m)
          (getColorSeverity (colorDeviation m)) st
    | None => st
    end
  else st.

Definition compareColors (domTree : list DOMElement)
    (figmaColors : list FigmaColor) (st : engine) : engine :=
  match figmaColors with
  | [] => st
  | _ => forEachRoot (checkColors figmaColors) domTree 0%nat st
  end.

End WithChroma.

(** *** Typography *)

(** [findClosestTypography]; [prop] reads the compared field. *)
Definition findClosestTypography (value : JS.number)
    (typography : list FigmaTypography) (prop : FigmaTypography -> JS.number)
    : option FigmaTypography :=
  match typography with
  | [] => None
  | first :: _ =>
      Some (fst (foldl
        (fun (acc : FigmaTypography * JS.number) typo =>
           let diff := JS.abs (JS.sub value (prop typo)) in
           if JS.lt diff (snd acc) then (typo, diff) else acc)
        (first, JS.abs (JS.sub value (prop first))) typography))
  end.

Definition expectedLineHeightOf (fontSize : JS.number) (typo : FigmaTypography)
    : JS.number :=
  match typoLineHeight typo with
  | LineHeightNumber n => n
  | LineHeightString _ => JS.mul fontSize (JS.Fin (3 # 2))
  end.

(** The loop of the line-height check: the first token, in order, whose
    ratio is more than the tolerance away; the loop [break]s there. Returns
    that token's expected line height and the difference of the ratios. *)
Fixpoint firstLineHeightDeviation (actualRatio fontSize : JS.number)
    (typography : list FigmaTypography) : option (JS.number * JS.number) :=
  match typography with
  | [] => None
  | typo :: rest =>
      let expectedLineHeight := expectedLineHeightOf fontSize typo in
      let expectedRatio := JS.div expectedLineHeight (typoFontSize typo) in
      let diff := JS.abs (JS.sub actualRatio expectedRatio) in
      if JS.gt diff THRESHOLDS.lineHeight.ratio then
        Some (expectedLineHeight, diff)
      else firstLineHeightDeviation actualRatio fontSize rest
  end.

(** The checks of one element in [compareTypography]. *)
Definition checkTypography (figmaTypography : list FigmaTypography)
    (el : DOMElement) (sel : string) (st : engine) : engine :=
  let styles := computedStyles el in
  let st :=
    if JS.nonEmpty (fontSize styles) then
      let actualSize := JS.parseFloat (fontSize styles) in
      match findClosestTypography actualSize figmaTypography typoFontSize with
      | Some closestTypo =>
          let diff := JS.abs (JS.sub actualSize (typoFontSize closestTypo)) in
          if JS.gt diff THRESHOLDS.fontSize.pixels then
            addMismatch Category.typography "fontSize"
              (Px (typoFontSize closestTypo)) (Str (fontSize styles))
              (elementRef el sel) None diff (getFontSizeSeverity diff) st
          else st
      | None => st
      end
    else st in
  let st :=
    if JS.nonEmpty (fontWeight styles) then
      let actualWeight := JS.parseInt (fontWeight styles) in
      match findClosestTypography actualWeight figmaTypography typoFontWeight with
      | Some closestTypo =>
          if JS.sne actualWeight (typoFontWeight closestTypo) then
            addMismatch Category.typography "fontWeight"
              (Num (typoFontWeight closestTypo)) (Str (fontWeight styles))
              (elementRef el sel) None
              (JS.abs (JS.sub actualWeight (typoFontWeight closestTypo)))
              Severity.minor st
          else st
      | None => st
      end
    else st in
  if JS.nonEmpty (lineHeight styles)
     && negb (String.eqb (lineHeight styles) "normal") then
    let actualLineHeight := JS.parseFloat (lineHeight styles) in
    let fontSize := JS.orElse (JS.parseFloat (fontSize styles)) (JS.ofZ 16) in
    let actualRatio := JS.div actualLineHeight fontSize in
    match firstLineHeightDeviation actualRatio fontSize figmaTypography with
    | Some (expectedLineHeight, diff) =>
        addMismatch Category.typography "lineHeight"
          (Px expectedLineHeight) (Str (lineHeight styles))
          (elementRef el sel) None (JS.mul diff (JS.ofZ 100))
          (getLineHeightSeverity diff) st
    | None => st
    end
  else st.

Definition compareTypography (domTree : list DOMElement)
    (figmaTypography : list FigmaTypography) (st : engine) : engine :=
  match figmaTypography with
  | [] => st
  | _ => forEachRoot (checkTypography figmaTypography) domTree 0%nat st
  end.

(** *** Spacing and border radius *)

Record SpacingMismatch : Type := {
  expectedSpacing : JS.number;
  spacingDeviation : JS.number
}.

Definition closerSpacing (actual : JS.number) (acc : JS.number * JS.number)
    (v : JS.number) : JS.number * JS.number :=
  let diff := JS.abs (JS.sub actual v) in
  if JS.lt diff (snd acc) then (v, diff) else acc.

(** [findSpacingMismatch] *)
Definition findSpacingMismatch (actual : JS.number)
    (spacingValues : list JS.number) : option SpacingMismatch :=
  match spacingValues with
  | [] => None
  | first :: _ =>
      let '(closest, minDiff) :=
        foldl (closerSpacing actual)
          (first, JS.abs (JS.sub actual first)) spacingValues in
      if JS.le minDiff THRESHOLDS.spacing.pixels then None
      else Some {| expectedSpacing := closest; spacingDeviation := minDiff |}
  end.

(** [parseFloat(styles[prop]) || 0]; [parseFloat(undefined)] is NaN. *)
Definition pixelValue (s : option string) : JS.number :=
  JS.orElse
    (match s with Some v => JS.parseFloat v | None => JS.NaN end)
    (JS.ofZ 0).

(** The body of the padding and margin loops, and of the gap check, for
    one property. *)
Definition checkSpacingProp (spacingValues : list JS.number)
    (el : DOMElement) (sel : string) (prop : string) (st : engine) : engine :=
  let value := pixelValue (styleProp (computedStyles el) prop) in
  if JS.gt value (JS.ofZ 0) then
    match findSpacingMismatch value spacingValues with
    | Some m =>
        addMismatch Category.spacing prop (Px (expectedSpacing m)) (Px value)
          (elementRef el sel) None (spacingDeviation m)
          (getSpacingSeverity (spacingDeviation m)) st
    | None => st
    end
  else st.

Definition paddingProps : list string :=
  ["paddingTop"; "paddingRight"; "paddingBottom"; "paddingLeft"].
Definition marginProps : list string :=
  ["marginTop"; "marginRight"; "marginBottom"; "marginLeft"].

(** The border-radius check of one element. *)
Definition checkBorderRadius (spacingValues : list JS.number)
    (el : DOMElement) (sel : string) (st : engine) : engine :=
  if JS.nonEmpty (borderRadius (computedStyles el)) then
    let value := pixelValue (Some (borderRadius (computedStyles el))) in
    if JS.gt value (JS.ofZ 0) then
      match findSpacingMismatch value spacingValues with
      | Some m =>
          if JS.gt (spacingDeviation m) THRESHOLDS.borderRadius.pixels then
            addMismatch Category.border "borderRadius"
              (Px (expectedSpacing m)) (Px value) (elementRef el sel) None
              (spacingDeviation m)
              (getBorderRadiusSeverity (spacingDeviation m)) st
          else st
      | None => st
      end
    else st
  else st.

(** The checks of one element in [compareSpacing]. *)
Definition checkSpacing (spacingValues : list JS.number) (el : DOMElement)
    (sel : string) (st : engine) : engine :=
  let st :=
    foldl (fun st prop => checkSpacingProp spacingValues el sel prop st)
      st paddingProps in
  let st :=
    foldl (fun st prop => checkSpacingProp spacingValues el sel prop st)
      st marginProps in
  let st :=
    if truthyStr (gap (computedStyles el)) then
      checkSpacingProp spacingValues el sel "gap" st
    else st in
  checkBorderRadius spacingValues el sel st.

Definition compareSpacing (domTree : list DOMElement)
    (figmaSpacing : list FigmaSpacing) (st : engine) : engine :=
  match figmaSpacing with
  | [] => st
  | _ => forEachRoot (checkSpacing (map value figmaSpacing)) domTree 0%nat st
  end.

(** *** Components *)

Definition isOneOf (names : list string) (s : string) : bool :=
  existsb (String.eqb s) names.

Definition getCategoryForProperty (prop : string) : MismatchCategory :=
  if isOneOf ["color"; "backgroundColor"] prop then Category.color
  else if isOneOf ["fontSize"; "fontFamily"; "fontWeight"; "lineHeight";
                   "letterSpacing"] prop then Category.typography
  else if isOneOf ["margin"; "padding"; "gap"] prop
          || JS.startsWith prop "margin" || JS.startsWith prop "padding"
       then Category.spacing
  else if isOneOf ["borderRadius"; "borderWidth"; "borderColor"] prop
       then Category.border
  else if isOneOf ["width"; "height"] prop then Category.size
  else if isOneOf ["textAlign"; "justifyContent"; "alignItems"] prop
       then Category.alignment
  else Category.layout.

Definition lowerOrEmpty (s : option string) : string :=
  match s with
  | Some v => let l := JS.toLowerCase v in if JS.nonEmpty l then l else ""
  | None => ""
  end.

Definition matchesComponent (componentName : string) (el : DOMElement) : bool :=
  JS.includes (lowerOrEmpty (elemId el)) componentName
  || JS.includes (lowerOrEmpty (className el)) componentName.

(** [findInTree]: the first element, in document order, whose id or class
    contains the component's name. *)
Fixpoint findInElement (componentName : string) (el : DOMElement)
    : option DOMElement :=
  if matchesComponent componentName el then Some el
  else
    (fix findInTree (els : list DOMElement) : option DOMElement :=
       match els with
       | [] => None
       | child :: rest =>
           match findInElement componentName child with
           | Some found => Some found
           | None => findInTree rest
           end
       end) (children el).

Fixpoint findInTree (componentName : string) (els : list DOMElement)
    : option DOMElement :=
  match els with
  | [] => None
  | el :: rest =>
      match findInElement componentName el with
      | Some found => Some found
      | None => findInTree componentName rest
      end
  end.

Definition findMatchingElement (domTree : list DOMElement)
    (figmaComponent : FigmaComponent) : option DOMElement :=
  findInTree (JS.toLowerCase (componentName figmaComponent)) domTree.

Definition styleProps : list string :=
  ["fontSize"; "fontWeight"; "lineHeight"; "padding"; "margin"; "borderRadius"].

(** The body of the loop of [compareElementStyles] for one property. *)
Definition compareElementStyle (el : DOMElement) (sel : string)
    (figmaComponent : FigmaComponent) (st : engine) (prop : string) : engine :=
  match styles figmaComponent !! prop, styleProp (computedStyles el) prop with
  | Some expectedStr, Some actualStr =>
      if JS.nonEmpty expectedStr && JS.nonEmpty actualStr then
        let expected := pixelValue (Some expectedStr) in
        let actual := pixelValue (Some actualStr) in
        let diff := JS.abs (JS.sub expected actual) in
        if JS.gt diff THRESHOLDS.spacing.pixels then
          addMismatch (getCategoryForProperty prop) prop (Str expectedStr)
            (Str actualStr) (elementRef el sel)
            (Some (componentName figmaComponent)) diff Severity.major st
        else st
      else st
  | _, _ => st
  end.

Definition compareElementStyles (el : DOMElement)
    (figmaComponent : FigmaComponent) (st : engine) : engine :=
  foldl (compareElementStyle el (buildSelector el "") figmaComponent)
    st styleProps.

(** [compareComponents]; a component's [styles] object is always truthy. *)
Definition compareComponents (domTree : list DOMElement)
    (figmaComponents : list FigmaComponent) (st : engine) : engine :=
  foldl (fun st figmaComponent =>
           match findMatchingElement domTree figmaComponent with
           | Some matchingElement =>
               compareElementStyles matchingElement figmaComponent st
           | None => st
           end) st figmaComponents.

(** *** Scores *)

Definition categories : list MismatchCategory :=
  [Category.color; Category.typography; Category.spacing; Category.layout;
   Category.border; Category.alignment; Category.size].

Definition penalty (s : MismatchSeverity) : Z :=
  match s with
  | Severity.critical => 15
  | Severity.major => 10
  | Severity.minor => 5
  | Severity.info => 2
  end.

Definition categoryScore (ms : list StyleMismatch) (cat : MismatchCategory) : Z :=
  let categoryMismatches := filter (fun m => category m = cat) ms in
  match categoryMismatches with
  | [] => 100
  | _ =>
      let deduction :=
        foldl (fun deduction m => deduction + penalty (severity m)) 0
          categoryMismatches in
      Z.max 0 (100 - deduction)
  end.

(** [calculateCategoryScores]: one entry per category, in the order of the
    [categories] array. *)
Definition calculateCategoryScores (st : engine)
    : list (MismatchCategory * Z) :=
  map (fun cat => (cat, categoryScore (mismatches st) cat)) categories.

Definition weights : list (MismatchCategory * Q) :=
  [(Category.color, 2 # 10); (Category.typography, 2 # 10);
   (Category.spacing, 15 # 100); (Category.layout, 15 # 100);
   (Category.border, 1 # 10); (Category.alignment, 1 # 10);
   (Category.size, 1 # 10)].

Fixpoint lookupWeight (table : list (MismatchCategory * Q))
    (cat : MismatchCategory) : option Q :=
  match table with
  | [] => None
  | (c, w) :: rest => if decide (c = cat) then Some w else lookupWeight rest cat
  end.

(** [weights[category] || 0.1] *)
Definition weightOf (cat : MismatchCategory) : Q :=
  match lookupWeight weights cat with
  | Some w => if Qeq_bool w 0 then 1 # 10 else w
  | None => 1 # 10
  end.

(** The total of the seven weights as the loop adds it up in binary64,
    starting from 0. *)
Definition totalWeightBinary64 : float :=
  (0 + 0.2 + 0.2 + 0.15 + 0.15 + 0.1 + 0.1 + 0.1)%float.

(** The loop of [calculateOverallScore] over the entries of the score map,
    in order: [(weightedSum, totalWeight)]. *)
Definition weightedTotals (categoryScores : list (MismatchCategory * Z))
    : Q * Q :=
  foldl (fun (acc : Q * Q) (entry : MismatchCategory * Z) =>
           let weight := weightOf (fst entry) in
           ((fst acc + inject_Z (snd entry) * weight)%Q,
            (snd acc + weight)%Q))
    (0%Q, 0%Q) categoryScores.

Definition calculateOverallScore (categoryScores : list (MismatchCategory * Z))
    : JS.number :=
  let '(weightedSum, totalWeight) := weightedTotals categoryScores in
  JS.round (JS.div (JS.Fin weightedSum) (JS.Fin totalWeight)).

Definition countSeverity (s : MismatchSeverity) (ms : list StyleMismatch) : nat :=
  length (filter (fun m => severity m = s) ms).

Definition calculateSummary (st : engine) : Summary :=
  {| total := length (mismatches st);
     nCritical := countSeverity Severity.critical (mismatches st);
     nMajor := countSeverity Severity.major (mismatches st);
     nMinor := countSeverity Severity.minor (mismatches st);
     nInfo := countSeverity Severity.info (mismatches st) |}.

(** *** [compare] *)

Section Compare.
Context (lib : Chroma).

(** The three token walks, in the order of [compare]. *)
Definition compareTokens (domTree : list DOMElement)
    (tokens : FigmaDesignTokens) (st : engine) : engine :=
  let st := compareColors lib domTree (colors tokens) st in
  let st := compareTypography domTree (typography tokens) st in
  compareSpacing domTree (spacing tokens) st.

(** [compare]: both mutable fields are reset first, so the result depends
    on the arguments only. *)
Definition compare (webAnalysis : WebAnalysisResult)
    (figmaAnalysis : FigmaAnalysisResult) : ComparisonResult :=
  let st := compareTokens (domTree webAnalysis)
              (designTokens figmaAnalysis) newRun in
  let st :=
    if (0 <? length (components figmaAnalysis))%nat
       && (0 <? length (domTree webAnalysis))%nat
    then compareComponents (domTree webAnalysis) (components figmaAnalysis) st
    else st in
  let scores := calculateCategoryScores st in
  {| overallScore := calculateOverallScore scores;
     categoryScores := scores;
     resultMismatches := mismatches st;
     summary := calculateSummary st |}.

End Compare.

(** ** The Visual Diff Engine ([VisualDiffEngine], in
    src/electron/preload.ts) *)

Record PNG : Type := { pngWidth : Z; pngHeight : Z; data : list Z }.

Record VisualDiffOptions : Type := {
  threshold : option JS.number;
  includeAA : option bool;
  alpha : option JS.number;
  diffColor : option (Z * Z * Z);
  diffColorAlt : option (Z * Z * Z)
}.

(** The options as [pixelmatch] receives them. *)
Record PixelmatchOptions : Type := {
  pmThreshold : JS.number;
  pmIncludeAA : bool;
  pmAlpha : JS.number;
  pmDiffColor : Z * Z * Z;
  pmDiffColorAlt : Z * Z * Z
}.

Record VisualDiffResult : Type := {
  diffImage : string;
  matchPercentage : JS.number;
  mismatchedPixels : Z;
  totalPixels : Z;
  diffAreas : list BoundingBox
}.

(** pngjs and pixelmatch: [pngParse] decodes the bytes of a base64 string
    ([None] when it reports an error), [pngPack] encodes an image to base64
    ([None] when the stream reports an error), and [pixelmatch img1 img2
    output width height options] returns the number of mismatched pixels
    and the diff it wrote over [output]. *)
Record ImageLibs : Type := {
  pngParse : string -> option PNG;
  pngPack : PNG -> option string;
  pixelmatch :
    list Z -> list Z -> list Z -> Z -> Z -> PixelmatchOptions -> Z * list Z
}.

Module VisualDiffEngine.

Definition DEFAULT_OPTIONS : PixelmatchOptions :=
  {| pmThreshold := JS.Fin (1 # 10);
     pmIncludeAA := false;
     pmAlpha := JS.Fin (1 # 10);
     pmDiffColor := (255, 0, 0);
     pmDiffColorAlt := (255, 255, 0) |}.

(** [{ ...DEFAULT_OPTIONS, ...options }] *)
Definition mergeOptions (options : VisualDiffOptions) : PixelmatchOptions :=
  {| pmThreshold := default (pmThreshold DEFAULT_OPTIONS) (threshold options);
     pmIncludeAA := default (pmIncludeAA DEFAULT_OPTIONS) (includeAA options);
     pmAlpha := default (pmAlpha DEFAULT_OPTIONS) (alpha options);
     pmDiffColor := default (pmDiffColor DEFAULT_OPTIONS) (diffColor options);
     pmDiffColorAlt :=
       default (pmDiffColorAlt DEFAULT_OPTIONS) (diffColorAlt options) |}.

Definition isWordChar (c : ascii) : bool :=
  let n := nat_of_ascii c in
  JS.isDigit c || ((65 <=? n) && (n <=? 90))%nat
  || ((97 <=? n) && (n <=? 122))%nat || (n =? 95)%nat.

Fixpoint dropWordChars (s : string) : string :=
  match s with
  | EmptyString => EmptyString
  | String c r => if isWordChar c then dropWordChars r else s
  end.

Fixpoint dropPrefix (p s : string) : option string :=
  match p, s with
  | EmptyString, _ => Some s
  | String a p', String b s' => if Ascii.eqb a b then dropPrefix p' s' else None
  | String _ _, EmptyString => None
  end.

(** [base64.replace(/^data:image\/\w+;base64,/, '')] *)
Definition stripDataUrl (base64 : string) : string :=
  match dropPrefix "data:image/" base64 with
  | Some (String c r) =>
      if isWordChar c then
        match dropPrefix ";base64," (dropWordChars r) with
        | Some rest => rest
        | None => base64
        end
      else base64
  | _ => base64
  end.

(** [x << 2] on a non-negative integer, with the 32-bit wrap-around. *)
Definition shl2 (v : Z) : Z :=
  (v * 4 + 2147483648) mod 4294967296 - 2147483648.

(** [data[idx]]; [None] is [undefined]. *)
Definition byteAt (bytes : list Z) (idx : Z) : option Z :=
  if idx <? 0 then None else bytes !! Z.to_nat idx.

(** [data[idx] = v]; a write outside the buffer is dropped. *)
Definition setByte (bytes : list Z) (idx : Z) (v : Z) : list Z :=
  if idx <? 0 then bytes else <[Z.to_nat idx := v]> bytes.

(** [new PNG({ width, height })]: a zeroed RGBA buffer. *)
Definition newPNG (w h : Z) : PNG :=
  {| pngWidth := w; pngHeight := h;
     data := replicate (Z.to_nat (4 * w * h)) 0 |}.

(** The pixels [(x, y)] with [0 <= y < h] and [0 <= x < w], rows first. *)
Definition pixelsOf (w h : Z) : list (Z * Z) :=
  y ← seqZ 0 h; x ← seqZ 0 w; [(x, y)].

Definition resizeImage (img : PNG) (targetWidth targetHeight : Z) : PNG :=
  if (pngWidth img =? targetWidth) && (pngHeight img =? targetHeight) then img
  else
    let white :=
      foldl (fun bytes '(x, y) =>
               let idx := shl2 (targetWidth * y + x) in
               setByte (setByte (setByte (setByte bytes idx 255)
                 (idx + 1) 255) (idx + 2) 255) (idx + 3) 255)
        (data (newPNG targetWidth targetHeight))
        (pixelsOf targetWidth targetHeight) in
    let copied :=
      foldl (fun bytes '(x, y) =>
               let srcIdx := shl2 (pngWidth img * y + x) in
               let dstIdx := shl2 (targetWidth * y + x) in
               let src k := default 0 (byteAt (data img) (srcIdx + k)) in
               setByte (setByte (setByte (setByte bytes dstIdx (src 0))
                 (dstIdx + 1) (src 1)) (dstIdx + 2) (src 2))
                 (dstIdx + 3) (src 3))
        white
        (pixelsOf (Z.min (pngWidth img) targetWidth)
                  (Z.min (pngHeight img) targetHeight)) in
    {| pngWidth := targetWidth; pngHeight := targetHeight; data := copied |}.

Definition normalizeImageSizes (img1 img2 : PNG) : Z * Z * PNG * PNG :=
  let w := Z.max (pngWidth img1) (pngWidth img2) in
  let h := Z.max (pngHeight img1) (pngHeight img2) in
  if (pngWidth img1 =? pngWidth img2) && (pngHeight img1 =? pngHeight img2)
  then (w, h, img1, img2)
  else (w, h, resizeImage img1 w h, resizeImage img2 w h).

(** A diff pixel is pure red. *)
Definition isDiffPixel (bytes : list Z) (idx : Z) : bool :=
  bool_decide (byteAt bytes idx = Some 255)
  && bool_decide (byteAt bytes (idx + 1) = Some 0)
  && bool_decide (byteAt bytes (idx + 2) = Some 0).

(** The state of the loop of [floodFillRegion]. *)
Record fill : Type := {
  stack : list (Z * Z);
  visited : gset Z;
  minX : Z; maxX : Z; minY : Z; maxY : Z;
  pixelCount : Z
}.

(** The [while (stack.length > 0)] loop; the head of [stack] is its top.
    No run takes more than [4 * width * height + 1] turns (a turn pops one
    frame, and four are pushed only when a new pixel is marked), which is
    the [fuel] the caller passes ([floodFillRegion_fuel]). *)
Fixpoint floodLoop (fuel : nat) (img : PNG) (s : fill) : fill :=
  match fuel, stack s with
  | O, _ | _, [] => s
  | S fuel', (px, py) :: rest =>
      let pixelKey := py * pngWidth img + px in
      let popped :=
        {| stack := rest; visited := visited s;
           minX := minX s; maxX := maxX s; minY := minY s; maxY := maxY s;
           pixelCount := pixelCount s |} in
      if (px <? 0) || (pngWidth img <=? px) || (py <? 0)
         || (pngHeight img <=? py) || bool_decide (pixelKey ∈ visited s)
      then floodLoop fuel' img popped
      else if negb (isDiffPixel (data img) (shl2 (pngWidth img * py + px)))
      then floodLoop fuel' img popped
      else
        let pushed :=
          {| stack :=
               (px, py - 1) :: (px, py + 1) :: (px - 1, py) :: (px + 1, py)
               :: rest;
             visited := {[pixelKey]} ∪ visited s;
             minX := Z.min (minX s) px; maxX := Z.max (maxX s) px;
             minY := Z.min (minY s) py; maxY := Z.max (maxY s) py;
             pixelCount := pixelCount s + 1 |} in
        if (100000 <? Z.of_nat (length (stack pushed))) then pushed
        else floodLoop fuel' img pushed
  end.

(** [floodFillRegion]: the region, if it has at least 10 pixels, and the
    updated [visited] set. *)
Definition floodFillRegion (diffImage : PNG) (startX startY : Z)
    (seen : gset Z) : option BoundingBox * gset Z :=
  let s :=
    floodLoop (Z.to_nat (4 * pngWidth diffImage * pngHeight diffImage + 1))
      diffImage
      {| stack := [(startX, startY)]; visited := seen;
         minX := startX; maxX := startX; minY := startY; maxY := startY;
         pixelCount := 0 |} in
  (if pixelCount s <? 10 then None
   else Some {| x := minX s; y := minY s;
                width := maxX s - minX s + 1;
                height := maxY s - minY s + 1 |},
   visited s).

Definition regionsOverlapOrNear (a b : BoundingBox) (threshold : Z) : bool :=
  let aRight := x a + width a in
  let aBottom := y a + height a in
  let bRight := x b + width b in
  let bBottom := y b + height b in
  negb ((aRight + threshold <? x b) || (bRight + threshold <? x a)
        || (aBottom + threshold <? y b) || (bBottom + threshold <? y a)).

Definition mergeRegions (a b : BoundingBox) : BoundingBox :=
  let nx := Z.min (x a) (x b) in
  let ny := Z.min (y a) (y b) in
  let right := Z.max (x a + width a) (x b + width b) in
  let bottom := Z.max (y a + height a) (y b + height b) in
  {| x := nx; y := ny; width := right - nx; height := bottom - ny |}.

(** The body of the inner [for (j ...)] loop over [(current, used,
    changed)]. *)
Definition mergeStep (regions : list BoundingBox) (threshold : Z)
    (acc : BoundingBox * gset nat * bool) (j : nat)
    : BoundingBox * gset nat * bool :=
  let '(current, used, changed) := acc in
  if bool_decide (j ∈ used) then (current, used, changed)
  else
    match regions !! j with
    | Some rj =>
        if regionsOverlapOrNear current rj threshold
        then (mergeRegions current rj, {[j]} ∪ used, true)
        else (current, used, changed)
    | None => (current, used, changed)
    end.

(** One pass of that loop, starting with [changed = false]. *)
Definition mergePass (regions : list BoundingBox) (threshold : Z)
    (current : BoundingBox) (used : gset nat) : BoundingBox * gset nat * bool :=
  foldl (mergeStep regions threshold) (current, used, false)
    (seq 0 (length regions)).

(** The [while (changed)] loop: passes until one merges nothing. Each pass
    that merges marks a further index as used, so a [fuel] above the number
    of unused indices always reaches that pass ([growRegion_total]). *)
Fixpoint growRegion (fuel : nat) (regions : list BoundingBox) (threshold : Z)
    (current : BoundingBox) (used : gset nat)
    : option (BoundingBox * gset nat) :=
  match fuel with
  | O => None
  | S fuel' =>
      let '(current', used', changed) :=
        mergePass regions threshold current used in
      if changed then growRegion fuel' regions threshold current' used'
      else Some (current', used')
  end.

(** [mergeNearbyRegions]; [None] only if [growRegion] ran out of fuel. *)
Definition mergeNearbyRegions (regions : list BoundingBox) (threshold : Z)
    : option (list BoundingBox) :=
  if (length regions <=? 1)%nat then Some regions
  else
    fst <$>
    foldl (fun (acc : option (list BoundingBox * gset nat)) i =>
             '(merged, used) ← acc;
             if bool_decide (i ∈ used) then Some (merged, used)
             else
               match regions !! i with
               | Some ri =>
                   '(current, used') ←
                     growRegion (S (length regions)) regions threshold ri
                       ({[i]} ∪ used);
                   Some ((merged ++ [current])%list, used')
               | None => Some (merged, used)
               end)
      (Some ([], ∅)) (seq 0 (length regions)).

(** The scan of [findDiffAreas] over [(areas, visited)]. *)
Definition scanPixel (diffImage : PNG)
    (acc : list BoundingBox * gset Z) (p : Z * Z) : list BoundingBox * gset Z :=
  let '(px, py) := p in
  let idx := shl2 (pngWidth diffImage * py + px) in
  let pixelKey := py * pngWidth diffImage + px in
  if negb (bool_decide (pixelKey ∈ snd acc))
     && isDiffPixel (data diffImage) idx then
    match floodFillRegion diffImage px py (snd acc) with
    | (Some region, seen) => ((fst acc ++ [region])%list, seen)
    | (None, seen) => (fst acc, seen)
    end
  else acc.

Definition findDiffAreas (diffImage : PNG) (mismatchedPixels : Z)
    : option (list BoundingBox) :=
  if mismatchedPixels =? 0 then Some []
  else
    let areas :=
      fst (foldl (scanPixel diffImage) ([], ∅)
             (pixelsOf (pngWidth diffImage) (pngHeight diffImage))) in
    mergeNearbyRegions areas 20.

Section WithLibs.
Context (libs : ImageLibs).

Definition decodeBase64Image (base64 : string) : option PNG :=
  pngParse libs (stripDataUrl base64).

Definition encodeImageToBase64 (png : PNG) : option string :=
  pngPack libs png.

(** [compare]; [None] when one of the promises rejects. *)
Definition compare (image1Base64 image2Base64 : string)
    (options : VisualDiffOptions) : option VisualDiffResult :=
  let mergedOptions := mergeOptions options in
  img1 ← decodeBase64Image image1Base64;
  img2 ← decodeBase64Image image2Base64;
  let '(w, h, resizedImg1, resizedImg2) := normalizeImageSizes img1 img2 in
  let blank := newPNG w h in
  let '(mismatched, diffData) :=
    pixelmatch libs (data resizedImg1) (data resizedImg2) (data blank) w h
      mergedOptions in
  let diff := {| pngWidth := w; pngHeight := h; data := diffData |} in
  let total := w * h in
  let percentage :=
    JS.mul (JS.div (JS.ofZ (total - mismatched)) (JS.ofZ total)) (JS.ofZ 100) in
  diffImageBase64 ← encodeImageToBase64 diff;
  areas ← findDiffAreas diff mismatched;
  Some {| diffImage := diffImageBase64;
          matchPercentage :=
            JS.div (JS.round (JS.mul percentage (JS.ofZ 100))) (JS.ofZ 100);
          mismatchedPixels := mismatched;
          totalPixels := total;
          diffAreas := areas |}.

End WithLibs.
End VisualDiffEngine.

(** ** Reference definitions, following the specification's wording *)

(** [scores[cat]] in a score map. *)
Fixpoint scoreOf (scores : list (MismatchCategory * Z)) (cat : MismatchCategory)
    : option Z :=
  match scores with
  | [] => None
  | (c, s) :: rest => if decide (c = cat) then Some s else scoreOf rest cat
  end.

(** The mismatches of one category and one severity. *)
Definition countIn (ms : list StyleMismatch) (cat : MismatchCategory)
    (sev : MismatchSeverity) : Z :=
  Z.of_nat (length (filter (fun m => category m = cat /\ severity m = sev) ms)).

(** "Start at 100 and subtract a fixed penalty per mismatch by severity
    (critical 15, major 10, minor 5, info 2), floored at 0." *)
Definition penalisedScore (ms : list StyleMismatch) (cat : MismatchCategory) : Z :=
  Z.max 0
    (100 - (15 * countIn ms cat Severity.critical
            + 10 * countIn ms cat Severity.major
            + 5 * countIn ms cat Severity.minor
            + 2 * countIn ms cat Severity.info)).

(** "A fixed-weight average across all seven categories (color 0.20,
    typography 0.20, spacing 0.15, layout 0.15, border 0.10, alignment
    0.10, size 0.10)." *)
Definition weightedAverage (score : MismatchCategory -> Z) : Q :=
  ((20 # 100) * inject_Z (score Category.color)
   + (20 # 100) * inject_Z (score Category.typography)
   + (15 # 100) * inject_Z (score Category.spacing)
   + (15 # 100) * inject_Z (score Category.layout)
   + (10 # 100) * inject_Z (score Category.border)
   + (10 # 100) * inject_Z (score Category.alignment)
   + (10 # 100) * inject_Z (score Category.size))%Q.

(** [z] is an integer nearest to [q]. *)
Definition nearestInteger (q : Q) (z : Z) : Prop :=
  (Qabs (inject_Z z - q) <= 1 # 2)%Q.



Definition colorProps : list string :=
  ["color"; "backgroundColor"; "borderColor"].
Definition spacingProps : list string :=
  paddingProps ++ marginProps ++ ["gap"].


(** ** Instances of the library parameters, for running the engines *)

Module Stub.

Definition hexDigit (c : ascii) : bool :=
  let n := nat_of_ascii c in
  JS.isDigit c || ((65 <=? n) && (n <=? 70))%nat.

Fixpoint hexValue (s : string) (acc : Z) : Z :=
  match s with
  | EmptyString => acc
  | String c r =>
      let n := Z.of_nat (nat_of_ascii c) in
      hexValue r (16 * acc + (if JS.isDigit c then n - 48 else n - 55))
  end.

Definition validHex (s : string) : bool :=
  match s with
  | String "#" r =>
      (String.length r =? 6)%nat
      && forallb hexDigit (list_ascii_of_string r)
  | _ => false
  end.

Definition channel (s : string) (i : nat) : Z :=
  hexValue (String.substring (1 + 2 * i) 2 s) 0.

(** A stand-in for chroma-js: a colour is a string [#RRGGBB] in upper case,
    any other string is rejected, and the distance is the sum of the
    differences of the three channels. *)
Definition chromaLib : Chroma :=
  {| chromaColor := string;
     chroma := fun s => if validHex s then Some s else None;
     deltaE := fun a b =>
       inject_Z (Z.abs (channel a 0 - channel b 0)
                 + Z.abs (channel a 1 - channel b 1)
                 + Z.abs (channel a 2 - channel b 2));
     toHex := fun c => c |}.

(** A stand-in for pngjs and pixelmatch: the text ["red"] decodes to one
    red pixel and nothing else decodes, every image encodes, and two
    different buffers differ in every pixel. *)
Definition imageLibs : ImageLibs :=
  {| pngParse := fun s =>
       if String.eqb s "red" then
         Some {| pngWidth := 1; pngHeight := 1; data := [255; 0; 0; 255] |}
       else None;
     pngPack := fun _ => Some "diff";
     pixelmatch := fun img1 img2 output w h _ =>
       if bool_decide (img1 = img2) then (0, output) else (w * h, output) |}.

End Stub.

(** ** Where a mismatch comes from *)

(** [st'] holds the mismatches of [st] followed by further ones, all
    satisfying [P]. *)
Definition adds (P : StyleMismatch -> Prop) (st st' : engine) : Prop :=
  exists new : list StyleMismatch,
    mismatches st' = (mismatches st ++ new)%list /\ Forall P new.

(** The shape of what each walk of [compare] pushes. *)
Definition colorWalkMismatch (m : StyleMismatch) : Prop :=
  figmaComponent m = None
  /\ ((category m = Category.color
       /\ (property m = "color" \/ property m = "backgroundColor"))
      \/ (category m = Category.border /\ property m = "borderColor"))
  /\ severity m = getColorSeverity (deviation m).

Definition typographyWalkMismatch (m : StyleMismatch) : Prop :=
  figmaComponent m = None
  /\ category m = Category.typography
  /\ ((property m = "fontSize"
       /\ severity m = getFontSizeSeverity (deviation m))
      \/ (property m = "fontWeight" /\ severity m = Severity.minor)
      \/ (property m = "lineHeight"
          /\ exists diff, deviation m = JS.mul diff (JS.ofZ 100)
                          /\ severity m = getLineHeightSeverity diff)).

Definition spacingWalkMismatch (m : StyleMismatch) : Prop :=
  figmaComponent m = None
  /\ ((category m = Category.spacing /\ property m ∈ spacingProps
       /\ severity m = getSpacingSeverity (deviation m))
      \/ (category m = Category.border /\ property m = "borderRadius"
          /\ severity m = getBorderRadiusSeverity (deviation m))).

Definition componentMismatch (m : StyleMismatch) : Prop :=
  is_Some (figmaComponent m)
  /\ severity m = Severity.major
  /\ (category m = Category.typography \/ category m = Category.spacing
      \/ category m = Category.border)
  /\ property m ∈ styleProps.

Definition figmaInput (cols : list FigmaColor) (typ : list FigmaTypography)
    (sp : list FigmaSpacing) (comps : list FigmaComponent)
    : FigmaAnalysisResult :=
  {| designTokens := {| colors := cols; typography := typ; spacing := sp |};
     components := comps |}.

(** The tokens whose hex parses, in order, each with its Delta-E to the
    actual colour. *)
Definition tokenDistances (lib : Chroma) (actualChroma : chromaColor lib)
    (tokens : list FigmaColor) : list (FigmaColor * Q) :=
  omap (fun t => c ← chroma lib (hex t);
                 Some (t, deltaE lib actualChroma c)) tokens.

(** "Keep the minimum; the first candidate encountered in iteration order
    wins ties": [(t, d)] stands at position [i], no distance is below [d],
    and every earlier one is above it. *)
Definition firstMinimumAt {A} (ds : list (A * Q)) (i : nat) (t : A) (d : Q)
    : Prop :=
  ds !! i = Some (t, d)
  /\ (forall j t' d', ds !! j = Some (t', d') -> (d <= d')%Q)
  /\ (forall j t' d', (j < i)%nat -> ds !! j = Some (t', d') -> (d < d')%Q).

(** A computed value that parses to 0 or does not parse. *)
Definition parsesToZeroOrNaN (s : string) : Prop :=
  JS.parseFloat s = JS.NaN \/ JS.seq (JS.parseFloat s) (JS.ofZ 0) = true.

(** A mismatch about a property whose pixel value in [el] is positive. *)
Definition aboutPositiveValue (el : DOMElement) (m : StyleMismatch) : Prop :=
  JS.gt (pixelValue (styleProp (computedStyles el) (property m))) (JS.ofZ 0)
  = true.

(** The indices below [n] not marked in [used]. *)
Definition unusedCount (n : nat) (used : gset nat) : nat :=
  length (filter (fun j => j ∉ used) (seq 0 n)).

(** The pixel keys of [img] not marked in [seen], and the bound on the
    turns the flood-fill loop can still take from a state. *)
Definition unmarkedCount (img : PNG) (seen : gset Z) : nat :=
  length (filter (fun k => k ∉ seen) (seqZ 0 (pngWidth img * pngHeight img))).

Definition turnsLeft (img : PNG) (s : VisualDiffEngine.fill) : nat :=
  (4 * unmarkedCount img (VisualDiffEngine.visited s)
   + length (VisualDiffEngine.stack s))%nat.

(** The sum of the penalties of a list of mismatches. *)
Definition sumPenalties (ms : list StyleMismatch) : Z :=
  foldl (fun deduction m => deduction + penalty (severity m)) 0 ms.

(** The loop of [findColorMismatch], read over the parsed tokens. *)
Definition closerParsed (acc : option FigmaColor * JS.number)
    (td : FigmaColor * Q) : option FigmaColor * JS.number :=
  if JS.lt (JS.Fin (snd td)) (snd acc) then (Some (fst td), JS.Fin (snd td))
  else acc.

(** ** Concrete inputs *)

Module Examples.

Definition styled (textColor size weight lineH pad radius : string)
    : ComputedStyleData :=
  {| color := textColor; backgroundColor := "rgba(0, 0, 0, 0)";
     fontSize := size; fontWeight := weight; lineHeight := lineH;
     margin := "0px"; marginTop := "0px"; marginRight := "0px";
     marginBottom := "0px"; marginLeft := "0px";
     padding := pad; paddingTop := pad; paddingRight := pad;
     paddingBottom := pad; paddingLeft := pad;
     borderRadius := radius; borderWidth := "0px"; borderColor := "";
     gap := None |}.

(** A button with 16px text of weight 400 on a 24px line, no padding and
    a 7px corner radius. *)
Definition button : DOMElement :=
  mkDOMElement "button" (Some "btn") None
    (styled "" "16px" "400" "24px" "0px" "7px") [].

Definition page : WebAnalysisResult := {| domTree := [button] |}.

(** A component named after the button, drawn at 32px and weight 700. *)
Definition btnComponent : FigmaComponent :=
  {| componentName := "btn";
     styles := {[ "fontSize" := "32px"; "fontWeight" := "700" ]} |}.

(** A body style that is the button's own (16px, 400, 24px line: ratio
    1.5) and a display style far from it (10px, 700, 30px line: ratio 3). *)
Definition bodyText : FigmaTypography :=
  {| typoFontFamily := "Inter"; typoFontSize := JS.ofZ 16;
     typoFontWeight := JS.ofZ 400;
     typoLineHeight := LineHeightNumber (JS.ofZ 24) |}.
Definition displayText : FigmaTypography :=
  {| typoFontFamily := "Inter"; typoFontSize := JS.ofZ 10;
     typoFontWeight := JS.ofZ 700;
     typoLineHeight := LineHeightNumber (JS.ofZ 30) |}.

Definition space4 : FigmaSpacing :=
  {| spacingName := "space-1"; value := JS.ofZ 4 |}.

Definition brokenToken : FigmaColor :=
  {| colorName := "brand"; hex := "not-a-color" |}.
Definition green : FigmaColor := {| colorName := "green"; hex := "#00FF00" |}.
Definition nearRed : FigmaColor := {| colorName := "red"; hex := "#FA0000" |}.

(** Three diff regions in the order the scan finds them: a stroke at the
    top, a vertical bar at the left edge and a horizontal bar below. The
    stroke is more than 20px to the right of the vertical bar and more
    than 20px above the horizontal one; the two bars are within 20px of
    each other. *)
Definition stroke : BoundingBox :=
  {| x := 30; y := 0; width := 10; height := 1 |}.
Definition verticalBar : BoundingBox :=
  {| x := 0; y := 5; width := 1; height := 16 |}.
Definition horizontalBar : BoundingBox :=
  {| x := 5; y := 25; width := 36; height := 1 |}.
(** The bounding box of the two bars, and of all three. *)
Definition bars : BoundingBox :=
  {| x := 0; y := 5; width := 41; height := 21 |}.
Definition everything : BoundingBox :=
  {| x := 0; y := 0; width := 41; height := 26 |}.

Definition inBox (b : BoundingBox) (px py : Z) : bool :=
  (x b <=? px) && (px <? x b + width b)
  && (y b <=? py) && (py <? y b + height b).

(** The diff image pixelmatch draws for these regions over a white page:
    red where the images differ, white elsewhere. *)
Definition paint (w h : Z) (regions : list BoundingBox) : PNG :=
  {| pngWidth := w; pngHeight := h;
     data :=
       flat_map (fun '(px, py) =>
                   if existsb (fun b => inBox b px py) regions
                   then [255; 0; 0; 255] else [255; 255; 255; 255])
         (VisualDiffEngine.pixelsOf w h) |}.

Definition diffOfThree : PNG := paint 41 26 [stroke; verticalBar; horizontalBar].

End Examples.

(** ** Further reference definitions *)

(** The id [addMismatch] gives the [n]-th mismatch of a run. *)
Definition mismatchIdOf (n : nat) : string := "mismatch-" ++ pretty n.

(** The mismatches of a state carry the ids 1, 2, ... in order, and the
    counter is their number. *)
Definition numbered (st : engine) : Prop :=
  mismatchIdCounter st = length (mismatches st)
  /\ map mismatchId (mismatches st)
     = map mismatchIdOf (seq 1 (length (mismatches st))).

(** The elements of a tree in document order: an element, then its
    children's subtrees from left to right. *)
Fixpoint elementsOf (el : DOMElement) : list DOMElement :=
  el :: (fix subtrees (cs : list DOMElement) : list DOMElement :=
           match cs with
           | [] => []
           | c :: rest => (elementsOf c ++ subtrees rest)%list
           end) (children el).

Definition allElements (tree : list DOMElement) : list DOMElement :=
  flat_map elementsOf tree.

(** The candidates of a numeric match, each with its absolute difference
    to the actual value. *)
Definition absDistances {A} (value : A -> Q) (actualValue : Q)
    (candidates : list A) : list (A * Q) :=
  map (fun c => (c, Qabs (actualValue - value c))) candidates.

(** A finite binary64 number: an integer of less than 54 bits times a
    power of two within the exponent range. *)
Definition binary64 (q : Q) : Prop :=
  exists m e : Z,
    Z.abs m < 2 ^ 53 /\ -1074 <= e <= 971 /\ (q == inject_Z m * 2 ^ e)%Q.

(** The actual value and the candidates' values are binary64 numbers, and
    so is each difference between them: the subtractions of the source,
    which round to binary64, are then exact, and the differences of
    [absDistances] are the numbers the program computes. *)
Definition exactDifferences {A} (value : A -> Q) (actualValue : Q)
    (candidates : list A) : Prop :=
  binary64 actualValue
  /\ Forall (fun c => binary64 (value c)
                      /\ binary64 (actualValue - value c)) candidates.

(** The tolerance a token-based mismatch of each property has exceeded:
    the deviation is not at most [tolerance]. *)
Definition beyondTolerance (m : StyleMismatch) : Prop :=
  (property m ∈ colorProps
   /\ JS.le (deviation m) THRESHOLDS.color.deltaE = false)
  \/ (property m = "fontSize"
      /\ JS.gt (deviation m) THRESHOLDS.fontSize.pixels = true)
  \/ property m = "fontWeight"
  \/ (property m = "lineHeight" /\ JS.gt (deviation m) (JS.ofZ 10) = true)
  \/ (property m ∈ spacingProps
      /\ JS.le (deviation m) THRESHOLDS.spacing.pixels = false)
  \/ (property m = "borderRadius"
      /\ JS.le (deviation m) THRESHOLDS.spacing.pixels = false
      /\ JS.gt (deviation m) THRESHOLDS.borderRadius.pixels = true).

(** What a mismatch has exceeded: its property's tolerance when it was
    raised against a token, the spacing tolerance when it was raised by
    component matching. *)
Definition exceeded (m : StyleMismatch) : Prop :=
  match figmaComponent m with
  | None => beyondTolerance m
  | Some _ => JS.gt (deviation m) THRESHOLDS.spacing.pixels = true
  end.

(** The turn of a nearest-candidate loop over [(closest, minDiff)], read
    over the candidates paired with their finite distances. *)
Definition closerBy {A C} (inj : A -> C) (acc : C * JS.number) (td : A * Q)
    : C * JS.number :=
  if JS.lt (JS.Fin (snd td)) (snd acc) then (inj (fst td), JS.Fin (snd td))
  else acc.

(** [a] lies inside [b]: no side of [a] sticks out of [b]. *)
Definition inside (a b : BoundingBox) : Prop :=
  x b <= x a /\ y b <= y a
  /\ x a + width a <= x b + width b /\ y a + height a <= y b + height b.

(** The box of a whole image. *)
Definition imageBox (img : PNG) : BoundingBox :=
  {| x := 0; y := 0; width := pngWidth img; height := pngHeight img |}.

(** An RGBA buffer of the size its dimensions call for. *)
Definition wellSized (img : PNG) : Prop :=
  0 <= pngWidth img /\ 0 <= pngHeight img
  /\ length (data img) = Z.to_nat (4 * pngWidth img * pngHeight img).

(** The bounds [floodFillRegion] keeps lie on pixels of the image. *)
Definition boxed (img : PNG) (s : VisualDiffEngine.fill) : Prop :=
  0 <= VisualDiffEngine.minX s <= VisualDiffEngine.maxX s
  /\ VisualDiffEngine.maxX s < pngWidth img
  /\ 0 <= VisualDiffEngine.minY s <= VisualDiffEngine.maxY s
  /\ VisualDiffEngine.maxY s < pngHeight img.

(** [k] is the key of a diff pixel of the image. *)
Definition diffPixelKey (img : PNG) (k : Z) : Prop :=
  exists px py,
    0 <= px < pngWidth img /\ 0 <= py < pngHeight img
    /\ k = py * pngWidth img + px
    /\ VisualDiffEngine.isDiffPixel (data img)
         (VisualDiffEngine.shl2 (pngWidth img * py + px)) = true.

(** The four bytes of the pixel [(px, py)] of an image, row after row. *)
Definition pixel (img : PNG) (px py : Z) : list (option Z) :=
  map (fun k =>
         VisualDiffEngine.byteAt (data img)
           (4 * (pngWidth img * py + px) + k))
    [0; 1; 2; 3].

Definition white : list (option Z) := [Some 255; Some 255; Some 255; Some 255].

(** ** The side-by-side image (src/electron/preload.ts) *)

(** [copyImageTo]: the target after the copy; a pixel that falls right of
    or below the target is skipped. *)
Definition copyImageTo (target source : PNG) (offsetX offsetY : Z) : PNG :=
  {| pngWidth := pngWidth target; pngHeight := pngHeight target;
     data :=
       foldl (fun bytes '(x, y) =>
                let srcIdx :=
                  VisualDiffEngine.shl2 (pngWidth source * y + x) in
                let dstX := x + offsetX in
                let dstY := y + offsetY in
                if (dstX <? pngWidth target) && (dstY <? pngHeight target)
                then
                  let dstIdx :=
                    VisualDiffEngine.shl2 (pngWidth target * dstY + dstX) in
                  let src k :=
                    default 0
                      (VisualDiffEngine.byteAt (data source) (srcIdx + k)) in
                  VisualDiffEngine.setByte
                    (VisualDiffEngine.setByte
                       (VisualDiffEngine.setByte
                          (VisualDiffEngine.setByte bytes dstIdx (src 0))
                          (dstIdx + 1) (src 1))
                       (dstIdx + 2) (src 2))
                    (dstIdx + 3) (src 3)
                else bytes)
         (data target)
         (VisualDiffEngine.pixelsOf (pngWidth source) (pngHeight source)) |}.

(** The background loop [for (i = 0; i < data.length; i += 4)] of
    [generateSideBySide]. *)
Definition fillLightGray (bytes : list Z) : list Z :=
  foldl (fun bytes n =>
           let i := 4 * n in
           VisualDiffEngine.setByte
             (VisualDiffEngine.setByte
                (VisualDiffEngine.setByte
                   (VisualDiffEngine.setByte bytes i 245) (i + 1) 245)
                (i + 2) 245)
             (i + 3) 255)
    bytes (seqZ 0 ((Z.of_nat (length bytes) + 3) / 4)).

(** [new PNG({ width, height })] after the background loop. *)
Definition lightGrayCanvas (w h : Z) : PNG :=
  {| pngWidth := w; pngHeight := h;
     data := fillLightGray (data (VisualDiffEngine.newPNG w h)) |}.

(** The image [generateSideBySide] builds from the three decoded images. *)
Definition sideBySide (img1 img2 diff : PNG) : PNG :=
  let maxHeight :=
    Z.max (Z.max (pngHeight img1) (pngHeight img2)) (pngHeight diff) in
  let totalWidth := pngWidth img1 + pngWidth img2 + pngWidth diff + 20 in
  let combined := lightGrayCanvas totalWidth maxHeight in
  let combined := copyImageTo combined img1 0 0 in
  let combined := copyImageTo combined img2 (pngWidth img1 + 10) 0 in
  copyImageTo combined diff (pngWidth img1 + pngWidth img2 + 20) 0.

Definition generateSideBySide (libs : ImageLibs)
    (image1Base64 image2Base64 diffBase64 : string) : option string :=
  img1 ← VisualDiffEngine.decodeBase64Image libs image1Base64;
  img2 ← VisualDiffEngine.decodeBase64Image libs image2Base64;
  diff ← VisualDiffEngine.decodeBase64Image libs diffBase64;
  VisualDiffEngine.encodeImageToBase64 libs (sideBySide img1 img2 diff).

Definition lightGray : list (option Z) :=
  [Some 245; Some 245; Some 245; Some 255].

(** ** The validator ([ValidatorService], in
    src/services/validator/index.ts) *)

Module ValidatorService.

Inductive SourceType : Type := UrlSource | ScreenshotSource.

(** [ValidationInput['webSource']] and [ValidationInput['figmaSource']]. *)
Record Source : Type := {
  sourceType : SourceType;
  sourceUrl : option string;
  screenshotBase64 : option string
}.

Record ValidationInput : Type := { webSource : Source; figmaSource : Source }.

Inductive Stage : Type :=
| idle | analyzing_web | analyzing_figma | comparing | visual_diff
| llm_analysis | complete | error.

(** A progress event, without its message. *)
Record ValidationProgress : Type := { stage : Stage; progress : Z }.

(** What [validate] can throw: its own three errors, or the rejection of
    an analyzer or of the visual diff engine. *)
Inductive Failure : Type :=
| InvalidWebSource          (* 'Invalid web source: provide URL or screenshot' *)
| FigmaTokenNotConfigured   (* 'Figma access token not configured' *)
| InvalidFigmaSource        (* 'Invalid Figma source: provide URL or screenshot' *)
| Rejected.

Inductive outcome (R : Type) : Type :=
| Returned (r : R)
| Threw (e : Failure).
Arguments Returned {R} r.
Arguments Threw {R} e.

(** The services an instance holds. The analyzers and the LLM service are
    parameters: [None] is a rejected promise. [figmaAnalyzer] is [None]
    without an access token, [llmService] without an LLM configuration.
    An analysis comes with its screenshot. [L] is the type of the LLM's
    answer. *)
Record Instance (L : Type) : Type := {
  webAnalyzeUrl : string -> option (WebAnalysisResult * string);
  figmaAnalyzer :
    option (string -> option (FigmaAnalysisResult * option string));
  llmService :
    option (WebAnalysisResult -> FigmaAnalysisResult -> ComparisonResult ->
            option L);
  chromaLib : Chroma;
  imageLibs : ImageLibs
}.
Arguments webAnalyzeUrl {L} _.
Arguments figmaAnalyzer {L} _.
Arguments llmService {L} _.
Arguments chromaLib {L} _.
Arguments imageLibs {L} _.

(** The report, without its id and its date. [llmAnalysis] is [None] for
    the placeholder 'LLM analysis not available.' *)
Record ValidationReport (L : Type) : Type := {
  reportWebSource : SourceType * string;
  reportFigmaSource : SourceType * string;
  webAnalysis : WebAnalysisResult * string;
  figmaAnalysis : FigmaAnalysisResult * option string;
  comparisonResult : ComparisonResult;
  visualDiff : VisualDiffResult;
  llmAnalysis : option L
}.
Arguments reportWebSource {L} _.
Arguments reportFigmaSource {L} _.
Arguments webAnalysis {L} _.
Arguments figmaAnalysis {L} _.
Arguments comparisonResult {L} _.
Arguments visualDiff {L} _.
Arguments llmAnalysis {L} _.

Definition isUrl (t : SourceType) : bool :=
  match t with UrlSource => true | ScreenshotSource => false end.

(** [WebAnalyzer.analyzeScreenshot] (src/services/web-analyzer/index.ts). *)
Definition analyzeScreenshot (screenshot : string)
    : WebAnalysisResult * string :=
  ({| domTree := [] |}, screenshot).

(** [visualDiff || { ... }] *)
Definition noVisualDiff : VisualDiffResult :=
  {| diffImage := ""; matchPercentage := JS.ofZ 0; mismatchedPixels := 0;
     totalPixels := 0; diffAreas := [] |}.

(** [compare] is called without options. *)
Definition noOptions : VisualDiffOptions :=
  {| threshold := None; includeAA := None; alpha := None;
     diffColor := None; diffColorAlt := None |}.

Section WithInstance.
Context {L : Type} (this : Instance L).

Definition analyzeWeb (source : Source)
    : outcome (WebAnalysisResult * string) :=
  if isUrl (sourceType source) && truthyStr (sourceUrl source) then
    match webAnalyzeUrl this (default "" (sourceUrl source)) with
    | Some analysis => Returned analysis
    | None => Threw Rejected
    end
  else if truthyStr (screenshotBase64 source) then
    Returned (analyzeScreenshot (default "" (screenshotBase64 source)))
  else Threw InvalidWebSource.

Definition analyzeFigma (source : Source)
    : outcome (FigmaAnalysisResult * option string) :=
  if isUrl (sourceType source) && truthyStr (sourceUrl source) then
    match figmaAnalyzer this with
    | None => Threw FigmaTokenNotConfigured
    | Some analyzeUrl =>
        match analyzeUrl (default "" (sourceUrl source)) with
        | Some analysis => Returned analysis
        | None => Threw Rejected
        end
    end
  else if truthyStr (screenshotBase64 source) then
    Returned
      ({| designTokens := {| colors := []; typography := []; spacing := [] |};
          components := [] |},
       screenshotBase64 source)
  else Threw InvalidFigmaSource.

(** The [catch] of [validate]: one more event, and the error is thrown
    again. *)
Definition failed {R} (sent : list ValidationProgress) (e : Failure)
    : list ValidationProgress * outcome R :=
  ((sent ++ [{| stage := error; progress := 0 |}])%list, Threw e).

(** [validate]: the progress events sent, in order, and the report or the
    error. The [finally] closes the browser and swallows what that throws:
    it has no part in either. *)
Definition validate (input : ValidationInput)
    : list ValidationProgress * outcome (ValidationReport L) :=
  let sent := [{| stage := analyzing_web; progress := 10 |}] in
  match analyzeWeb (webSource input) with
  | Threw e => failed sent e
  | Returned web =>
  let sent := (sent ++ [{| stage := analyzing_figma; progress := 30 |}])%list in
  match analyzeFigma (figmaSource input) with
  | Threw e => failed sent e
  | Returned figma =>
  let sent := (sent ++ [{| stage := comparing; progress := 50 |}])%list in
  let result := compare (chromaLib this) (fst web) (fst figma) in
  let sent := (sent ++ [{| stage := visual_diff; progress := 70 |}])%list in
  match
    (if JS.nonEmpty (snd web) && truthyStr (snd figma) then
       match
         VisualDiffEngine.compare (imageLibs this) (snd web)
           (default "" (snd figma)) noOptions
       with
       | Some diff => Returned (Some diff)
       | None => Threw Rejected
       end
     else Returned None)
  with
  | Threw e => failed sent e
  | Returned diff =>
  let sent := (sent ++ [{| stage := llm_analysis; progress := 85 |}])%list in
  let answer :=
    match llmService this with
    | Some analyze =>
        if (0 <? length (resultMismatches result))%nat
        then analyze (fst web) (fst figma) result
        else None
    | None => None
    end in
  let sent := (sent ++ [{| stage := complete; progress := 100 |}])%list in
  (sent,
   Returned
     {| reportWebSource :=
          (sourceType (webSource input),
           if truthyStr (sourceUrl (webSource input))
           then default "" (sourceUrl (webSource input))
           else "screenshot-upload");
        reportFigmaSource :=
          (sourceType (figmaSource input),
           if truthyStr (sourceUrl (figmaSource input))
           then default "" (sourceUrl (figmaSource input))
           else "screenshot-upload");
        webAnalysis := web;
        figmaAnalysis := figma;
        comparisonResult := result;
        visualDiff := default noVisualDiff diff;
        llmAnalysis := answer |})
  end end end.

End WithInstance.

(** The same instance with another LLM service, or none. *)
Definition withLLM {L} (this : Instance L)
    (llm : option (WebAnalysisResult -> FigmaAnalysisResult ->
                   ComparisonResult -> option L)) : Instance L :=
  {| webAnalyzeUrl := webAnalyzeUrl this;
     figmaAnalyzer := figmaAnalyzer this;
     llmService := llm;
     chromaLib := chromaLib this;
     imageLibs := imageLibs this |}.

(** The events of a run that ends well. *)
Definition stagesOfSuccess : list ValidationProgress :=
  [ {| stage := analyzing_web; progress := 10 |};
    {| stage := analyzing_figma; progress := 30 |};
    {| stage := comparing; progress := 50 |};
    {| stage := visual_diff; progress := 70 |};
    {| stage := llm_analysis; progress := 85 |};
    {| stage := complete; progress := 100 |} ].

End ValidatorService.

(** ** Further sample inputs *)

Module Samples.

(** A paragraph whose line height is the keyword [normal]. *)
Definition paragraph : DOMElement :=
  mkDOMElement "p" None None
    (Examples.styled "" "16px" "400" "normal" "0px" "0px") [].

Definition fontSizeOf (t : FigmaTypography) : Q :=
  match typoFontSize t with JS.Fin q => q | _ => 0%Q end.

Definition redPixel : PNG :=
  {| pngWidth := 1; pngHeight := 1; data := [255; 0; 0; 255] |}.

(** Two blue pixels, one above the other. *)
Definition blueColumn : PNG :=
  {| pngWidth := 1; pngHeight := 2;
     data := [0; 0; 255; 255; 0; 0; 255; 255] |}.

(** Two black pixels side by side. *)
Definition blackRow : PNG :=
  {| pngWidth := 2; pngHeight := 1; data := [0; 0; 0; 255; 0; 0; 0; 255] |}.

(** What the stand-in libraries answer for one red pixel against itself. *)
Definition redAgainstRed : VisualDiffResult :=
  default ValidatorService.noVisualDiff
    (VisualDiffEngine.compare Stub.imageLibs "red" "red"
       ValidatorService.noOptions).

(** A validator with no network and no LLM, and two uploads of the one
    screenshot the stand-in decoder knows. *)
Definition offline : ValidatorService.Instance unit :=
  {| ValidatorService.webAnalyzeUrl := fun _ => None;
     ValidatorService.figmaAnalyzer := None;
     ValidatorService.llmService := None;
     ValidatorService.chromaLib := Stub.chromaLib;
     ValidatorService.imageLibs := Stub.imageLibs |}.

Definition upload : ValidatorService.Source :=
  {| ValidatorService.sourceType := ValidatorService.ScreenshotSource;
     ValidatorService.sourceUrl := None;
     ValidatorService.screenshotBase64 := Some "red" |}.

Definition uploads : ValidatorService.ValidationInput :=
  {| ValidatorService.webSource := upload;
     ValidatorService.figmaSource := upload |}.

End Samples.

(** * Properties *)

Local Open Scope list_scope.

(** ** Built-ins *)

Example parseFloat_px : JS.seq (JS.parseFloat "12.5px") (JS.Fin (25 # 2)) = true.
Proof. reflexivity. Qed.
Example parseFloat_normal : JS.parseFloat "normal" = JS.NaN.
Proof. reflexivity. Qed.
Example parseFloat_zero : JS.orElse (JS.parseFloat "0px") (JS.ofZ 0) = JS.ofZ 0.
Proof. reflexivity. Qed.
Example parseInt_weight : JS.parseInt "700" = JS.ofZ 700.
Proof. reflexivity. Qed.

(** ** Scores *)

Lemma foldl_penalty (ms : list StyleMismatch) (a : Z) :
  foldl (fun deduction m => deduction + penalty (severity m)) a ms
  = a + sumPenalties ms.
Proof.
  unfold sumPenalties. revert a.
  induction ms as [|m ms IH]; intros a; simpl; [lia|].
  rewrite (IH (a + _)), (IH (0 + _)). lia.
Qed.

Lemma sumPenalties_count (ms : list StyleMismatch) (cat : MismatchCategory) :
  sumPenalties (filter (fun m => category m = cat) ms)
  = 15 * countIn ms cat Severity.critical + 10 * countIn ms cat Severity.major
    + 5 * countIn ms cat Severity.minor + 2 * countIn ms cat Severity.info.
Proof.
  unfold countIn.
  induction ms as [|m ms IH]; [reflexivity|].
  rewrite !filter_cons.
  destruct (decide (category m = cat)) as [Hc|Hc].
  - unfold sumPenalties in *. simpl. rewrite foldl_penalty.
    unfold sumPenalties. rewrite IH.
    destruct (severity m) eqn:Hs;
      repeat (case_decide; try (exfalso; intuition congruence));
      simpl length; simpl penalty; lia.
  - rewrite IH.
    repeat (case_decide; try (exfalso; intuition congruence)); reflexivity.
Qed.

Lemma categoryScore_penalised (ms : list StyleMismatch) (cat : MismatchCategory) :
  categoryScore ms cat = penalisedScore ms cat.
Proof.
  unfold categoryScore, penalisedScore.
  rewrite <- sumPenalties_count.
  destruct (filter (fun m => category m = cat) ms) as [|m l] eqn:Hf;
    reflexivity.
Qed.

Lemma countIn_none (ms : list StyleMismatch) (cat : MismatchCategory)
    (sev : MismatchSeverity) :
  Forall (fun m => category m <> cat) ms -> countIn ms cat sev = 0.
Proof.
  intros H. unfold countIn.
  induction H as [|m ms Hm _ IH]; [reflexivity|].
  rewrite filter_cons. case_decide; [exfalso; intuition|]. exact IH.
Qed.

Lemma scoreOf_calculate (st : engine) (cat : MismatchCategory) :
  scoreOf (calculateCategoryScores st) cat
  = Some (categoryScore (mismatches st) cat).
Proof. destruct cat; reflexivity. Qed.

Lemma weightedTotals_seven (score : MismatchCategory -> Z) :
  let totals := weightedTotals (map (fun c => (c, score c)) categories) in
  (fst totals == weightedAverage score)%Q /\ (snd totals == 1)%Q.
Proof.
  unfold weightedAverage, weightedTotals, categories.
  cbn [map foldl fst snd].
  change (weightOf Category.color) with (2 # 10)%Q.
  change (weightOf Category.typography) with (2 # 10)%Q.
  change (weightOf Category.spacing) with (15 # 100)%Q.
  change (weightOf Category.layout) with (15 # 100)%Q.
  change (weightOf Category.border) with (1 # 10)%Q.
  change (weightOf Category.alignment) with (1 # 10)%Q.
  change (weightOf Category.size) with (1 # 10)%Q.
  split; [ring | reflexivity].
Qed.

(** In binary64 too the seven weights add up to exactly 1. *)
Example totalWeight_binary64 : PrimFloat.eqb totalWeightBinary64 1%float = true.
Proof. reflexivity. Qed.

Lemma nearest_half_up (q : Q) : nearestInteger q (Qfloor (q + (1 # 2))).
Proof.
  unfold nearestInteger.
  pose proof (Qfloor_le (q + (1 # 2))) as Hle.
  pose proof (Qlt_floor (q + (1 # 2))) as Hlt.
  rewrite inject_Z_plus in Hlt. change (inject_Z 1) with 1%Q in Hlt.
  apply Qabs_Qle_condition. split; lra.
Qed.

(** C3. For every [compare] call and every category, the score of the
    category is [max 0 (100 - (15 critical + 10 major + 5 minor + 2 info))]
    over the mismatches of that category in the result; a category with no
    mismatch scores exactly 100. *)
Theorem category_score_is_penalised (lib : Chroma) (web : WebAnalysisResult)
    (figma : FigmaAnalysisResult) (cat : MismatchCategory) :
  let r := compare lib web figma in
  scoreOf (categoryScores r) cat
  = Some (penalisedScore (resultMismatches r) cat)
  /\ (Forall (fun m => category m <> cat) (resultMismatches r) ->
      scoreOf (categoryScores r) cat = Some 100).
Proof.
  cbv zeta. unfold compare. cbn [categoryScores resultMismatches].
  match goal with |- context [calculateCategoryScores ?s] => set (st := s) end.
  rewrite scoreOf_calculate, categoryScore_penalised.
  split; [reflexivity|].
  intros H. unfold penalisedScore. rewrite !countIn_none by exact H.
  reflexivity.
Qed.

(** C2. For every [compare] call the score map holds the seven categories,
    the weights the loop adds up sum to 1, and the overall score is an
    integer nearest to the weighted average of the seven category scores
    under the weights 0.20, 0.20, 0.15, 0.15, 0.10, 0.10, 0.10. *)
Theorem overall_score_is_weighted_average (lib : Chroma)
    (web : WebAnalysisResult) (figma : FigmaAnalysisResult) :
  let r := compare lib web figma in
  exists score : MismatchCategory -> Z,
    map fst (categoryScores r) = categories
    /\ (forall cat, scoreOf (categoryScores r) cat = Some (score cat))
    /\ (snd (weightedTotals (categoryScores r)) == 1)%Q
    /\ exists z, overallScore r = JS.ofZ z
                 /\ nearestInteger (weightedAverage score) z.
Proof.
  cbv zeta. unfold compare. cbn [categoryScores overallScore].
  match goal with |- context [calculateCategoryScores ?s] => set (st := s) end.
  exists (categoryScore (mismatches st)).
  destruct (weightedTotals_seven (categoryScore (mismatches st))) as [Hs Ht].
  split; [reflexivity|].
  split; [apply scoreOf_calculate|].
  split; [exact Ht|].
  exists (Qfloor (weightedAverage (categoryScore (mismatches st)) + (1 # 2))).
  split; [|apply nearest_half_up].
  unfold calculateOverallScore, calculateCategoryScores.
  destruct (weightedTotals _) as [ws tw]. simpl in Hs, Ht.
  unfold JS.div.
  destruct (Qeq_bool tw 0) eqn:Hz.
  { apply Qeq_bool_iff in Hz. rewrite Hz in Ht. discriminate Ht. }
  unfold JS.round. f_equal.
  apply Qfloor_comp. rewrite Hs, Ht. field.
Qed.

(** ** The traversal only appends *)

Section Walk.
Context (P : StyleMismatch -> Prop).

Lemma adds_refl (st : engine) : adds P st st.
Proof. exists []. split; [symmetry; apply app_nil_r | constructor]. Qed.

Lemma adds_trans (st1 st2 st3 : engine) :
  adds P st1 st2 -> adds P st2 st3 -> adds P st1 st3.
Proof.
  intros (n1 & E1 & F1) (n2 & E2 & F2). exists (n1 ++ n2). split.
  - rewrite E2, E1. symmetry. apply app_assoc.
  - apply Forall_app. split; assumption.
Qed.

Lemma adds_addMismatch cat prop e a el comp dev sev (st0 st : engine) :
  adds P st0 st ->
  (forall ident,
     P {| mismatchId := ident; category := cat; severity := sev;
          property := prop; expectedValue := e; actualValue := a;
          element := el; figmaComponent := comp; deviation := dev |}) ->
  adds P st0 (addMismatch cat prop e a el comp dev sev st).
Proof.
  intros H HP. eapply adds_trans; [exact H|].
  eexists. split; [reflexivity|]. constructor; [apply HP | constructor].
Qed.

Lemma DOMElement_forall_ind (Q : DOMElement -> Prop) :
  (forall tag ident cls sty kids,
      Forall Q kids -> Q (mkDOMElement tag ident cls sty kids)) ->
  forall el, Q el.
Proof.
  intros H. fix IH 1. intros [tag ident cls sty kids]. apply H.
  induction kids as [|k kids IHk]; constructor; [apply IH | exact IHk].
Qed.

Context (check : DOMElement -> string -> engine -> engine).
Hypothesis check_adds : forall el sel st, adds P st (check el sel st).

Lemma adds_processElement (el : DOMElement) :
  forall path st, adds P st (processElement check el path st).
Proof.
  induction el as [tag ident cls sty kids IH] using DOMElement_forall_ind.
  intros path st. cbn [processElement children].
  set (sel := buildSelector _ path). clearbody sel.
  eapply adds_trans;
    [apply (check_adds (mkDOMElement tag ident cls sty kids) sel st)|].
  generalize (check (mkDOMElement tag ident cls sty kids) sel st) as st1.
  generalize 0%nat as index.
  induction IH as [|k kids Hk _ IHk]; intros index st1; [apply adds_refl|].
  eapply adds_trans; [apply Hk | apply IHk].
Qed.

Lemma adds_forEachRoot (els : list DOMElement) :
  forall index st, adds P st (forEachRoot check els index st).
Proof.
  induction els as [|el els IH]; intros index st; [apply adds_refl|].
  cbn [forEachRoot]. eapply adds_trans; [apply adds_processElement | apply IH].
Qed.

End Walk.

Lemma adds_foldl {A} (P : StyleMismatch -> Prop)
    (f : engine -> A -> engine) (l : list A) :
  (forall st a, a ∈ l -> adds P st (f st a)) ->
  forall st, adds P st (foldl f st l).
Proof.
  induction l as [|a l IH]; intros H st; [apply adds_refl|].
  cbn [foldl]. eapply adds_trans.
  - apply H. left.
  - apply IH. intros st' a' Ha. apply H. right. exact Ha.
Qed.

(** Case analysis on every test of a check, then one step per pushed
    mismatch. *)
Ltac split_checks :=
  cbv zeta;
  repeat match goal with
    | |- context [match ?c with _ => _ end] =>
        lazymatch c with
        | context [match _ with _ => _ end] => fail
        | _ => destruct c eqn:?
        end
    end.

Ltac adds_steps :=
  repeat first
    [ apply adds_refl
    | apply adds_addMismatch; [| intros ?] ].

Lemma checkColors_adds (lib : Chroma) (cols : list FigmaColor) el sel st :
  adds colorWalkMismatch st (checkColors lib cols el sel st).
Proof.
  unfold checkColors. split_checks; adds_steps;
    unfold colorWalkMismatch; cbn; intuition.
Qed.

Lemma checkTypography_adds (typ : list FigmaTypography) el sel st :
  adds typographyWalkMismatch st (checkTypography typ el sel st).
Proof.
  unfold checkTypography. split_checks; adds_steps;
    unfold typographyWalkMismatch; cbn; intuition eauto 10.
Qed.

Lemma checkSpacingProp_adds (vals : list JS.number) el sel prop st :
  prop ∈ spacingProps ->
  adds spacingWalkMismatch st (checkSpacingProp vals el sel prop st).
Proof.
  intros Hp. unfold checkSpacingProp. split_checks; adds_steps;
    unfold spacingWalkMismatch; cbn; intuition.
Qed.

Lemma checkBorderRadius_adds (vals : list JS.number) el sel st :
  adds spacingWalkMismatch st (checkBorderRadius vals el sel st).
Proof.
  unfold checkBorderRadius. split_checks; adds_steps;
    unfold spacingWalkMismatch; cbn; intuition.
Qed.

Lemma checkSpacing_adds (vals : list JS.number) el sel st :
  adds spacingWalkMismatch st (checkSpacing vals el sel st).
Proof.
  assert (Hfold : forall props st',
             props ⊆ spacingProps ->
             adds spacingWalkMismatch st'
               (foldl (fun st prop => checkSpacingProp vals el sel prop st)
                  st' props)).
  { intros props st' Hsub. apply adds_foldl.
    intros st'' p Hp. apply checkSpacingProp_adds. apply Hsub, Hp. }
  unfold checkSpacing. cbv zeta.
  eapply adds_trans; [| apply checkBorderRadius_adds].
  eapply adds_trans;
    [| destruct (truthyStr _);
       [ apply checkSpacingProp_adds; repeat constructor
       | apply adds_refl ] ].
  eapply adds_trans; apply Hfold; intros p Hp; unfold spacingProps.
  - apply elem_of_app. left. exact Hp.
  - apply elem_of_app. right. apply elem_of_app. left. exact Hp.
Qed.

Lemma compareElementStyle_adds el sel comp st prop :
  prop ∈ styleProps ->
  adds componentMismatch st (compareElementStyle el sel comp st prop).
Proof.
  intros Hp. unfold compareElementStyle. split_checks; adds_steps.
  unfold componentMismatch. cbn. split; [eexists; reflexivity|].
  split; [reflexivity|]. split; [|exact Hp].
  unfold styleProps in Hp.
  repeat (apply elem_of_cons in Hp as [-> | Hp]);
    [ left | left | left | right; left | right; left | right; right | ];
    try reflexivity.
  apply elem_of_nil in Hp. destruct Hp.
Qed.

Lemma compareComponents_adds tree comps st :
  adds componentMismatch st (compareComponents tree comps st).
Proof.
  unfold compareComponents. apply adds_foldl. intros st' c _.
  destruct (findMatchingElement tree c); [|apply adds_refl].
  unfold compareElementStyles. apply adds_foldl.
  intros st'' p Hp. apply compareElementStyle_adds, Hp.
Qed.

Lemma compareColors_adds lib tree cols st :
  adds colorWalkMismatch st (compareColors lib tree cols st).
Proof.
  destruct cols; [apply adds_refl|].
  apply adds_forEachRoot. intros. apply checkColors_adds.
Qed.

Lemma compareTypography_adds tree typ st :
  adds typographyWalkMismatch st (compareTypography tree typ st).
Proof.
  destruct typ; [apply adds_refl|].
  apply adds_forEachRoot. intros. apply checkTypography_adds.
Qed.

Lemma compareSpacing_adds tree sp st :
  adds spacingWalkMismatch st (compareSpacing tree sp st).
Proof.
  destruct sp; [apply adds_refl|].
  apply adds_forEachRoot. intros. apply checkSpacing_adds.
Qed.

(** The mismatches of a [compare] call, by the step that pushed them. *)
Lemma compare_parts (lib : Chroma) (web : WebAnalysisResult)
    (figma : FigmaAnalysisResult) :
  exists cs ts ss ks,
    resultMismatches (compare lib web figma) = cs ++ ts ++ ss ++ ks
    /\ Forall colorWalkMismatch cs
    /\ Forall typographyWalkMismatch ts
    /\ Forall spacingWalkMismatch ss
    /\ Forall componentMismatch ks
    /\ (colors (designTokens figma) = [] -> cs = [])
    /\ (typography (designTokens figma) = [] -> ts = [])
    /\ (spacing (designTokens figma) = [] -> ss = [])
    /\ (components figma = [] -> ks = []).
Proof.
  unfold compare, compareTokens. cbn [resultMismatches].
  set (tree := domTree web). set (tok := designTokens figma).
  set (st1 := compareColors lib tree (colors tok) newRun).
  set (st2 := compareTypography tree (typography tok) st1).
  set (st3 := compareSpacing tree (spacing tok) st2).
  destruct (compareColors_adds lib tree (colors tok) newRun) as (cs & Ec & Fc).
  destruct (compareTypography_adds tree (typography tok) st1) as (ts & Et & Ft).
  destruct (compareSpacing_adds tree (spacing tok) st2) as (ss & Es & Fs).
  fold st1 in Ec. fold st2 in Et. fold st3 in Es.
  match goal with |- context [mismatches ?s] => set (st4 := s) end.
  assert (exists ks, mismatches st4 = mismatches st3 ++ ks
                     /\ Forall componentMismatch ks
                     /\ (components figma = [] -> ks = []))
    as (ks & Ek & Fk & Hk).
  { subst st4. destruct (components figma) as [|c comps] eqn:Hc.
    - exists []. cbn. rewrite app_nil_r. auto.
    - destruct (_ && _).
      + destruct (compareComponents_adds tree (c :: comps) st3) as (ks & E & F).
        exists ks. split; [exact E|]. split; [exact F|]. discriminate.
      + exists []. rewrite app_nil_r. split; [reflexivity|].
        split; [constructor|]. discriminate. }
  exists cs, ts, ss, ks.
  split.
  { rewrite Ek, Es, Et, Ec. cbn. rewrite <- !app_assoc. reflexivity. }
  repeat split; try assumption.
  - intros H. subst st1. rewrite H in Ec. cbn in Ec.
    destruct cs; [reflexivity | discriminate].
  - intros H. subst st2. rewrite H in Et. cbn in Et.
    apply (f_equal length) in Et. rewrite length_app in Et.
    destruct ts; [reflexivity | cbn in Et; lia].
  - intros H. subst st3. rewrite H in Es. cbn in Es.
    apply (f_equal length) in Es. rewrite length_app in Es.
    destruct ss; [reflexivity | cbn in Es; lia].
Qed.

(** ** Severity *)










Lemma score_without_mismatch (st : engine) (cat : MismatchCategory) :
  Forall (fun m => category m <> cat) (mismatches st) ->
  scoreOf (calculateCategoryScores st) cat = Some 100.
Proof.
  intros H. rewrite scoreOf_calculate, categoryScore_penalised.
  unfold penalisedScore. rewrite !countIn_none by exact H. reflexivity.
Qed.

Lemma compare_score_without_mismatch lib web figma (cat : MismatchCategory) :
  Forall (fun m => category m <> cat) (resultMismatches (compare lib web figma)) ->
  scoreOf (categoryScores (compare lib web figma)) cat = Some 100.
Proof. apply score_without_mismatch. Qed.

Ltac elem_cases H :=
  repeat (apply elem_of_cons in H as [H | H]);
  [ .. | apply elem_of_nil in H; destruct H ].

Lemma colorWalk_kind m :
  colorWalkMismatch m ->
  figmaComponent m = None
  /\ category m <> Category.typography /\ category m <> Category.spacing
  /\ property m <> "borderRadius".
Proof.
  intros (Hn & [[Hc [Hp | Hp]] | [Hc Hp]] & _); rewrite Hc, Hp;
    repeat split; try exact Hn; discriminate.
Qed.

Lemma typographyWalk_kind m :
  typographyWalkMismatch m ->
  figmaComponent m = None
  /\ category m <> Category.color /\ category m <> Category.spacing
  /\ property m <> "borderColor" /\ property m <> "borderRadius".
Proof.
  intros (Hn & Hc & [[Hp _] | [[Hp _] | [Hp _]]]); rewrite Hc, Hp;
    repeat split; try exact Hn; discriminate.
Qed.

Lemma spacingWalk_kind m :
  spacingWalkMismatch m ->
  figmaComponent m = None
  /\ category m <> Category.color /\ category m <> Category.typography
  /\ property m <> "borderColor".
Proof.
  intros (Hn & [(Hc & Hp & _) | (Hc & Hp & _)]); rewrite Hc.
  - unfold spacingProps, paddingProps, marginProps in Hp. cbn in Hp.
    elem_cases Hp; rewrite Hp; repeat split; try exact Hn; discriminate.
  - rewrite Hp. repeat split; try exact Hn; discriminate.
Qed.

Lemma component_kind m :
  componentMismatch m ->
  is_Some (figmaComponent m)
  /\ category m <> Category.color /\ property m <> "borderColor".
Proof.
  intros (Hs & _ & Hc & Hp). split; [exact Hs|]. split.
  - destruct Hc as [-> | [-> | ->]]; discriminate.
  - unfold styleProps in Hp. elem_cases Hp; rewrite Hp; discriminate.
Qed.

(** C7 (as amended). For every style tree: with no color token, [compare]
    raises no mismatch of the color category and none for borderColor, and
    the color score is 100, whatever else is supplied. With no typography
    token (no spacing token), every typography mismatch (every spacing or
    borderRadius mismatch) of the result comes from component matching;
    when no component is supplied either there is none, and the category
    score is 100. [compare] is a total function: it has no failing path. *)
Theorem empty_tokens_raise_nothing (lib : Chroma) (tree : list DOMElement)
    (cols : list FigmaColor) (typ : list FigmaTypography)
    (sp : list FigmaSpacing) (comps : list FigmaComponent) :
  let web := {| domTree := tree |} in
  (let r := compare lib web (figmaInput [] typ sp comps) in
   Forall (fun m => category m <> Category.color
                    /\ property m <> "borderColor") (resultMismatches r)
   /\ scoreOf (categoryScores r) Category.color = Some 100)
  /\ (let r := compare lib web (figmaInput cols [] sp comps) in
      Forall (fun m => category m = Category.typography ->
                       is_Some (figmaComponent m)) (resultMismatches r))
  /\ (let r := compare lib web (figmaInput cols [] sp []) in
      Forall (fun m => category m <> Category.typography) (resultMismatches r)
      /\ scoreOf (categoryScores r) Category.typography = Some 100)
  /\ (let r := compare lib web (figmaInput cols typ [] comps) in
      Forall (fun m => category m = Category.spacing
                       \/ property m = "borderRadius" ->
                       is_Some (figmaComponent m)) (resultMismatches r))
  /\ (let r := compare lib web (figmaInput cols typ [] []) in
      Forall (fun m => category m <> Category.spacing
                       /\ property m <> "borderRadius") (resultMismatches r)
      /\ scoreOf (categoryScores r) Category.spacing = Some 100).
Proof.
  cbv zeta.
  assert (Hparts : forall c t s k,
            exists cs ts ss ks,
              resultMismatches
                (compare lib {| domTree := tree |} (figmaInput c t s k))
              = cs ++ ts ++ ss ++ ks
              /\ Forall colorWalkMismatch cs
              /\ Forall typographyWalkMismatch ts
              /\ Forall spacingWalkMismatch ss
              /\ Forall componentMismatch ks
              /\ (c = [] -> cs = []) /\ (t = [] -> ts = [])
              /\ (s = [] -> ss = []) /\ (k = [] -> ks = [])).
  { intros c t s k. apply compare_parts. }
  split; [|split; [|split; [|split]]].
  - destruct (Hparts [] typ sp comps)
      as (cs & ts & ss & ks & E & _ & Ft & Fs & Fk & Hc & _).
    rewrite (Hc eq_refl) in E. cbn [app] in E.
    assert (F : Forall (fun m => category m <> Category.color
                                 /\ property m <> "borderColor")
                  (resultMismatches
                     (compare lib {| domTree := tree |}
                        (figmaInput [] typ sp comps)))).
    { rewrite E, !Forall_app. repeat split.
      - eapply Forall_impl; [exact Ft|]. intros m H.
        apply typographyWalk_kind in H. tauto.
      - eapply Forall_impl; [exact Fs|]. intros m H.
        apply spacingWalk_kind in H. tauto.
      - eapply Forall_impl; [exact Fk|]. intros m H.
        apply component_kind in H. tauto. }
    split; [exact F|].
    apply compare_score_without_mismatch.
    eapply Forall_impl; [exact F|]. intros m [H _]. exact H.
  - destruct (Hparts cols [] sp comps)
      as (cs & ts & ss & ks & E & Fc & _ & Fs & Fk & _ & Ht & _).
    rewrite (Ht eq_refl) in E. cbn [app] in E.
    rewrite E, !Forall_app. repeat split.
    + eapply Forall_impl; [exact Fc|]. intros m H Hm.
      apply colorWalk_kind in H. tauto.
    + eapply Forall_impl; [exact Fs|]. intros m H Hm.
      apply spacingWalk_kind in H. tauto.
    + eapply Forall_impl; [exact Fk|]. intros m H Hm.
      apply component_kind in H. tauto.
  - destruct (Hparts cols [] sp [])
      as (cs & ts & ss & ks & E & Fc & _ & Fs & _ & _ & Ht & _ & Hk).
    rewrite (Ht eq_refl), (Hk eq_refl) in E. cbn [app] in E.
    rewrite app_nil_r in E.
    assert (F : Forall (fun m => category m <> Category.typography)
                  (resultMismatches
                     (compare lib {| domTree := tree |}
                        (figmaInput cols [] sp [])))).
    { rewrite E, !Forall_app. split.
      - eapply Forall_impl; [exact Fc|]. intros m H.
        apply colorWalk_kind in H. tauto.
      - eapply Forall_impl; [exact Fs|]. intros m H.
        apply spacingWalk_kind in H. tauto. }
    split; [exact F|]. apply compare_score_without_mismatch, F.
  - destruct (Hparts cols typ [] comps)
      as (cs & ts & ss & ks & E & Fc & Ft & _ & Fk & _ & _ & Hs & _).
    rewrite (Hs eq_refl) in E. cbn [app] in E.
    rewrite E, !Forall_app. repeat split.
    + eapply Forall_impl; [exact Fc|]. intros m H Hm.
      apply colorWalk_kind in H. tauto.
    + eapply Forall_impl; [exact Ft|]. intros m H Hm.
      apply typographyWalk_kind in H. tauto.
    + eapply Forall_impl; [exact Fk|]. intros m H Hm.
      apply component_kind in H. tauto.
  - destruct (Hparts cols typ [] [])
      as (cs & ts & ss & ks & E & Fc & Ft & _ & _ & _ & _ & Hs & Hk).
    rewrite (Hs eq_refl), (Hk eq_refl) in E. cbn [app] in E.
    rewrite app_nil_r in E.
    assert (F : Forall (fun m => category m <> Category.spacing
                                 /\ property m <> "borderRadius")
                  (resultMismatches
                     (compare lib {| domTree := tree |}
                        (figmaInput cols typ [] [])))).
    { rewrite E, !Forall_app. split.
      - eapply Forall_impl; [exact Fc|]. intros m H.
        apply colorWalk_kind in H. tauto.
      - eapply Forall_impl; [exact Ft|]. intros m H.
        apply typographyWalk_kind in H. tauto. }
    split; [exact F|]. apply compare_score_without_mismatch.
    eapply Forall_impl; [exact F|]. intros m [H _]. exact H.
Qed.

(** ** Nearest colour token *)

Lemma Qltb_lt (x y : Q) : JS.Qltb x y = true <-> (x < y)%Q.
Proof.
  unfold JS.Qltb. rewrite negb_true_iff. split.
  - intros H. apply Qnot_le_lt. intros Hle. apply Qle_bool_iff in Hle.
    congruence.
  - intros H. destruct (Qle_bool y x) eqn:E; [|reflexivity].
    apply Qle_bool_iff in E. lra.
Qed.

Lemma Qltb_ge (x y : Q) : JS.Qltb x y = false <-> (y <= x)%Q.
Proof.
  unfold JS.Qltb. rewrite negb_false_iff. apply Qle_bool_iff.
Qed.

Section NearestColor.
Context (lib : Chroma) (actualChroma : chromaColor lib).

Lemma foldl_closerColor (tokens : list FigmaColor) :
  forall acc,
    foldl (closerColor lib actualChroma) acc tokens
    = foldl closerParsed acc (tokenDistances lib actualChroma tokens).
Proof.
  induction tokens as [|t tokens IH]; intros acc; [reflexivity|].
  cbn [foldl tokenDistances omap list_omap]. unfold closerColor at 2.
  destruct (chroma lib (hex t)) as [c|]; cbn; apply IH.
Qed.

Lemma foldl_closerParsed (ds : list (FigmaColor * Q)) :
  forall t0 d0,
    exists t d,
      foldl closerParsed (Some t0, JS.Fin d0) ds = (Some t, JS.Fin d)
      /\ (d <= d0)%Q
      /\ (forall j t' d', ds !! j = Some (t', d') -> (d <= d')%Q)
      /\ ((t = t0 /\ d = d0)
          \/ exists i, ds !! i = Some (t, d) /\ (d < d0)%Q
                       /\ forall j t' d', (j < i)%nat ->
                            ds !! j = Some (t', d') -> (d < d')%Q).
Proof.
  induction ds as [|[a x] ds IH]; intros t0 d0.
  - exists t0, d0. repeat split; [lra | intros j t' d' H; discriminate H | auto].
  - cbn [foldl]. unfold closerParsed at 2. cbn [fst snd JS.lt].
    destruct (JS.Qltb x d0) eqn:Hlt.
    + apply Qltb_lt in Hlt.
      destruct (IH a x) as (t & d & E & Hle & Hmin & Hfirst).
      exists t, d. split; [exact E|]. split; [lra|]. split.
      * intros [|j] t' d' H; cbn in H.
        -- injection H as <- <-. exact Hle.
        -- eapply Hmin, H.
      * right. destruct Hfirst as [[-> ->] | (i & Hi & Hd & Hf)].
        -- exists 0%nat. split; [reflexivity|]. split; [exact Hlt|].
           intros j t' d' Hj. lia.
        -- exists (S i). split; [exact Hi|]. split; [lra|].
           intros [|j] t' d' Hj H; cbn in H.
           ++ injection H as <- <-. exact Hd.
           ++ eapply Hf; [|exact H]. lia.
    + apply Qltb_ge in Hlt.
      destruct (IH t0 d0) as (t & d & E & Hle & Hmin & Hfirst).
      exists t, d. split; [exact E|]. split; [exact Hle|]. split.
      * intros [|j] t' d' H; cbn in H.
        -- injection H as <- <-. lra.
        -- eapply Hmin, H.
      * destruct Hfirst as [H | (i & Hi & Hd & Hf)]; [left; exact H|].
        right. exists (S i). split; [exact Hi|]. split; [exact Hd|].
        intros [|j] t' d' Hj H; cbn in H.
        -- injection H as <- <-. lra.
        -- eapply Hf; [|exact H]. lia.
Qed.

Lemma foldl_first_minimum (ds : list (FigmaColor * Q)) (c0 : option FigmaColor) :
  ds <> [] ->
  exists i t d,
    firstMinimumAt ds i t d
    /\ foldl closerParsed (c0, JS.PosInf) ds = (Some t, JS.Fin d).
Proof.
  destruct ds as [|[a x] ds]; [congruence|]. intros _.
  cbn [foldl]. unfold closerParsed at 2. cbn [fst snd JS.lt].
  destruct (foldl_closerParsed ds a x) as (t & d & E & Hle & Hmin & Hfirst).
  destruct Hfirst as [[-> ->] | (i & Hi & Hd & Hf)].
  - exists 0%nat, a, x. split; [|exact E]. repeat split.
    + intros [|j] t' d' H; cbn in H.
      * injection H as <- <-. lra.
      * eapply Hmin, H.
    + intros j t' d' Hj. lia.
  - exists (S i), t, d. split; [|exact E]. repeat split.
    + exact Hi.
    + intros [|j] t' d' H; cbn in H.
      * injection H as <- <-. lra.
      * eapply Hmin, H.
    + intros [|j] t' d' Hj H; cbn in H.
      * injection H as <- <-. exact Hd.
      * eapply Hf; [|exact H]. lia.
Qed.

Lemma tokenDistances_nonempty (tokens : list FigmaColor) :
  Exists (fun t => is_Some (chroma lib (hex t))) tokens ->
  tokenDistances lib actualChroma tokens <> [].
Proof.
  induction 1 as [t tokens [c Hc] | t tokens _ IH];
    cbn [tokenDistances omap list_omap].
  - rewrite Hc. cbn. discriminate.
  - destruct (chroma lib (hex t)); cbn; [discriminate | exact IH].
Qed.

End NearestColor.

(** The nearest colour token. For every actual colour that parses and
    every token collection in which at least one token's hex parses,
    [findColorMismatch] raises a mismatch exactly when the minimum Delta-E
    over the tokens that parse exceeds 5; the mismatch then names the hex
    of the first token, in order, that achieves the minimum, and its
    deviation is that minimum. *)
Theorem nearest_color_token (lib : Chroma) (actualColor : string)
    (actualChroma : chromaColor lib) (tokens : list FigmaColor) :
  chroma lib actualColor = Some actualChroma ->
  Exists (fun t => is_Some (chroma lib (hex t))) tokens ->
  exists i t d,
    firstMinimumAt (tokenDistances lib actualChroma tokens) i t d
    /\ (((d <= 5)%Q /\ findColorMismatch lib actualColor tokens = None)
        \/ ((5 < d)%Q
            /\ findColorMismatch lib actualColor tokens
               = Some {| expected := hex t;
                         actual := JS.toUpperCase (toHex lib actualChroma);
                         colorDeviation := JS.Fin d |})).
Proof.
  intros Hc Hex.
  destruct (foldl_first_minimum (tokenDistances lib actualChroma tokens)
              (head tokens) (tokenDistances_nonempty lib actualChroma _ Hex))
    as (i & t & d & Hmin & E).
  exists i, t, d. split; [exact Hmin|].
  unfold findColorMismatch. rewrite Hc, foldl_closerColor, E.
  unfold JS.le, THRESHOLDS.color.deltaE, JS.ofZ.
  change (inject_Z 5) with 5%Q.
  destruct (Qle_bool d 5) eqn:H5.
  - left. apply Qle_bool_iff in H5. auto.
  - right. split; [|reflexivity].
    apply Qnot_le_lt. intros H. apply Qle_bool_iff in H. congruence.
Qed.

(** ** Zero-valued box-model properties *)

Lemma pixelValue_zero (s : string) :
  parsesToZeroOrNaN s -> JS.gt (pixelValue (Some s)) (JS.ofZ 0) = false.
Proof.
  unfold pixelValue, JS.orElse. intros [H | H].
  - rewrite H. reflexivity.
  - destruct (JS.parseFloat s) as [| |q|]; try discriminate H.
    cbn in H. cbn [JS.truthy]. change (inject_Z 0) with 0%Q in H.
    rewrite H. reflexivity.
Qed.

Lemma checkSpacingProp_positive vals el sel prop st :
  adds (aboutPositiveValue el) st (checkSpacingProp vals el sel prop st).
Proof.
  unfold checkSpacingProp. cbv zeta.
  destruct (JS.gt _ _) eqn:Hgt; [|apply adds_refl].
  destruct (findSpacingMismatch _ vals); adds_steps. exact Hgt.
Qed.

Lemma checkBorderRadius_positive vals el sel st :
  adds (aboutPositiveValue el) st (checkBorderRadius vals el sel st).
Proof.
  unfold checkBorderRadius. cbv zeta.
  destruct (JS.nonEmpty _); [|apply adds_refl].
  destruct (JS.gt _ _) eqn:Hgt; [|apply adds_refl].
  destruct (findSpacingMismatch _ vals); [|apply adds_refl].
  destruct (JS.gt _ THRESHOLDS.borderRadius.pixels); adds_steps. exact Hgt.
Qed.

Lemma checkSpacing_positive vals el sel st :
  adds (aboutPositiveValue el) st (checkSpacing vals el sel st).
Proof.
  assert (Hfold : forall props st',
             adds (aboutPositiveValue el) st'
               (foldl (fun st prop => checkSpacingProp vals el sel prop st)
                  st' props)).
  { intros props st'. apply adds_foldl. intros.
    apply checkSpacingProp_positive. }
  unfold checkSpacing. cbv zeta.
  eapply adds_trans; [| apply checkBorderRadius_positive].
  eapply adds_trans;
    [| destruct (truthyStr _);
       [apply checkSpacingProp_positive | apply adds_refl] ].
  eapply adds_trans; apply Hfold.
Qed.

(** C10. For every element and every collection of spacing values, a
    property of the element (a padding side, a margin side, gap, border
    radius) whose computed value parses to 0 or does not parse, or which is
    absent, produces no mismatch in the element's spacing checks, whatever
    the tokens are. *)
Theorem zero_valued_property_is_skipped (vals : list JS.number)
    (el : DOMElement) (sel : string) (st : engine) (prop : string) :
  match styleProp (computedStyles el) prop with
  | Some s => parsesToZeroOrNaN s
  | None => True
  end ->
  exists new,
    mismatches (checkSpacing vals el sel st) = mismatches st ++ new
    /\ Forall (fun m => property m <> prop) new.
Proof.
  intros Hzero.
  destruct (checkSpacing_positive vals el sel st) as (new & E & F).
  exists new. split; [exact E|].
  eapply Forall_impl; [exact F|]. intros m Hm Heq.
  unfold aboutPositiveValue in Hm. rewrite Heq in Hm.
  destruct (styleProp (computedStyles el) prop) as [s|].
  - rewrite (pixelValue_zero s Hzero) in Hm. discriminate Hm.
  - discriminate Hm.
Qed.

(** ** The Visual Diff Engine *)

Lemma normalizeImageSizes_same (img : PNG) :
  VisualDiffEngine.normalizeImageSizes img img
  = (pngWidth img, pngHeight img, img, img).
Proof.
  unfold VisualDiffEngine.normalizeImageSizes.
  rewrite !Z.eqb_refl, !Z.max_id. reflexivity.
Qed.

Lemma full_match_percentage (t : Z) :
  0 < t ->
  JS.seq
    (JS.div
       (JS.round
          (JS.mul (JS.mul (JS.div (JS.ofZ (t - 0)) (JS.ofZ t)) (JS.ofZ 100))
             (JS.ofZ 100)))
       (JS.ofZ 100))
    (JS.ofZ 100) = true.
Proof.
  intros Ht. unfold JS.ofZ at 1 2. unfold JS.div at 2.
  assert (Hq : (0 < inject_Z t)%Q).
  { unfold Qlt. cbn. lia. }
  destruct (Qeq_bool (inject_Z t) 0) eqn:Hz.
  { apply Qeq_bool_iff in Hz. lra. }
  cbn [JS.mul JS.ofZ JS.round].
  assert (E : Qfloor (inject_Z (t - 0) / inject_Z t * inject_Z 100
                      * inject_Z 100 + (1 # 2)) = 10000).
  { transitivity (Qfloor (20001 # 2)); [|reflexivity].
    apply Qfloor_comp. rewrite Z.sub_0_r.
    change (inject_Z 100) with 100%Q. field. lra. }
  rewrite E. reflexivity.
Qed.

(** C9. For every image that decodes (to at least one pixel), compared
    against itself, [compare] returns a result with [mismatchedPixels = 0],
    [matchPercentage === 100] and no diff area, given that pixelmatch
    counts no mismatch between a buffer and itself and that the diff image
    encodes. *)
Theorem identical_images_match (libs : ImageLibs) (image : string)
    (img : PNG) (options : VisualDiffOptions) :
  VisualDiffEngine.decodeBase64Image libs image = Some img ->
  0 < pngWidth img -> 0 < pngHeight img ->
  (forall bytes output w h o,
      fst (pixelmatch libs bytes bytes output w h o) = 0) ->
  (forall png, is_Some (pngPack libs png)) ->
  exists r,
    VisualDiffEngine.compare libs image image options = Some r
    /\ mismatchedPixels r = 0
    /\ JS.seq (matchPercentage r) (JS.ofZ 100) = true
    /\ totalPixels r = pngWidth img * pngHeight img
    /\ diffAreas r = [].
Proof.
  intros Hdec Hw Hh Hpm Hpack.
  unfold VisualDiffEngine.compare. rewrite Hdec. cbn [mbind option_bind].
  rewrite normalizeImageSizes_same.
  pose proof (Hpm (data img) (data (VisualDiffEngine.newPNG (pngWidth img) (pngHeight img)))
                (pngWidth img) (pngHeight img) (VisualDiffEngine.mergeOptions options)) as H0.
  destruct (pixelmatch libs _ _ _ _ _ _) as [mismatched diffData].
  cbn [fst] in H0. subst mismatched.
  unfold VisualDiffEngine.encodeImageToBase64.
  destruct (Hpack {| pngWidth := pngWidth img; pngHeight := pngHeight img;
                     data := diffData |}) as [b64 ->].
  cbn [mbind option_bind VisualDiffEngine.findDiffAreas Z.eqb].
  eexists. split; [reflexivity|]. cbn.
  repeat split. apply full_match_percentage. nia.
Qed.

(** *** The region merge always returns *)

Lemma filter_length_le {A} (P P' : A -> Prop) `{!forall x, Decision (P x)}
    `{!forall x, Decision (P' x)} (l : list A) :
  (forall x, P' x -> P x) ->
  (length (filter P' l) <= length (filter P l))%nat.
Proof.
  intros Himp. induction l as [|a l IH]; [reflexivity|].
  rewrite !filter_cons.
  destruct (decide (P' a)) as [Ha|Ha], (decide (P a)) as [Hb|Hb]; cbn; try lia.
  exfalso. apply Hb, Himp, Ha.
Qed.

Lemma filter_length_lt {A} (P P' : A -> Prop) `{!forall x, Decision (P x)}
    `{!forall x, Decision (P' x)} (l : list A) (a : A) :
  (forall x, P' x -> P x) -> a ∈ l -> P a -> ~ P' a ->
  (length (filter P' l) < length (filter P l))%nat.
Proof.
  intros Himp Hin Ha Hna. induction l as [|b l IH]; [inversion Hin|].
  rewrite !filter_cons.
  pose proof (filter_length_le P P' l Himp) as Hle.
  apply elem_of_cons in Hin as [<- | Hin].
  - destruct (decide (P' a)), (decide (P a)); cbn; try tauto. lia.
  - specialize (IH Hin).
    destruct (decide (P' b)) as [Hb'|Hb'], (decide (P b)) as [Hb|Hb];
      cbn; try lia.
    exfalso. apply Hb, Himp, Hb'.
Qed.

Lemma unusedCount_lt (n : nat) (used used' : gset nat) (j : nat) :
  used ⊆ used' -> (j < n)%nat -> j ∉ used -> j ∈ used' ->
  (unusedCount n used' < unusedCount n used)%nat.
Proof.
  intros Hsub Hj Hn Hin. unfold unusedCount.
  apply (filter_length_lt _ _ _ j).
  - intros x Hx Hu. apply Hx, Hsub, Hu.
  - apply elem_of_seq. lia.
  - exact Hn.
  - intros H. apply H, Hin.
Qed.

Lemma unusedCount_le (n : nat) (used : gset nat) : (unusedCount n used <= n)%nat.
Proof.
  unfold unusedCount.
  etransitivity; [apply length_filter|]. rewrite length_seq. reflexivity.
Qed.

Section MergePass.
Context (regions : list BoundingBox) (threshold : Z).

Lemma foldl_passStep (l : list nat) :
  forall c u ch c' u' ch',
    foldl (VisualDiffEngine.mergeStep regions threshold) (c, u, ch) l = (c', u', ch') ->
    u ⊆ u'
    /\ (ch' = true -> ch = true \/ (exists j, j ∈ l /\ (j ∉ u) /\ j ∈ u')).
Proof.
  induction l as [|a l IH]; intros c u ch c' u' ch' E.
  - cbn in E. injection E as <- <- <-. split; [reflexivity | auto].
  - cbn [foldl] in E. unfold VisualDiffEngine.mergeStep at 2 in E.
    destruct (bool_decide (a ∈ u)) eqn:Hin.
    { destruct (IH _ _ _ _ _ _ E) as [Hs Hc]. split; [exact Hs|].
      intros H. destruct (Hc H) as [? | (j & Hj & ?)]; [auto|].
      right. exists j. split; [right; exact Hj | assumption]. }
    apply bool_decide_eq_false in Hin.
    destruct (regions !! a) as [rj|].
    2:{ destruct (IH _ _ _ _ _ _ E) as [Hs Hc]. split; [exact Hs|].
        intros H. destruct (Hc H) as [? | (j & Hj & ?)]; [auto|].
        right. exists j. split; [right; exact Hj | assumption]. }
    destruct (VisualDiffEngine.regionsOverlapOrNear c rj threshold).
    2:{ destruct (IH _ _ _ _ _ _ E) as [Hs Hc]. split; [exact Hs|].
        intros H. destruct (Hc H) as [? | (j & Hj & ?)]; [auto|].
        right. exists j. split; [right; exact Hj | assumption]. }
    destruct (IH _ _ _ _ _ _ E) as [Hs _]. split.
    { intros z Hz. apply Hs, elem_of_union. right. exact Hz. }
    intros _. right. exists a. split; [left|]. split; [exact Hin|].
    apply Hs, elem_of_union. left. apply elem_of_singleton. reflexivity.
Qed.

Lemma growRegion_total (fuel : nat) :
  forall current used,
    (unusedCount (length regions) used < fuel)%nat ->
    is_Some (VisualDiffEngine.growRegion fuel regions threshold current used).
Proof.
  induction fuel as [|fuel IH]; intros current used Hlt; [lia|].
  cbn [VisualDiffEngine.growRegion].
  destruct (VisualDiffEngine.mergePass regions threshold current used)
    as [[c' u'] ch] eqn:E.
  unfold VisualDiffEngine.mergePass in E.
  destruct (foldl_passStep _ _ _ _ _ _ _ E) as [Hs Hc].
  destruct ch; [|eexists; reflexivity].
  apply IH.
  destruct (Hc eq_refl) as [H | (j & Hj & Hn & Hin)]; [discriminate H|].
  apply elem_of_seq in Hj.
  pose proof (unusedCount_lt (length regions) used u' j Hs) as Hdec.
  specialize (Hdec ltac:(lia) Hn Hin). lia.
Qed.

End MergePass.

Lemma mergeNearbyRegions_total (regions : list BoundingBox) (threshold : Z) :
  is_Some (VisualDiffEngine.mergeNearbyRegions regions threshold).
Proof.
  unfold VisualDiffEngine.mergeNearbyRegions.
  destruct (length regions <=? 1)%nat; [eexists; reflexivity|].
  apply fmap_is_Some.
  generalize (seq 0 (length regions)) as l.
  generalize (@nil BoundingBox, (∅ : gset nat)) as acc.
  intros acc l. revert acc.
  induction l as [|i l IH]; intros [merged used]; [eexists; reflexivity|].
  cbn [foldl mbind option_bind].
  destruct (bool_decide (i ∈ used)); [apply IH|].
  destruct (regions !! i) as [ri|]; [|apply IH].
  destruct (growRegion_total regions threshold (S (length regions)) ri
              ({[i]} ∪ used)) as [[c u] ->].
  { pose proof (unusedCount_le (length regions) ({[i]} ∪ used)). lia. }
  apply IH.
Qed.

(** *** The flood fill never runs out of fuel *)

Lemma unmarkedCount_lt (img : PNG) (seen : gset Z) (k : Z) :
  0 <= k < pngWidth img * pngHeight img -> k ∉ seen ->
  (unmarkedCount img ({[k]} ∪ seen) < unmarkedCount img seen)%nat.
Proof.
  intros Hk Hn. unfold unmarkedCount.
  apply (filter_length_lt _ _ _ k).
  - intros z Hz Hs. apply Hz, elem_of_union. right. exact Hs.
  - apply elem_of_seqZ. lia.
  - exact Hn.
  - intros Hz. apply Hz, elem_of_union. left.
    apply elem_of_singleton. reflexivity.
Qed.

Lemma unmarkedCount_le (img : PNG) (seen : gset Z) :
  (unmarkedCount img seen <= Z.to_nat (pngWidth img * pngHeight img))%nat.
Proof.
  unfold unmarkedCount.
  etransitivity; [apply length_filter|]. rewrite length_seqZ. reflexivity.
Qed.

(** Once the fuel covers [turnsLeft], more fuel changes nothing: the loop
    ends on its own, by an empty stack or by its [break]. *)
Lemma floodLoop_fuel_enough (img : PNG) (fuel : nat) :
  forall s fuel',
    (turnsLeft img s <= fuel)%nat -> (fuel <= fuel')%nat ->
    VisualDiffEngine.floodLoop fuel' img s
    = VisualDiffEngine.floodLoop fuel img s.
Proof.
  induction fuel as [|fuel IH]; intros s fuel' Hm Hf.
  - unfold turnsLeft in Hm.
    destruct (VisualDiffEngine.stack s) as [|p rest] eqn:Hs.
    + destruct fuel'; cbn; rewrite ?Hs; reflexivity.
    + cbn in Hm. lia.
  - destruct fuel' as [|fuel']; [lia|].
    cbn [VisualDiffEngine.floodLoop].
    destruct (VisualDiffEngine.stack s) as [|[px py] rest] eqn:Hs;
      [reflexivity|].
    unfold turnsLeft in Hm. rewrite Hs in Hm. cbn [length] in Hm.
    destruct (_ || _) eqn:Hout.
    { apply IH; [|lia]. unfold turnsLeft. cbn. lia. }
    destruct (negb _); [apply IH; [|lia]; unfold turnsLeft; cbn; lia|].
    destruct (100000 <? _); [reflexivity|].
    apply IH; [|lia]. unfold turnsLeft.
    cbn [VisualDiffEngine.visited VisualDiffEngine.stack length].
    repeat (apply orb_false_elim in Hout as [Hout ?]).
    assert (Hlt : (unmarkedCount img
                     ({[(py * pngWidth img + px)%Z]}
                      ∪ VisualDiffEngine.visited s)
                   < unmarkedCount img (VisualDiffEngine.visited s))%nat).
    { apply unmarkedCount_lt.
      - assert (0 <= px < pngWidth img /\ 0 <= py < pngHeight img) by lia.
        nia.
      - eapply bool_decide_eq_false_1. eassumption. }
    lia.
Qed.

(** The fuel [floodFillRegion] passes is enough on every image. *)
Lemma floodFillRegion_fuel (img : PNG) (startX startY : Z) (seen : gset Z)
    (more : nat) :
  0 <= pngWidth img -> 0 <= pngHeight img ->
  let start :=
    {| VisualDiffEngine.stack := [(startX, startY)];
       VisualDiffEngine.visited := seen;
       VisualDiffEngine.minX := startX; VisualDiffEngine.maxX := startX;
       VisualDiffEngine.minY := startY; VisualDiffEngine.maxY := startY;
       VisualDiffEngine.pixelCount := 0 |} in
  let fuel := Z.to_nat (4 * pngWidth img * pngHeight img + 1) in
  VisualDiffEngine.floodLoop (fuel + more) img start
  = VisualDiffEngine.floodLoop fuel img start.
Proof.
  intros Hw Hh start fuel. apply floodLoop_fuel_enough; [|lia].
  unfold turnsLeft, start, fuel. cbn.
  pose proof (unmarkedCount_le img seen). nia.
Qed.

(** ** What the border-radius and line-height checks test *)

(** Whatever [findSpacingMismatch] returns is beyond the 4px spacing
    tolerance, so the border-radius check, which takes its candidate from
    it, never sees a deviation between 2px and 4px. *)
Lemma findSpacingMismatch_beyond_spacing_tolerance (actualValue : JS.number)
    (vals : list JS.number) (m : SpacingMismatch) :
  findSpacingMismatch actualValue vals = Some m ->
  JS.le (spacingDeviation m) THRESHOLDS.spacing.pixels = false.
Proof.
  unfold findSpacingMismatch. destruct vals as [|v vals]; [discriminate|].
  destruct (foldl _ _ _) as [closest minDiff].
  destruct (JS.le minDiff THRESHOLDS.spacing.pixels) eqn:Hle; [discriminate|].
  intros [= <-]. exact Hle.
Qed.

(** The line-height loop finds a deviation as soon as any token, closest
    or not, is more than the tolerance away. *)
Lemma firstLineHeightDeviation_any (actualRatio fontSize : JS.number)
    (typs : list FigmaTypography) :
  is_Some (firstLineHeightDeviation actualRatio fontSize typs)
  <-> Exists
        (fun typo =>
           JS.gt
             (JS.abs (JS.sub actualRatio
                        (JS.div (expectedLineHeightOf fontSize typo)
                           (typoFontSize typo))))
             THRESHOLDS.lineHeight.ratio = true) typs.
Proof.
  induction typs as [|typo typs IH]; cbn [firstLineHeightDeviation].
  - split; [intros [? H]; discriminate H | intros H; inversion H].
  - destruct (JS.gt _ _) eqn:Hgt.
    + split; [intros _; left; exact Hgt | intros _; eexists; reflexivity].
    + rewrite IH. split; [intros H; right; exact H|].
      intros H. inversion H as [? ? Hh | ? ? Ht]; subst; [congruence | exact Ht].
Qed.

(** ** The engines on concrete inputs *)

(** The repository's unit test "should return 100% score when no
    mismatches". *)
Example compare_empty :
  let r := compare Stub.chromaLib {| domTree := [] |} (figmaInput [] [] [] []) in
  overallScore r = JS.ofZ 100 /\ resultMismatches r = []
  /\ total (summary r) = 0%nat
  /\ map snd (categoryScores r) = [100; 100; 100; 100; 100; 100; 100].
Proof. vm_compute. repeat split. Qed.

(** The scenario of a 24px text against a 32px token. *)
Example font_size_scenario :
  map (fun m => (property m, expectedValue m, actualValue m, deviation m,
                 severity m))
    (mismatches
       (checkTypography
          [ {| typoFontFamily := "Arial"; typoFontSize := JS.ofZ 32;
               typoFontWeight := JS.ofZ 700;
               typoLineHeight := LineHeightString "auto" |} ]
          (mkDOMElement "h1" (Some "title") None
             (Examples.styled "" "24px" "700" "normal" "0px" "0px") [])
          "#title" newRun))
  = [("fontSize", Px (JS.ofZ 32), Str "24px", JS.Fin 8, Severity.critical)].
Proof. vm_compute. reflexivity. Qed.

(** C1. Where no token's hex parses the code does not do what the claim
    says: with a single token whose hex does not parse, every token is
    skipped and still a mismatch is raised, which names that token and has
    an infinite deviation, although no token has a Delta-E to the actual
    colour. *)
Lemma unparsable_tokens_mismatch :
  findColorMismatch Stub.chromaLib "#FF0000" [Examples.brokenToken]
  = Some {| expected := "not-a-color"; actual := "#FF0000";
            colorDeviation := JS.PosInf |}
  /\ tokenDistances Stub.chromaLib "#FF0000" [Examples.brokenToken] = [].
Proof. split; reflexivity. Qed.

(** [nearest_color_token] for red against a green and a near-red token,
    both of which parse. *)
Lemma nearest_color_token_witness :
  exists i t d,
    firstMinimumAt
      (tokenDistances Stub.chromaLib "#FF0000"
         [Examples.green; Examples.nearRed]) i t d
    /\ (((d <= 5)%Q
         /\ findColorMismatch Stub.chromaLib "#FF0000"
              [Examples.green; Examples.nearRed] = None)
        \/ ((5 < d)%Q
            /\ findColorMismatch Stub.chromaLib "#FF0000"
                 [Examples.green; Examples.nearRed]
               = Some {| expected := hex t;
                         actual := JS.toUpperCase "#FF0000";
                         colorDeviation := JS.Fin d |})).
Proof.
  apply (nearest_color_token Stub.chromaLib "#FF0000" "#FF0000"
           [Examples.green; Examples.nearRed]).
  - reflexivity.
  - apply Exists_cons_hd. eexists. reflexivity.
Defined.

(** C3, witness: the layout category of a page that raises no layout
    mismatch. *)
Lemma category_score_is_penalised_witness :
  scoreOf
    (categoryScores
       (compare Stub.chromaLib Examples.page
          (figmaInput [] [Examples.bodyText] [] [])))
    Category.layout = Some 100.
Proof.
  apply (proj2 (category_score_is_penalised Stub.chromaLib Examples.page
                  (figmaInput [] [Examples.bodyText] [] []) Category.layout)).
  vm_compute. constructor.
Defined.

(** C4, at the failing input: the stroke is pushed first, untouched; the
    two bars then merge into a box that is within 20px of the stroke. The
    output holds two regions within the merge distance, and merging it
    again changes it. The three regions are what the flood fill extracts
    from the diff image [Examples.diffOfThree]. *)
Lemma merge_leaves_near_regions :
  VisualDiffEngine.mergeNearbyRegions
    [Examples.stroke; Examples.verticalBar; Examples.horizontalBar] 20
  = Some [Examples.stroke; Examples.bars]
  /\ VisualDiffEngine.regionsOverlapOrNear Examples.stroke Examples.bars 20
     = true
  /\ VisualDiffEngine.mergeNearbyRegions [Examples.stroke; Examples.bars] 20
     = Some [Examples.everything]
  /\ VisualDiffEngine.findDiffAreas Examples.diffOfThree 62
     = Some [Examples.stroke; Examples.bars].
Proof. vm_compute. repeat split. Qed.

(** C5, at the failing input: a 7px radius is 3px from the only candidate,
    4px, more than the 2px tolerance, yet no mismatch is raised. *)
Lemma border_radius_within_spacing_tolerance :
  JS.gt (JS.abs (JS.sub (JS.parseFloat "7px") (JS.ofZ 4)))
    THRESHOLDS.borderRadius.pixels = true
  /\ resultMismatches
       (compare Stub.chromaLib Examples.page
          (figmaInput [] [] [Examples.space4] [])) = [].
Proof. vm_compute. split; reflexivity. Qed.

(** C6, at the failing input: the button's line-height ratio is that of
    the body style, its closest token on every count, yet a lineHeight
    mismatch is raised, against the display style. *)
Lemma line_height_against_any_token :
  map (fun m => (property m, expectedValue m, actualValue m, severity m))
    (resultMismatches
       (compare Stub.chromaLib Examples.page
          (figmaInput [] [Examples.bodyText; Examples.displayText] [] [])))
  = [("lineHeight", Px (JS.ofZ 30), Str "24px", Severity.critical)]
  /\ JS.seq (JS.div (JS.parseFloat "24px") (JS.parseFloat "16px"))
       (JS.div (JS.ofZ 24) (typoFontSize Examples.bodyText)) = true.
Proof. vm_compute. split; reflexivity. Qed.

(** C7, counterexample: with no typography token, a matched component
    still raises typography mismatches, and the typography score is 80. *)
Lemma component_typography_without_tokens :
  let r := compare Stub.chromaLib Examples.page
             (figmaInput [] [] [] [Examples.btnComponent]) in
  map (fun m => (category m, property m)) (resultMismatches r)
  = [(Category.typography, "fontSize"); (Category.typography, "fontWeight")]
  /\ scoreOf (categoryScores r) Category.typography = Some 80.
Proof. vm_compute. split; reflexivity. Qed.


(** C9, witness: the one-pixel image against itself, under the default
    options. *)
Lemma identical_images_match_witness :
  exists r,
    VisualDiffEngine.compare Stub.imageLibs "red" "red"
      {| threshold := None; includeAA := None; alpha := None;
         diffColor := None; diffColorAlt := None |} = Some r
    /\ mismatchedPixels r = 0
    /\ JS.seq (matchPercentage r) (JS.ofZ 100) = true
    /\ totalPixels r = 1 * 1
    /\ diffAreas r = [].
Proof.
  apply (identical_images_match Stub.imageLibs "red"
           {| pngWidth := 1; pngHeight := 1; data := [255; 0; 0; 255] |}).
  - reflexivity.
  - reflexivity.
  - reflexivity.
  - intros bytes output w h o. cbn.
    rewrite bool_decide_eq_true_2 by reflexivity. reflexivity.
  - intros png. eexists. reflexivity.
Defined.

(** C10, witness: the button's top padding of 0px against a single 8px
    token. *)
Lemma zero_valued_property_is_skipped_witness :
  exists new,
    mismatches
      (checkSpacing [JS.ofZ 8] Examples.button "#btn" newRun)
    = mismatches newRun ++ new
    /\ Forall (fun m => property m <> "paddingTop") new.
Proof.
  apply (zero_valued_property_is_skipped [JS.ofZ 8] Examples.button "#btn"
           newRun "paddingTop").
  right. reflexivity.
Defined.

(** * Further properties of the Comparison Engine *)

(** ** Summary, scores and ids *)

Lemma length_by_severity (ms : list StyleMismatch) :
  length ms
  = (countSeverity Severity.critical ms + countSeverity Severity.major ms
     + countSeverity Severity.minor ms + countSeverity Severity.info ms)%nat.
Proof.
  unfold countSeverity. induction ms as [|m ms IH]; [reflexivity|].
  rewrite !filter_cons. cbn [length]. rewrite IH.
  destruct (severity m);
    repeat (case_decide; try discriminate; try congruence); cbn [length]; lia.
Qed.

(** X1. The summary of a [compare] call counts every mismatch once: its
    total is the length of the mismatch list and the sum of the four
    severity counts. *)
Theorem summary_counts_add_up (lib : Chroma) (web : WebAnalysisResult)
    (figma : FigmaAnalysisResult) :
  let r := compare lib web figma in
  total (summary r) = length (resultMismatches r)
  /\ total (summary r)
     = (nCritical (summary r) + nMajor (summary r) + nMinor (summary r)
        + nInfo (summary r))%nat.
Proof.
  cbv zeta. unfold compare, calculateSummary.
  cbn [summary resultMismatches total nCritical nMajor nMinor nInfo].
  split; [reflexivity | apply length_by_severity].
Qed.

Lemma sumPenalties_nonneg (ms : list StyleMismatch) : 0 <= sumPenalties ms.
Proof.
  unfold sumPenalties.
  assert (H : forall a, 0 <= a ->
            0 <= foldl (fun d m => d + penalty (severity m)) a ms).
  { induction ms as [|m ms IH]; intros a Ha; [exact Ha|].
    cbn [foldl]. apply IH. destruct (severity m); cbn; lia. }
  apply H. lia.
Qed.

Lemma categoryScore_range (ms : list StyleMismatch) (cat : MismatchCategory) :
  0 <= categoryScore ms cat <= 100.
Proof.
  unfold categoryScore.
  destruct (filter (fun m => category m = cat) ms) as [|m l]; [lia|].
  pose proof (sumPenalties_nonneg (m :: l)) as H. unfold sumPenalties in H.
  lia.
Qed.

Lemma weightedAverage_range (score : MismatchCategory -> Z) :
  (forall c, 0 <= score c <= 100) ->
  (0 <= weightedAverage score <= 100)%Q.
Proof.
  intros H. unfold weightedAverage.
  assert (Hq : forall c, (0 <= inject_Z (score c) <= 100)%Q).
  { intros c. destruct (H c) as [H0 H1]. split.
    - change 0%Q with (inject_Z 0). rewrite <- Zle_Qle. exact H0.
    - change 100%Q with (inject_Z 100). rewrite <- Zle_Qle. exact H1. }
  pose proof (Hq Category.color). pose proof (Hq Category.typography).
  pose proof (Hq Category.spacing). pose proof (Hq Category.layout).
  pose proof (Hq Category.border). pose proof (Hq Category.alignment).
  pose proof (Hq Category.size).
  split; lra.
Qed.

Lemma calculateOverallScore_value (st : engine) :
  calculateOverallScore (calculateCategoryScores st)
  = JS.ofZ (Qfloor (weightedAverage (categoryScore (mismatches st)) + (1 # 2))).
Proof.
  destruct (weightedTotals_seven (categoryScore (mismatches st))) as [Hs Ht].
  unfold calculateOverallScore, calculateCategoryScores.
  destruct (weightedTotals _) as [ws tw]. cbn [fst snd] in Hs, Ht.
  unfold JS.div.
  destruct (Qeq_bool tw 0) eqn:Hz.
  { apply Qeq_bool_iff in Hz. rewrite Hz in Ht. discriminate Ht. }
  unfold JS.round. f_equal.
  apply Qfloor_comp. rewrite Hs, Ht. field.
Qed.

(** X2. Every score of a [compare] call lies between 0 and 100: each of
    the seven category scores, and the overall score, which is an
    integer. *)
Theorem scores_between_0_and_100 (lib : Chroma) (web : WebAnalysisResult)
    (figma : FigmaAnalysisResult) :
  let r := compare lib web figma in
  Forall (fun entry => 0 <= snd entry <= 100) (categoryScores r)
  /\ exists z, overallScore r = JS.ofZ z /\ 0 <= z <= 100.
Proof.
  cbv zeta. unfold compare. cbn [categoryScores overallScore].
  match goal with |- context [calculateCategoryScores ?s] => set (st := s) end.
  split.
  - unfold calculateCategoryScores. apply Forall_map, Forall_forall.
    intros c _. apply categoryScore_range.
  - rewrite calculateOverallScore_value. eexists. split; [reflexivity|].
    pose proof (weightedAverage_range (categoryScore (mismatches st))
                  (categoryScore_range (mismatches st))) as [H0 H1].
    split.
    + change 0 with (Qfloor 0). apply Qfloor_resp_le. lra.
    + assert (Qfloor (weightedAverage (categoryScore (mismatches st))
                      + (1 # 2)) <= Qfloor (201 # 2)) as H
        by (apply Qfloor_resp_le; lra).
      exact H.
Qed.

(** ** Invariants of the engine state *)

Section Keeps.
Context (Inv : engine -> Prop).
Hypothesis Inv_add :
  forall cat prop e a el comp dev sev st,
    Inv st -> Inv (addMismatch cat prop e a el comp dev sev st).

Ltac keeps := repeat (apply Inv_add); assumption.

Lemma keeps_checkColors lib cols el sel st :
  Inv st -> Inv (checkColors lib cols el sel st).
Proof. intros H. unfold checkColors. split_checks; keeps. Qed.

Lemma keeps_checkTypography typ el sel st :
  Inv st -> Inv (checkTypography typ el sel st).
Proof. intros H. unfold checkTypography. split_checks; keeps. Qed.

Lemma keeps_foldl {A} (f : engine -> A -> engine) (l : list A) :
  (forall st a, Inv st -> Inv (f st a)) ->
  forall st, Inv st -> Inv (foldl f st l).
Proof.
  intros Hf. induction l as [|a l IH]; intros st H; [exact H|].
  cbn [foldl]. apply IH, Hf, H.
Qed.

Lemma keeps_checkSpacingProp vals el sel prop st :
  Inv st -> Inv (checkSpacingProp vals el sel prop st).
Proof. intros H. unfold checkSpacingProp. split_checks; keeps. Qed.

Lemma keeps_checkBorderRadius vals el sel st :
  Inv st -> Inv (checkBorderRadius vals el sel st).
Proof. intros H. unfold checkBorderRadius. split_checks; keeps. Qed.

Lemma keeps_checkSpacing vals el sel st :
  Inv st -> Inv (checkSpacing vals el sel st).
Proof.
  intros H. unfold checkSpacing. cbv zeta.
  apply keeps_checkBorderRadius.
  assert (H2 : forall props st',
             Inv st' ->
             Inv (foldl (fun st prop => checkSpacingProp vals el sel prop st)
                    st' props)).
  { intros props st' H'. revert st' H'. apply keeps_foldl.
    intros. apply keeps_checkSpacingProp. assumption. }
  destruct (truthyStr _); [apply keeps_checkSpacingProp|];
    apply H2, H2, H.
Qed.

Lemma keeps_processElement (check : DOMElement -> string -> engine -> engine) :
  (forall el sel st, Inv st -> Inv (check el sel st)) ->
  forall el path st, Inv st -> Inv (processElement check el path st).
Proof.
  intros Hc el.
  induction el as [tag ident cls sty kids IH] using DOMElement_forall_ind.
  intros path st H. cbn [processElement children].
  set (sel := buildSelector _ path). clearbody sel.
  pose proof (Hc (mkDOMElement tag ident cls sty kids) sel st H) as H1.
  revert H1.
  generalize (check (mkDOMElement tag ident cls sty kids) sel st) as st1.
  generalize 0%nat as index.
  induction IH as [|k kids Hk _ IHk]; intros index st1 H1; [exact H1|].
  apply IHk, Hk, H1.
Qed.

Lemma keeps_forEachRoot (check : DOMElement -> string -> engine -> engine) :
  (forall el sel st, Inv st -> Inv (check el sel st)) ->
  forall els index st, Inv st -> Inv (forEachRoot check els index st).
Proof.
  intros Hc els. induction els as [|el els IH]; intros index st H; [exact H|].
  cbn [forEachRoot]. apply IH, keeps_processElement; assumption.
Qed.

Lemma keeps_compareComponents tree comps st :
  Inv st -> Inv (compareComponents tree comps st).
Proof.
  unfold compareComponents. revert st.
  apply keeps_foldl. intros st c H.
  destruct (findMatchingElement tree c); [|exact H].
  unfold compareElementStyles. revert st H. apply keeps_foldl.
  intros st p H. unfold compareElementStyle. split_checks; keeps.
Qed.

(** Whatever [addMismatch] keeps and a new run has, the state behind the
    result of [compare] has. *)
Lemma keeps_compare lib web figma :
  Inv newRun ->
  exists st, Inv st
             /\ resultMismatches (compare lib web figma) = mismatches st
             /\ summary (compare lib web figma) = calculateSummary st.
Proof.
  intros H0. unfold compare.
  match goal with |- context [calculateSummary ?s] => set (st := s) end.
  exists st. split; [|split; reflexivity].
  subst st.
  assert (H3 : Inv (compareTokens lib (domTree web) (designTokens figma)
                      newRun)).
  { unfold compareTokens, compareColors, compareTypography, compareSpacing.
    destruct (spacing (designTokens figma)),
      (typography (designTokens figma)), (colors (designTokens figma));
      repeat first
        [ exact H0
        | apply keeps_forEachRoot;
          [ intros;
            first [ apply keeps_checkColors | apply keeps_checkTypography
                  | apply keeps_checkSpacing ]; assumption | ] ]. }
  destruct (_ && _); [apply keeps_compareComponents|]; exact H3.
Qed.

End Keeps.

Lemma mismatchIdOf_inj : Inj (=) (=) mismatchIdOf.
Proof.
  intros n m H. unfold mismatchIdOf in H. cbn in H.
  injection H as H. exact (pretty_nat_inj _ _ H).
Qed.

Lemma numbered_addMismatch cat prop e a el comp dev sev st :
  numbered st -> numbered (addMismatch cat prop e a el comp dev sev st).
Proof.
  intros [Hc Hm]. unfold numbered, addMismatch.
  cbn [mismatches mismatchIdCounter]. rewrite length_app. cbn [length].
  split; [lia|].
  rewrite map_app, Hm, Nat.add_1_r, seq_S, map_app. cbn [map mismatchId].
  rewrite Hc. reflexivity.
Qed.

(** X3. The mismatches of a [compare] call carry the ids [mismatch-1],
    [mismatch-2], ... in the order of the list, so no two share an id. *)
Theorem mismatch_ids_are_sequential (lib : Chroma) (web : WebAnalysisResult)
    (figma : FigmaAnalysisResult) :
  let ms := resultMismatches (compare lib web figma) in
  map mismatchId ms = map mismatchIdOf (seq 1 (length ms))
  /\ NoDup (map mismatchId ms).
Proof.
  cbv zeta.
  destruct (keeps_compare numbered numbered_addMismatch lib web figma)
    as (st & [_ Hm] & -> & _).
  { split; reflexivity. }
  split; [exact Hm|].
  rewrite Hm. apply (NoDup_fmap_2 mismatchIdOf), NoDup_seq.
Qed.

(** ** What every mismatch of [compare] satisfies *)

Lemma adds_impl (P Q : StyleMismatch -> Prop) (st st' : engine) :
  (forall m, P m -> Q m) -> adds P st st' -> adds Q st st'.
Proof.
  intros H (new & E & F). exists new. split; [exact E|].
  eapply Forall_impl; [exact F | exact H].
Qed.

Lemma adds_and (P Q : StyleMismatch -> Prop) (st st' : engine) :
  adds P st st' -> adds Q st st' -> adds (fun m => P m /\ Q m) st st'.
Proof.
  intros (n1 & E1 & F1) (n2 & E2 & F2).
  rewrite E1 in E2. apply app_inv_head in E2. subst n2.
  exists n1. split; [exact E1|].
  apply Forall_forall. intros m Hm.
  rewrite Forall_forall in F1, F2. split; [apply F1 | apply F2]; exact Hm.
Qed.

(** A property of what each of the four steps pushes holds of every
    mismatch of the result. *)
Lemma compare_forall (lib : Chroma) (web : WebAnalysisResult)
    (figma : FigmaAnalysisResult) (P : StyleMismatch -> Prop) :
  (forall cols el sel st, adds P st (checkColors lib cols el sel st)) ->
  (forall typ el sel st, adds P st (checkTypography typ el sel st)) ->
  (forall vals el sel st, adds P st (checkSpacing vals el sel st)) ->
  (forall tree comps st, adds P st (compareComponents tree comps st)) ->
  Forall P (resultMismatches (compare lib web figma)).
Proof.
  intros Hc Ht Hs Hk. unfold compare. cbn [resultMismatches].
  match goal with |- context [mismatches ?s] => set (st := s) end.
  assert (H : adds P newRun st).
  { subst st.
    assert (H3 : adds P newRun
                   (compareTokens lib (domTree web) (designTokens figma)
                      newRun)).
    { assert (A1 : forall cols st0,
                adds P st0 (compareColors lib (domTree web) cols st0)).
      { intros cols st0. unfold compareColors.
        destruct cols; [apply adds_refl|].
        apply adds_forEachRoot. intros. apply Hc. }
      assert (A2 : forall typ st0,
                adds P st0 (compareTypography (domTree web) typ st0)).
      { intros typ st0. unfold compareTypography.
        destruct typ; [apply adds_refl|].
        apply adds_forEachRoot. intros. apply Ht. }
      assert (A3 : forall sp st0,
                adds P st0 (compareSpacing (domTree web) sp st0)).
      { intros sp st0. unfold compareSpacing.
        destruct sp; [apply adds_refl|].
        apply adds_forEachRoot. intros. apply Hs. }
      unfold compareTokens.
      eapply adds_trans; [eapply adds_trans; [apply A1 | apply A2] | apply A3]. }
    destruct (_ && _); [|exact H3].
    eapply adds_trans; [exact H3 | apply Hk]. }
  destruct H as (new & E & F). cbn in E. rewrite E. exact F.
Qed.

Lemma not_info_of_thresholds (c m : JS.number) (d : JS.number)
    (sev : MismatchSeverity) :
  sev = (if JS.ge d c then Severity.critical
         else if JS.ge d m then Severity.major else Severity.minor) ->
  sev = Severity.critical \/ sev = Severity.major \/ sev = Severity.minor.
Proof. intros ->. destruct (JS.ge d c), (JS.ge d m); auto. Qed.

(** X4. [compare] never classifies a mismatch as [info]: every severity
    is critical, major or minor, and the summary's info count is 0. *)
Theorem no_mismatch_is_info (lib : Chroma) (web : WebAnalysisResult)
    (figma : FigmaAnalysisResult) :
  let r := compare lib web figma in
  Forall (fun m => severity m = Severity.critical
                   \/ severity m = Severity.major
                   \/ severity m = Severity.minor) (resultMismatches r)
  /\ nInfo (summary r) = 0%nat.
Proof.
  cbv zeta.
  assert (F : Forall (fun m => severity m = Severity.critical
                               \/ severity m = Severity.major
                               \/ severity m = Severity.minor)
                (resultMismatches (compare lib web figma))).
  { apply compare_forall.
    - intros. eapply adds_impl; [|apply checkColors_adds].
      intros m (_ & _ & H). eapply not_info_of_thresholds, H.
    - intros. eapply adds_impl; [|apply checkTypography_adds].
      intros m (_ & _ & [[_ H] | [[_ H] | (_ & diff & _ & H)]]).
      + eapply not_info_of_thresholds, H.
      + auto.
      + eapply not_info_of_thresholds, H.
    - intros. eapply adds_impl; [|apply checkSpacing_adds].
      intros m (_ & [(_ & _ & H) | (_ & _ & H)]);
        eapply not_info_of_thresholds, H.
    - intros. eapply adds_impl; [|apply compareComponents_adds].
      intros m (_ & H & _). auto. }
  split; [exact F|].
  unfold compare, calculateSummary. cbn [summary nInfo].
  unfold compare in F. cbn [resultMismatches] in F.
  match goal with |- countSeverity _ (mismatches ?s) = _ => set (st := s) in * end.
  unfold countSeverity.
  induction F as [|m ms Hm _ IH]; [reflexivity|].
  rewrite filter_cons. case_decide; [|exact IH].
  destruct Hm as [Hm | [Hm | Hm]]; congruence.
Qed.

Lemma compare_empty_tree (lib : Chroma) (figma : FigmaAnalysisResult) :
  let r := compare lib {| domTree := [] |} figma in
  resultMismatches r = []
  /\ map snd (categoryScores r) = [100; 100; 100; 100; 100; 100; 100]
  /\ overallScore r = JS.ofZ 100
  /\ total (summary r) = 0%nat.
Proof.
  cbv zeta. unfold compare, compareTokens, compareColors, compareTypography,
    compareSpacing. cbn [domTree length Nat.ltb Nat.leb].
  rewrite andb_false_r.
  destruct (colors (designTokens figma)), (typography (designTokens figma)),
    (spacing (designTokens figma)); cbn [forEachRoot];
    vm_compute; repeat split.
Qed.

(** X5. With an empty DOM tree [compare] raises nothing, whatever tokens
    and components are supplied: no mismatch, every category score 100
    and an overall score of 100. *)
Theorem empty_tree_scores_100 (lib : Chroma) (figma : FigmaAnalysisResult) :
  let r := compare lib {| domTree := [] |} figma in
  resultMismatches r = []
  /\ map snd (categoryScores r) = [100; 100; 100; 100; 100; 100; 100]
  /\ overallScore r = JS.ofZ 100
  /\ total (summary r) = 0%nat.
Proof. apply compare_empty_tree. Qed.

(** ** Tolerances *)

Lemma findColorMismatch_beyond (lib : Chroma) (actualColor : string)
    (cols : list FigmaColor) (m : ColorMismatch) :
  findColorMismatch lib actualColor cols = Some m ->
  JS.le (colorDeviation m) THRESHOLDS.color.deltaE = false.
Proof.
  unfold findColorMismatch.
  destruct (chroma lib actualColor) as [c|]; [|discriminate].
  destruct (foldl _ _ _) as [closest minDeltaE].
  destruct (JS.le minDeltaE THRESHOLDS.color.deltaE) eqn:Hle; [discriminate|].
  destruct closest; [|discriminate]. intros [= <-]. exact Hle.
Qed.

Lemma firstLineHeightDeviation_beyond (actualRatio fontSize : JS.number)
    (typs : list FigmaTypography) (expectedLineHeight diff : JS.number) :
  firstLineHeightDeviation actualRatio fontSize typs
  = Some (expectedLineHeight, diff) ->
  JS.gt diff THRESHOLDS.lineHeight.ratio = true.
Proof.
  induction typs as [|typo typs IH]; cbn [firstLineHeightDeviation];
    [discriminate|].
  match goal with |- (if ?c then _ else _) = _ -> _ => destruct c eqn:Hgt end;
    [|exact IH].
  intros [= _ <-]. exact Hgt.
Qed.

Lemma gt_percent (diff : JS.number) :
  JS.gt diff THRESHOLDS.lineHeight.ratio = true ->
  JS.gt (JS.mul diff (JS.ofZ 100)) (JS.ofZ 10) = true.
Proof.
  destruct diff as [| |q|]; try discriminate; [|reflexivity].
  unfold JS.gt, JS.mul, JS.ofZ, JS.lt, THRESHOLDS.lineHeight.ratio.
  change (inject_Z 100) with 100%Q. change (inject_Z 10) with 10%Q.
  rewrite !Qltb_lt. lra.
Qed.

Lemma checkColors_exceeded lib cols el sel st :
  adds exceeded st (checkColors lib cols el sel st).
Proof.
  unfold checkColors. split_checks; adds_steps; unfold exceeded; cbn; left;
    (split; [repeat constructor | eapply findColorMismatch_beyond; eassumption]).
Qed.

Lemma checkTypography_exceeded typ el sel st :
  adds exceeded st (checkTypography typ el sel st).
Proof.
  unfold checkTypography. split_checks; adds_steps; unfold exceeded; cbn;
    first
      [ right; left; split; [reflexivity | assumption]
      | right; right; left; reflexivity
      | right; right; right; left; split; [reflexivity|];
        eapply gt_percent, firstLineHeightDeviation_beyond; eassumption ].
Qed.

Lemma checkSpacingProp_exceeded vals el sel prop st :
  prop ∈ spacingProps ->
  adds exceeded st (checkSpacingProp vals el sel prop st).
Proof.
  intros Hp. unfold checkSpacingProp. split_checks; adds_steps.
  unfold exceeded. cbn. right; right; right; right; left.
  split; [exact Hp|].
  eapply findSpacingMismatch_beyond_spacing_tolerance. eassumption.
Qed.

Lemma checkBorderRadius_exceeded vals el sel st :
  adds exceeded st (checkBorderRadius vals el sel st).
Proof.
  unfold checkBorderRadius. split_checks; adds_steps.
  unfold exceeded. cbn. right; right; right; right; right.
  split; [reflexivity|]. split; [|assumption].
  eapply findSpacingMismatch_beyond_spacing_tolerance. eassumption.
Qed.

Lemma checkSpacing_exceeded vals el sel st :
  adds exceeded st (checkSpacing vals el sel st).
Proof.
  assert (Hfold : forall props st',
             props ⊆ spacingProps ->
             adds exceeded st'
               (foldl (fun st prop => checkSpacingProp vals el sel prop st)
                  st' props)).
  { intros props st' Hsub. apply adds_foldl.
    intros st'' p Hp. apply checkSpacingProp_exceeded. apply Hsub, Hp. }
  unfold checkSpacing. cbv zeta.
  eapply adds_trans; [| apply checkBorderRadius_exceeded].
  eapply adds_trans;
    [| destruct (truthyStr _);
       [ apply checkSpacingProp_exceeded; repeat constructor
       | apply adds_refl ] ].
  eapply adds_trans; apply Hfold; intros p Hp; unfold spacingProps.
  - apply elem_of_app. left. exact Hp.
  - apply elem_of_app. right. apply elem_of_app. left. exact Hp.
Qed.

Lemma compareComponents_exceeded tree comps st :
  adds exceeded st (compareComponents tree comps st).
Proof.
  unfold compareComponents. apply adds_foldl. intros st' c _.
  destruct (findMatchingElement tree c); [|apply adds_refl].
  unfold compareElementStyles. apply adds_foldl. intros st'' p _.
  unfold compareElementStyle. split_checks; adds_steps.
  unfold exceeded. cbn. assumption.
Qed.

(** X6. No mismatch of [compare] is within tolerance. A mismatch raised
    against a token has a deviation that is not at most 5 (color,
    backgroundColor, borderColor), above 2 (fontSize), above 10 percent
    (lineHeight), not at most 4 (paddings, margins, gap), or both not at
    most 4 and above 2 (borderRadius); a fontWeight mismatch has no
    tolerance. A mismatch raised by component matching deviates by more
    than 4. *)
Theorem mismatches_exceed_tolerance (lib : Chroma) (web : WebAnalysisResult)
    (figma : FigmaAnalysisResult) :
  Forall exceeded (resultMismatches (compare lib web figma)).
Proof.
  apply compare_forall.
  - intros. apply checkColors_exceeded.
  - intros. apply checkTypography_exceeded.
  - intros. apply checkSpacing_exceeded.
  - intros. apply compareComponents_exceeded.
Qed.

(** ** Properties that are skipped *)

Ltac closed_test_false :=
  match goal with
  | H : ?c = true |- _ =>
      let v := eval vm_compute in c in
      lazymatch v with false => vm_compute in H; discriminate H end
  end.

Ltac not_about :=
  cbn;
  first
    [ intros Hp; discriminate Hp
    | exfalso;
      repeat match goal with
        | H : _ && _ = true |- _ => apply andb_prop in H as [? ?]
        end;
      closed_test_false ].

(** X7. An element whose background is [rgba(0, 0, 0, 0)] (or empty) gets
    no backgroundColor mismatch from the colour checks, whatever the
    tokens are. *)
Theorem transparent_background_is_skipped (lib : Chroma)
    (cols : list FigmaColor) (el : DOMElement) (sel : string) (st : engine) :
  backgroundColor (computedStyles el) = "rgba(0, 0, 0, 0)"
  \/ backgroundColor (computedStyles el) = "" ->
  exists new,
    mismatches (checkColors lib cols el sel st) = mismatches st ++ new
    /\ Forall (fun m => property m <> "backgroundColor") new.
Proof.
  intros H. unfold checkColors.
  destruct H as [-> | ->]; split_checks; adds_steps; not_about.
Qed.

(** X8. An element whose border width is [0px] (or whose border colour is
    empty) gets no borderColor mismatch from the colour checks. *)
Theorem zero_width_border_is_skipped (lib : Chroma)
    (cols : list FigmaColor) (el : DOMElement) (sel : string) (st : engine) :
  borderWidth (computedStyles el) = "0px"
  \/ borderColor (computedStyles el) = "" ->
  exists new,
    mismatches (checkColors lib cols el sel st) = mismatches st ++ new
    /\ Forall (fun m => property m <> "borderColor") new.
Proof.
  intros H. unfold checkColors.
  destruct H as [-> | ->]; split_checks; adds_steps; not_about.
Qed.

(** X9. An element whose line height is the keyword [normal] (or empty)
    gets no lineHeight mismatch from the typography checks. *)
Theorem normal_line_height_is_skipped (typ : list FigmaTypography)
    (el : DOMElement) (sel : string) (st : engine) :
  lineHeight (computedStyles el) = "normal"
  \/ lineHeight (computedStyles el) = "" ->
  exists new,
    mismatches (checkTypography typ el sel st) = mismatches st ++ new
    /\ Forall (fun m => property m <> "lineHeight") new.
Proof.
  intros H. unfold checkTypography. cbv zeta.
  assert (Hskip : JS.nonEmpty (lineHeight (computedStyles el))
                  && negb (String.eqb (lineHeight (computedStyles el)) "normal")
                  = false)
    by (destruct H as [-> | ->]; reflexivity).
  rewrite Hskip.
  split_checks; adds_steps; cbn; intros Hp; discriminate Hp.
Qed.

(** ** Nearest numeric candidate *)

Section FirstMinimum.
Context {A C : Type} (inj : A -> C).

Lemma foldl_closerBy (ds : list (A * Q)) :
  forall t0 d0,
    exists t d,
      foldl (closerBy inj) (inj t0, JS.Fin d0) ds = (inj t, JS.Fin d)
      /\ (d <= d0)%Q
      /\ (forall j t' d', ds !! j = Some (t', d') -> (d <= d')%Q)
      /\ ((t = t0 /\ d = d0)
          \/ (exists i, ds !! i = Some (t, d) /\ (d < d0)%Q
                        /\ forall j t' d', (j < i)%nat ->
                             ds !! j = Some (t', d') -> (d < d')%Q)).
Proof.
  induction ds as [|[a x] ds IH]; intros t0 d0.
  - exists t0, d0. repeat split; [lra | intros j t' d' H; discriminate H | auto].
  - cbn [foldl]. unfold closerBy at 2. cbn [fst snd JS.lt].
    destruct (JS.Qltb x d0) eqn:Hlt.
    + apply Qltb_lt in Hlt.
      destruct (IH a x) as (t & d & E & Hle & Hmin & Hfirst).
      exists t, d. split; [exact E|]. split; [lra|]. split.
      * intros [|j] t' d' H; cbn in H.
        -- injection H as <- <-. exact Hle.
        -- eapply Hmin, H.
      * right. destruct Hfirst as [[-> ->] | (i & Hi & Hd & Hf)].
        -- exists 0%nat. split; [reflexivity|]. split; [exact Hlt|].
           intros j t' d' Hj. lia.
        -- exists (S i). split; [exact Hi|]. split; [lra|].
           intros [|j] t' d' Hj H; cbn in H.
           ++ injection H as <- <-. exact Hd.
           ++ eapply Hf; [|exact H]. lia.
    + apply Qltb_ge in Hlt.
      destruct (IH t0 d0) as (t & d & E & Hle & Hmin & Hfirst).
      exists t, d. split; [exact E|]. split; [exact Hle|]. split.
      * intros [|j] t' d' H; cbn in H.
        -- injection H as <- <-. lra.
        -- eapply Hmin, H.
      * destruct Hfirst as [H | (i & Hi & Hd & Hf)]; [left; exact H|].
        right. exists (S i). split; [exact Hi|]. split; [exact Hd|].
        intros [|j] t' d' Hj H; cbn in H.
        -- injection H as <- <-. lra.
        -- eapply Hf; [|exact H]. lia.
Qed.

(** The loops start from the first candidate and then visit it again. *)
Lemma foldl_closerBy_first (t1 : A) (d1 : Q) (ds : list (A * Q)) :
  exists i t d,
    firstMinimumAt ((t1, d1) :: ds) i t d
    /\ foldl (closerBy inj) (inj t1, JS.Fin d1) ((t1, d1) :: ds)
       = (inj t, JS.Fin d).
Proof.
  cbn [foldl]. unfold closerBy at 2. cbn [fst snd JS.lt].
  assert (JS.Qltb d1 d1 = false) as -> by (apply Qltb_ge; lra).
  destruct (foldl_closerBy ds t1 d1) as (t & d & E & Hle & Hmin & Hfirst).
  destruct Hfirst as [[-> ->] | (i & Hi & Hd & Hf)].
  - exists 0%nat, t1, d1. split; [|exact E]. repeat split.
    + intros [|j] t' d' H; cbn in H.
      * injection H as <- <-. lra.
      * eapply Hmin, H.
    + intros j t' d' Hj. lia.
  - exists (S i), t, d. split; [|exact E]. repeat split.
    + exact Hi.
    + intros [|j] t' d' H; cbn in H.
      * injection H as <- <-. lra.
      * eapply Hmin, H.
    + intros [|j] t' d' Hj H; cbn in H.
      * injection H as <- <-. exact Hd.
      * eapply Hf; [|exact H]. lia.
Qed.

End FirstMinimum.

(** An integer of less than 54 bits is a binary64 number. *)
Lemma binary64_integer (q : Q) (z : Z) :
  (q == inject_Z z)%Q -> Z.abs z < 2 ^ 53 -> binary64 q.
Proof.
  intros Hq Hz. exists z, 0. split; [exact Hz|]. split; [lia|].
  rewrite Hq. cbn. ring.
Qed.

Lemma foldl_closerSpacing (a : Q) (cands : list Q) :
  forall acc,
    foldl (closerSpacing (JS.Fin a)) acc (map JS.Fin cands)
    = foldl (closerBy JS.Fin) acc (absDistances id a cands).
Proof.
  induction cands as [|v cands IH]; intros acc; [reflexivity|].
  cbn [map foldl absDistances]. rewrite IH. reflexivity.
Qed.

(** X10. For a finite actual value and a non-empty list of finite
    candidates whose differences to it the source computes without
    rounding, [findSpacingMismatch] returns nothing exactly when the
    smallest absolute difference is at most 4; otherwise it returns the
    first candidate, in order, at that smallest difference, and the
    difference as the deviation. *)
Theorem nearest_spacing_candidate (a : Q) (cands : list Q) :
  cands <> [] ->
  exactDifferences id a cands ->
  exists i v d,
    firstMinimumAt (absDistances id a cands) i v d
    /\ (((d <= 4)%Q
         /\ findSpacingMismatch (JS.Fin a) (map JS.Fin cands) = None)
        \/ ((4 < d)%Q
            /\ findSpacingMismatch (JS.Fin a) (map JS.Fin cands)
               = Some {| expectedSpacing := JS.Fin v;
                         spacingDeviation := JS.Fin d |})).
Proof.
  destruct cands as [|v1 cands]; [congruence|]. intros _ _.
  destruct (foldl_closerBy_first JS.Fin v1 (Qabs (a - id v1))
              (absDistances id a cands)) as (i & v & d & Hmin & E).
  exists i, v, d. split; [exact Hmin|].
  unfold findSpacingMismatch. cbn [map].
  change (JS.Fin v1 :: map JS.Fin cands) with (map JS.Fin (v1 :: cands)).
  rewrite foldl_closerSpacing.
  change (JS.abs (JS.sub (JS.Fin a) (JS.Fin v1)))
    with (JS.Fin (Qabs (a - id v1))).
  change (absDistances id a (v1 :: cands))
    with ((v1, Qabs (a - id v1)) :: absDistances id a cands).
  rewrite E.
  unfold JS.le, THRESHOLDS.spacing.pixels, JS.ofZ.
  change (inject_Z 4) with 4%Q.
  destruct (Qle_bool d 4) eqn:H4.
  - left. apply Qle_bool_iff in H4. auto.
  - right. split; [|reflexivity].
    apply Qnot_le_lt. intros H. apply Qle_bool_iff in H. congruence.
Qed.

Lemma foldl_closestTypography (a : Q) (prop : FigmaTypography -> JS.number)
    (value : FigmaTypography -> Q) (typs : list FigmaTypography) :
  Forall (fun t => prop t = JS.Fin (value t)) typs ->
  forall acc,
    foldl (fun (acc : FigmaTypography * JS.number) typo =>
             let diff := JS.abs (JS.sub (JS.Fin a) (prop typo)) in
             if JS.lt diff (snd acc) then (typo, diff) else acc) acc typs
    = foldl (closerBy id) acc (absDistances value a typs).
Proof.
  induction 1 as [|t typs Ht _ IH]; intros acc; [reflexivity|].
  cbn [map foldl absDistances]. rewrite IH, Ht. reflexivity.
Qed.

(** X11. [findClosestTypography] returns nothing on an empty collection;
    on tokens whose compared field is finite, and whose differences to a
    finite value the source computes without rounding, it returns the
    first token, in order, whose field is at the smallest absolute
    difference from that value. *)
Theorem closest_typography_token (a : Q) (prop : FigmaTypography -> JS.number)
    (value : FigmaTypography -> Q) (typs : list FigmaTypography) :
  Forall (fun t => prop t = JS.Fin (value t)) typs ->
  exactDifferences value a typs ->
  (typs = [] /\ findClosestTypography (JS.Fin a) typs prop = None)
  \/ (exists i t d,
        firstMinimumAt (absDistances value a typs) i t d
        /\ findClosestTypography (JS.Fin a) typs prop = Some t).
Proof.
  intros Hfin _. destruct typs as [|t1 typs]; [left; split; reflexivity|].
  right.
  destruct (foldl_closerBy_first id t1 (Qabs (a - value t1))
              (absDistances value a typs)) as (i & t & d & Hmin & E).
  exists i, t, d. split; [exact Hmin|].
  unfold findClosestTypography.
  rewrite (foldl_closestTypography a prop value (t1 :: typs) Hfin).
  inversion Hfin as [|? ? H1 _]; subst. rewrite H1.
  match goal with
  | |- Some (fst ?x) = _ =>
      change x
        with (foldl (closerBy id) (id t1, JS.Fin (Qabs (a - value t1)))
                ((t1, Qabs (a - value t1)) :: absDistances value a typs))
  end.
  rewrite E. reflexivity.
Qed.

(** ** Component matching *)

Lemma find_app {X} (p : X -> bool) (l1 l2 : list X) :
  List.find p (l1 ++ l2)
  = match List.find p l1 with Some x => Some x | None => List.find p l2 end.
Proof.
  induction l1 as [|x l1 IH]; [reflexivity|].
  cbn. destruct (p x); [reflexivity | exact IH].
Qed.

Lemma findInElement_find (name : string) (el : DOMElement) :
  findInElement name el = List.find (matchesComponent name) (elementsOf el).
Proof.
  induction el as [tag ident cls sty kids IH] using DOMElement_forall_ind.
  cbn [findInElement elementsOf List.find children].
  destruct (matchesComponent name _); [reflexivity|].
  induction IH as [|k kids Hk _ IHk]; [reflexivity|].
  rewrite find_app, <- Hk.
  destruct (findInElement name k); [reflexivity | exact IHk].
Qed.

(** X12. [findMatchingElement] returns the first element of the tree, in
    document order, whose lower-cased id or class contains the component's
    lower-cased name, and nothing when there is none. *)
Theorem matching_element_is_first_in_document_order
    (tree : list DOMElement) (comp : FigmaComponent) :
  findMatchingElement tree comp
  = List.find (matchesComponent (JS.toLowerCase (componentName comp)))
      (allElements tree).
Proof.
  unfold findMatchingElement, allElements.
  induction tree as [|el tree IH]; [reflexivity|].
  cbn [findInTree flat_map]. rewrite find_app, <- findInElement_find.
  destruct (findInElement _ el); [reflexivity | exact IH].
Qed.

(** * Further properties of the Visual Diff Engine *)

(** ** Decoding *)

Lemma dropPrefix_app (p s : string) :
  VisualDiffEngine.dropPrefix p (p +:+ s) = Some s.
Proof.
  induction p as [|c p IH]; [destruct s; reflexivity|].
  change (VisualDiffEngine.dropPrefix (String c p) (String c p +:+ s))
    with (if Ascii.eqb c c then VisualDiffEngine.dropPrefix p (p +:+ s)
          else None).
  rewrite Ascii.eqb_refl. exact IH.
Qed.

Lemma dropPrefix_prefix (p s rest : string) :
  VisualDiffEngine.dropPrefix p s = Some rest -> String.prefix p s = true.
Proof.
  revert s. induction p as [|a p IH]; intros [|b s] H;
    try reflexivity; try discriminate H.
  change (VisualDiffEngine.dropPrefix (String a p) (String b s))
    with (if Ascii.eqb a b then VisualDiffEngine.dropPrefix p s else None) in H.
  destruct (Ascii.eqb a b) eqn:E; [|discriminate H].
  apply Ascii.eqb_eq in E. subst b. cbn [String.prefix].
  destruct (ascii_dec a a) as [_|n]; [apply IH, H|destruct n; reflexivity].
Qed.

Lemma dropWordChars_app (kind rest : string) :
  VisualDiffEngine.dropWordChars kind = "" ->
  VisualDiffEngine.dropWordChars (kind +:+ ";base64," +:+ rest)
  = ";base64," +:+ rest.
Proof.
  induction kind as [|c kind IH]; intros H; [reflexivity|].
  change (VisualDiffEngine.dropWordChars (String c kind)) with
    (if VisualDiffEngine.isWordChar c
     then VisualDiffEngine.dropWordChars kind else String c kind) in H.
  change (VisualDiffEngine.dropWordChars
            (String c kind +:+ ";base64," +:+ rest)) with
    (if VisualDiffEngine.isWordChar c
     then VisualDiffEngine.dropWordChars (kind +:+ ";base64," +:+ rest)
     else String c (kind +:+ ";base64," +:+ rest)).
  destruct (VisualDiffEngine.isWordChar c); [|discriminate H].
  apply IH, H.
Qed.

(** X13. A data-URL prefix [data:image/<kind>;base64,], for a non-empty
    [kind] of letters, digits and underscores, is removed before decoding:
    the image decoded is that of the text after the prefix. A text that
    does not begin with [data:image/] is decoded as it is. *)
Theorem data_url_prefix_is_stripped (libs : ImageLibs)
    (kind payload plain : string) :
  (JS.nonEmpty kind = true ->
   VisualDiffEngine.dropWordChars kind = "" ->
   VisualDiffEngine.decodeBase64Image libs
     ("data:image/" +:+ kind +:+ ";base64," +:+ payload)
   = pngParse libs payload)
  /\ (String.prefix "data:image/" plain = false ->
      VisualDiffEngine.decodeBase64Image libs plain = pngParse libs plain).
Proof.
  unfold VisualDiffEngine.decodeBase64Image, VisualDiffEngine.stripDataUrl.
  split.
  - intros Hne Hw. rewrite dropPrefix_app.
    destruct kind as [|c kind]; [discriminate Hne|].
    change (String c kind +:+ ";base64," +:+ payload)
      with (String c (kind +:+ ";base64," +:+ payload)).
    change (VisualDiffEngine.dropWordChars (String c kind)) with
      (if VisualDiffEngine.isWordChar c
       then VisualDiffEngine.dropWordChars kind else String c kind) in Hw.
    destruct (VisualDiffEngine.isWordChar c) eqn:Hc; [|discriminate Hw].
    rewrite (dropWordChars_app kind payload Hw), dropPrefix_app.
    cbv beta iota. rewrite Hc. reflexivity.
  - intros Hp.
    destruct (VisualDiffEngine.dropPrefix "data:image/" plain) as [rest|] eqn:E;
      [|reflexivity].
    rewrite (dropPrefix_prefix _ _ _ E) in Hp. discriminate Hp.
Qed.

(** ** Regions *)

Lemma inside_refl (a : BoundingBox) : inside a a.
Proof. unfold inside. lia. Qed.

Lemma inside_trans (a b c : BoundingBox) :
  inside a b -> inside b c -> inside a c.
Proof. unfold inside. lia. Qed.

Lemma inside_mergeRegions_l (a b : BoundingBox) :
  inside a (VisualDiffEngine.mergeRegions a b).
Proof. unfold inside, VisualDiffEngine.mergeRegions. cbn. lia. Qed.

Lemma inside_mergeRegions_r (a b : BoundingBox) :
  inside b (VisualDiffEngine.mergeRegions a b).
Proof. unfold inside, VisualDiffEngine.mergeRegions. cbn. lia. Qed.

Lemma inside_mergeRegions_least (a b c : BoundingBox) :
  inside a c -> inside b c -> inside (VisualDiffEngine.mergeRegions a b) c.
Proof. unfold inside, VisualDiffEngine.mergeRegions. cbn. lia. Qed.

(** X14. [mergeRegions] gives the bounding box of its two regions: both lie
    inside it, and it lies inside every region that holds both. *)
Theorem merged_region_is_the_bounding_box (a b : BoundingBox) :
  inside a (VisualDiffEngine.mergeRegions a b)
  /\ inside b (VisualDiffEngine.mergeRegions a b)
  /\ forall c, inside a c -> inside b c ->
       inside (VisualDiffEngine.mergeRegions a b) c.
Proof.
  split; [apply inside_mergeRegions_l|].
  split; [apply inside_mergeRegions_r|].
  intros c. apply inside_mergeRegions_least.
Qed.

(** X15. [regionsOverlapOrNear] does not depend on the order of its two
    regions, a larger threshold only adds pairs, and under a threshold that
    is not negative a region that lies inside another of height and width
    not negative is near it. *)
Theorem nearness_of_regions (a b : BoundingBox) (t t' : Z) :
  VisualDiffEngine.regionsOverlapOrNear a b t
  = VisualDiffEngine.regionsOverlapOrNear b a t
  /\ (t <= t' -> VisualDiffEngine.regionsOverlapOrNear a b t = true ->
      VisualDiffEngine.regionsOverlapOrNear a b t' = true)
  /\ (0 <= t -> 0 <= width a -> 0 <= height a -> inside a b ->
      VisualDiffEngine.regionsOverlapOrNear a b t = true).
Proof.
  unfold VisualDiffEngine.regionsOverlapOrNear, inside. cbv zeta.
  repeat split.
  - f_equal.
    destruct (_ <? x b), (_ <? x a), (_ <? y b), (_ <? y a); reflexivity.
  - intros Ht H. apply negb_true_iff in H. apply negb_true_iff.
    repeat (apply orb_false_iff in H as [H ?]).
    repeat (apply orb_false_iff; split); lia.
  - intros Ht Hw Hh (H1 & H2 & H3 & H4). apply negb_true_iff.
    repeat (apply orb_false_iff; split); lia.
Qed.

(** ** Merging of regions *)

Section MergeSpec.
Context (regions : list BoundingBox) (threshold : Z).

(** What a run of the inner loop does to [(current, used)]: [current] only
    grows, and every index it marks is that of a region now inside
    [current]. *)
Lemma foldl_mergeStep_covers (l : list nat) :
  forall c u ch c' u' ch',
    foldl (VisualDiffEngine.mergeStep regions threshold) (c, u, ch) l
    = (c', u', ch') ->
    inside c c'
    /\ forall j, j ∈ u' ->
         j ∈ u \/ exists rj, regions !! j = Some rj /\ inside rj c'.
Proof.
  induction l as [|a l IH]; intros c u ch c' u' ch' E.
  - cbn in E. injection E as <- <- <-. split; [apply inside_refl | auto].
  - cbn [foldl] in E. unfold VisualDiffEngine.mergeStep at 2 in E.
    destruct (bool_decide (a ∈ u)); [exact (IH _ _ _ _ _ _ E)|].
    destruct (regions !! a) as [rj|] eqn:Ha; [|exact (IH _ _ _ _ _ _ E)].
    destruct (VisualDiffEngine.regionsOverlapOrNear c rj threshold);
      [|exact (IH _ _ _ _ _ _ E)].
    destruct (IH _ _ _ _ _ _ E) as [Hc Hu]. split.
    { eapply inside_trans; [apply inside_mergeRegions_l | exact Hc]. }
    intros j Hj. destruct (Hu j Hj) as [Hin | Hr]; [|right; exact Hr].
    apply elem_of_union in Hin as [Hin | Hin]; [|left; exact Hin].
    apply elem_of_singleton in Hin. subst j. right. exists rj.
    split; [exact Ha|].
    eapply inside_trans; [apply inside_mergeRegions_r | exact Hc].
Qed.

Lemma growRegion_covers (fuel : nat) :
  forall c u c' u',
    VisualDiffEngine.growRegion fuel regions threshold c u = Some (c', u') ->
    u ⊆ u' /\ inside c c'
    /\ forall j, j ∈ u' ->
         j ∈ u \/ exists rj, regions !! j = Some rj /\ inside rj c'.
Proof.
  induction fuel as [|fuel IH]; intros c u c' u' E; [discriminate E|].
  cbn [VisualDiffEngine.growRegion] in E.
  destruct (VisualDiffEngine.mergePass regions threshold c u)
    as [[c1 u1] ch] eqn:Ep.
  unfold VisualDiffEngine.mergePass in Ep.
  destruct (foldl_passStep _ _ _ _ _ _ _ _ _ Ep) as [Hs _].
  destruct (foldl_mergeStep_covers _ _ _ _ _ _ _ Ep) as [Hc Hu].
  destruct ch.
  - destruct (IH _ _ _ _ E) as (Hs' & Hc' & Hu').
    split; [etransitivity; eassumption|].
    split; [eapply inside_trans; eassumption|].
    intros j Hj. destruct (Hu' j Hj) as [Hin | Hr]; [|right; exact Hr].
    destruct (Hu j Hin) as [Hin' | (rj & Hrj & Hins)]; [left; exact Hin'|].
    right. exists rj. split; [exact Hrj|].
    eapply inside_trans; eassumption.
  - injection E as <- <-. auto.
Qed.

(** A property that the regions have and that merging preserves. *)
Context (Q : BoundingBox -> Prop).
Hypothesis Q_merge :
  forall a b, Q a -> Q b -> Q (VisualDiffEngine.mergeRegions a b).
Hypothesis Q_regions : Forall Q regions.

Lemma foldl_mergeStep_keeps (l : list nat) :
  forall c u ch c' u' ch',
    foldl (VisualDiffEngine.mergeStep regions threshold) (c, u, ch) l
    = (c', u', ch') ->
    Q c -> Q c'.
Proof.
  induction l as [|a l IH]; intros c u ch c' u' ch' E Hc.
  - cbn in E. injection E as <- <- <-. exact Hc.
  - cbn [foldl] in E. unfold VisualDiffEngine.mergeStep at 2 in E.
    destruct (bool_decide (a ∈ u)); [exact (IH _ _ _ _ _ _ E Hc)|].
    destruct (regions !! a) as [rj|] eqn:Ha; [|exact (IH _ _ _ _ _ _ E Hc)].
    destruct (VisualDiffEngine.regionsOverlapOrNear c rj threshold);
      [|exact (IH _ _ _ _ _ _ E Hc)].
    apply (IH _ _ _ _ _ _ E). apply Q_merge; [exact Hc|].
    rewrite Forall_forall in Q_regions.
    apply Q_regions. eapply list_elem_of_lookup_2, Ha.
Qed.

Lemma growRegion_keeps (fuel : nat) :
  forall c u c' u',
    VisualDiffEngine.growRegion fuel regions threshold c u = Some (c', u') ->
    Q c -> Q c'.
Proof.
  induction fuel as [|fuel IH]; intros c u c' u' E Hc; [discriminate E|].
  cbn [VisualDiffEngine.growRegion] in E.
  destruct (VisualDiffEngine.mergePass regions threshold c u)
    as [[c1 u1] ch] eqn:Ep.
  unfold VisualDiffEngine.mergePass in Ep.
  pose proof (foldl_mergeStep_keeps _ _ _ _ _ _ _ Ep Hc) as Hc1.
  destruct ch; [exact (IH _ _ _ _ E Hc1)|].
  injection E as <- <-. exact Hc1.
Qed.

End MergeSpec.

(** The outer loop of [mergeNearbyRegions], as a function of the accumulator. *)
Lemma mergeNearbyRegions_loop (regions : list BoundingBox) (threshold : Z)
    (Q : BoundingBox -> Prop) (l : list nat) :
  (forall a b, Q a -> Q b -> Q (VisualDiffEngine.mergeRegions a b)) ->
  Forall Q regions ->
  forall merged used,
    Forall Q merged ->
    (forall j rj, j ∈ used -> regions !! j = Some rj ->
                  Exists (inside rj) merged) ->
    exists merged' used',
      foldl (fun (acc : option (list BoundingBox * gset nat)) i =>
               '(merged, used) ← acc;
               if bool_decide (i ∈ used) then Some (merged, used)
               else
                 match regions !! i with
                 | Some ri =>
                     '(current, used') ←
                       VisualDiffEngine.growRegion (S (length regions))
                         regions threshold ri ({[i]} ∪ used);
                     Some ((merged ++ [current])%list, used')
                 | None => Some (merged, used)
                 end)
        (Some (merged, used)) l = Some (merged', used')
      /\ Forall Q merged'
      /\ (forall j rj, j ∈ used' -> regions !! j = Some rj ->
                       Exists (inside rj) merged')
      /\ used ⊆ used'
      /\ (forall i, i ∈ l -> is_Some (regions !! i) -> i ∈ used')
      /\ (length merged' <= length merged + length l)%nat.
Proof.
  intros HQm HQr. induction l as [|i l IH]; intros merged used HQ Hcov.
  - exists merged, used. cbn [foldl].
    repeat split; auto. { intros i Hi. inversion Hi. } cbn. lia.
  - cbn [foldl mbind option_bind].
    destruct (bool_decide (i ∈ used)) eqn:Hi.
    { apply bool_decide_eq_true in Hi.
      destruct (IH merged used HQ Hcov)
        as (m' & u' & E & H1 & H2 & H3 & H4 & H5).
      exists m', u'. repeat split; auto.
      - intros k Hk Hs. apply elem_of_cons in Hk as [-> | Hk]; auto.
      - cbn [length]. lia. }
    destruct (regions !! i) as [ri|] eqn:Hri.
    2:{ destruct (IH merged used HQ Hcov)
          as (m' & u' & E & H1 & H2 & H3 & H4 & H5).
        exists m', u'. repeat split; auto.
        - intros k Hk Hs. apply elem_of_cons in Hk as [-> | Hk]; auto.
          rewrite Hri in Hs. destruct Hs as [? Hs]. discriminate Hs.
        - cbn [length]. lia. }
    destruct (growRegion_total regions threshold (S (length regions)) ri
                ({[i]} ∪ used)) as [[c u] Eg].
    { pose proof (unusedCount_le (length regions) ({[i]} ∪ used)). lia. }
    rewrite Eg. cbn [mbind option_bind].
    destruct (growRegion_covers _ _ _ _ _ _ _ Eg) as (Hs & Hc & Hu).
    assert (HQc : Q c).
    { apply (growRegion_keeps regions threshold Q HQm HQr _ _ _ _ _ Eg).
      rewrite Forall_forall in HQr. apply HQr.
      eapply list_elem_of_lookup_2, Hri. }
    destruct (IH (merged ++ [c]) u) as (m' & u' & E & H1 & H2 & H3 & H4 & H5).
    { apply Forall_app. split; [exact HQ|]. constructor; [exact HQc|constructor]. }
    { intros j rj Hj Hrj. apply Exists_app.
      destruct (Hu j Hj) as [Hin | (rj' & Hrj' & Hins)].
      - apply elem_of_union in Hin as [Hin | Hin].
        + apply elem_of_singleton in Hin. subst j.
          right. left. congruence.
        + left. exact (Hcov j rj Hin Hrj).
      - right. left. congruence. }
    exists m', u'. split; [exact E|]. repeat split; auto.
    + intros k Hk. apply H3, Hs, elem_of_union. right. exact Hk.
    + intros k Hk Hsome. apply elem_of_cons in Hk as [-> | Hk]; auto.
      apply H3, Hs, elem_of_union. left. apply elem_of_singleton. reflexivity.
    + rewrite length_app in H5. cbn [length] in *. lia.
Qed.

(** [mergeNearbyRegions] always returns; it returns no more regions than
    it is given, each of them with every property that the given regions
    have and that merging preserves, and every given region lies inside
    one of them. *)
Lemma mergeNearbyRegions_spec (regions : list BoundingBox) (threshold : Z) :
  exists merged,
    VisualDiffEngine.mergeNearbyRegions regions threshold = Some merged
    /\ (length merged <= length regions)%nat
    /\ Forall (fun r => Exists (inside r) merged) regions
    /\ forall Q : BoundingBox -> Prop,
         (forall a b, Q a -> Q b -> Q (VisualDiffEngine.mergeRegions a b)) ->
         Forall Q regions -> Forall Q merged.
Proof.
  unfold VisualDiffEngine.mergeNearbyRegions.
  destruct (length regions <=? 1)%nat.
  { exists regions. repeat split; auto.
    apply Forall_forall. intros r Hr. apply Exists_exists.
    exists r. split; [exact Hr | apply inside_refl]. }
  destruct (mergeNearbyRegions_loop regions threshold (fun _ => True)
              (seq 0 (length regions)) ltac:(auto)
              ltac:(apply Forall_forall; auto) [] ∅ ltac:(constructor))
    as (merged & used & E & _ & Hcov & _ & Hall & Hlen).
  { intros j rj Hj. exfalso. revert Hj. apply not_elem_of_empty. }
  exists merged. rewrite E. split; [reflexivity|].
  split; [rewrite length_seq in Hlen; cbn in Hlen; exact Hlen|].
  split.
  - apply Forall_forall. intros r Hr.
    apply list_elem_of_lookup in Hr as [i Hi].
    apply (Hcov i r); [|exact Hi].
    apply Hall; [|eexists; exact Hi].
    apply elem_of_seq. apply lookup_lt_Some in Hi. lia.
  - intros Q HQm HQr.
    destruct (mergeNearbyRegions_loop regions threshold Q
                (seq 0 (length regions)) HQm HQr [] ∅ ltac:(constructor))
      as (merged' & used' & E' & HQ & _).
    { intros j rj Hj. exfalso. revert Hj. apply not_elem_of_empty. }
    rewrite E in E'. injection E' as <- <-. exact HQ.
Qed.

(** X16. [mergeNearbyRegions] ends on every list of regions, returns no
    more regions than it was given, and loses none: each given region lies
    inside one of the regions returned. *)
Theorem merging_covers_every_region (regions : list BoundingBox)
    (threshold : Z) :
  exists merged,
    VisualDiffEngine.mergeNearbyRegions regions threshold = Some merged
    /\ (length merged <= length regions)%nat
    /\ Forall (fun r => Exists (inside r) merged) regions.
Proof.
  destruct (mergeNearbyRegions_spec regions threshold)
    as (merged & E & Hlen & Hcov & _).
  exists merged. auto.
Qed.

(** X17. Merging never reaches outside what it was given: when every
    region lies inside a box, so does every region returned. *)
Theorem merging_stays_inside (regions merged : list BoundingBox)
    (threshold : Z) (box : BoundingBox) :
  VisualDiffEngine.mergeNearbyRegions regions threshold = Some merged ->
  Forall (fun r => inside r box) regions ->
  Forall (fun r => inside r box) merged.
Proof.
  intros E Hin.
  destruct (mergeNearbyRegions_spec regions threshold)
    as (merged' & E' & _ & _ & HQ).
  rewrite E in E'. injection E' as <-.
  apply HQ; [|exact Hin].
  intros a b. apply inside_mergeRegions_least.
Qed.

(** ** The flood fill *)

Section FloodLoop.
Context (img : PNG).

Local Ltac by_popped IH :=
  match goal with
  | |- context [VisualDiffEngine.floodLoop _ img ?p] => exact (IH p)
  end.

Local Ltac unchanged :=
  split; [exact id|]; do 4 (split; [lia|]); split; [reflexivity|];
  intros ? ?; left; assumption.

(** What the loop keeps, whatever the fuel: the bounds only widen and stay
    on the image, [visited] only grows, and only by keys of diff pixels. *)
Lemma floodLoop_keeps (fuel : nat) :
  forall s,
    let s' := VisualDiffEngine.floodLoop fuel img s in
    (boxed img s -> boxed img s')
    /\ VisualDiffEngine.minX s' <= VisualDiffEngine.minX s
    /\ VisualDiffEngine.maxX s <= VisualDiffEngine.maxX s'
    /\ VisualDiffEngine.minY s' <= VisualDiffEngine.minY s
    /\ VisualDiffEngine.maxY s <= VisualDiffEngine.maxY s'
    /\ VisualDiffEngine.visited s ⊆ VisualDiffEngine.visited s'
    /\ (forall k, k ∈ VisualDiffEngine.visited s' ->
                  k ∈ VisualDiffEngine.visited s \/ diffPixelKey img k).
Proof.
  induction fuel as [|fuel IH]; intros s; cbv zeta.
  { cbn [VisualDiffEngine.floodLoop].
    destruct (VisualDiffEngine.stack s); unchanged. }
  cbn [VisualDiffEngine.floodLoop].
  destruct (VisualDiffEngine.stack s) as [|[px py] rest] eqn:Hs.
  { unchanged. }
  destruct (_ || _) eqn:Hout; [by_popped IH|].
  destruct (negb _) eqn:Hdiff; [by_popped IH|].
  apply negb_false_iff in Hdiff.
  repeat (apply orb_false_elim in Hout as [Hout ?]).
  assert (Hin : 0 <= px < pngWidth img /\ 0 <= py < pngHeight img) by lia.
  match goal with
  | |- context [VisualDiffEngine.floodLoop fuel img ?p] => set (pushed := p)
  end.
  assert (Hstep :
    (boxed img s -> boxed img pushed)
    /\ VisualDiffEngine.minX pushed <= VisualDiffEngine.minX s
    /\ VisualDiffEngine.maxX s <= VisualDiffEngine.maxX pushed
    /\ VisualDiffEngine.minY pushed <= VisualDiffEngine.minY s
    /\ VisualDiffEngine.maxY s <= VisualDiffEngine.maxY pushed
    /\ VisualDiffEngine.visited s ⊆ VisualDiffEngine.visited pushed
    /\ (forall k, k ∈ VisualDiffEngine.visited pushed ->
                  k ∈ VisualDiffEngine.visited s \/ diffPixelKey img k)).
  { unfold boxed, pushed. cbn.
    split; [lia|]. split; [lia|]. split; [lia|]. split; [lia|].
    split; [lia|]. split.
    - intros k Hk. apply elem_of_union. right. exact Hk.
    - intros k Hk. apply elem_of_union in Hk as [Hk | Hk]; [|left; exact Hk].
      apply elem_of_singleton in Hk. right. exists px, py.
      split; [lia|]. split; [lia|]. split; [exact Hk | exact Hdiff]. }
  destruct (100000 <? _); [exact Hstep|].
  destruct Hstep as (B & X1 & X2 & Y1 & Y2 & V & D).
  destruct (IH pushed) as (B' & X1' & X2' & Y1' & Y2' & V' & D').
  split; [auto|]. split; [lia|]. split; [lia|]. split; [lia|].
  split; [lia|]. split; [etransitivity; eassumption|].
  intros k Hk. destruct (D' k Hk) as [Hp | Hd]; [exact (D k Hp) | right; exact Hd].
Qed.

(** With fuel for the turns left, the loop ends by its own tests. *)
Lemma floodLoop_ends (fuel : nat) :
  forall s,
    (turnsLeft img s <= fuel)%nat ->
    let s' := VisualDiffEngine.floodLoop fuel img s in
    VisualDiffEngine.stack s' = []
    \/ 100000 < Z.of_nat (length (VisualDiffEngine.stack s')).
Proof.
  induction fuel as [|fuel IH]; intros s Hm; cbv zeta.
  - unfold turnsLeft in Hm. cbn [VisualDiffEngine.floodLoop].
    destruct (VisualDiffEngine.stack s) as [|p rest] eqn:Hs; [left; congruence|].
    cbn in Hm. lia.
  - cbn [VisualDiffEngine.floodLoop].
    destruct (VisualDiffEngine.stack s) as [|[px py] rest] eqn:Hs;
      [left; congruence|].
    unfold turnsLeft in Hm. rewrite Hs in Hm. cbn [length] in Hm.
    destruct (_ || _) eqn:Hout.
    { apply IH. unfold turnsLeft. cbn. lia. }
    destruct (negb _); [apply IH; unfold turnsLeft; cbn; lia|].
    destruct (100000 <? _) eqn:Hbig; [right; apply Z.ltb_lt, Hbig|].
    apply IH. unfold turnsLeft.
    cbn [VisualDiffEngine.visited VisualDiffEngine.stack length].
    repeat (apply orb_false_elim in Hout as [Hout ?]).
    assert (Hlt : (unmarkedCount img
                     ({[(py * pngWidth img + px)%Z]}
                      ∪ VisualDiffEngine.visited s)
                   < unmarkedCount img (VisualDiffEngine.visited s))%nat).
    { apply unmarkedCount_lt.
      - assert (0 <= px < pngWidth img /\ 0 <= py < pngHeight img) by lia.
        nia.
      - eapply bool_decide_eq_false_1. eassumption. }
    lia.
Qed.

End FloodLoop.

Lemma floodFillRegion_inside (img : PNG) (startX startY : Z) (seen seen' : gset Z)
    (region : BoundingBox) :
  0 <= startX < pngWidth img -> 0 <= startY < pngHeight img ->
  VisualDiffEngine.floodFillRegion img startX startY seen
  = (Some region, seen') ->
  inside region (imageBox img)
  /\ x region <= startX < x region + width region
  /\ y region <= startY < y region + height region.
Proof.
  intros Hx Hy. unfold VisualDiffEngine.floodFillRegion.
  match goal with
  | |- context [VisualDiffEngine.floodLoop ?f img ?s] =>
      destruct (floodLoop_keeps img f s) as (B & X1 & X2 & Y1 & Y2 & _);
      set (final := VisualDiffEngine.floodLoop f img s) in *
  end.
  cbn in X1, X2, Y1, Y2.
  destruct (VisualDiffEngine.pixelCount final <? 10); [discriminate|].
  intros [= <- _]. unfold inside, imageBox. cbn.
  assert (Hb : boxed img final).
  { apply B. unfold boxed. cbn. lia. }
  unfold boxed in Hb. lia.
Qed.

(** X18. A region [floodFillRegion] returns for a pixel of the image lies
    within the image and holds that pixel. *)
Theorem flood_fill_region_within_image (img : PNG) (startX startY : Z)
    (seen seen' : gset Z) (region : BoundingBox) :
  0 <= startX < pngWidth img -> 0 <= startY < pngHeight img ->
  VisualDiffEngine.floodFillRegion img startX startY seen
  = (Some region, seen') ->
  inside region (imageBox img)
  /\ x region <= startX < x region + width region
  /\ y region <= startY < y region + height region.
Proof. apply floodFillRegion_inside. Qed.

(** X19. [floodFillRegion] forgets no visited pixel, and marks none but
    diff pixels of the image. *)
Theorem flood_fill_marks_only_diff_pixels (img : PNG) (startX startY : Z)
    (seen : gset Z) :
  let seen' := snd (VisualDiffEngine.floodFillRegion img startX startY seen) in
  seen ⊆ seen'
  /\ forall k, k ∈ seen' -> k ∈ seen \/ diffPixelKey img k.
Proof.
  unfold VisualDiffEngine.floodFillRegion. cbn [snd].
  match goal with
  | |- context [VisualDiffEngine.floodLoop ?f img ?s] =>
      destruct (floodLoop_keeps img f s) as (_ & _ & _ & _ & _ & V & D)
  end.
  split; [exact V | exact D].
Qed.

(** X20. The loop of [floodFillRegion] ends by its own tests within
    [4 * width * height + 1] turns: it stops on an empty stack or on a
    stack of more than 100000 frames. *)
Theorem flood_fill_ends (img : PNG) (startX startY : Z) (seen : gset Z) :
  0 <= pngWidth img -> 0 <= pngHeight img ->
  let final :=
    VisualDiffEngine.floodLoop
      (Z.to_nat (4 * pngWidth img * pngHeight img + 1)) img
      {| VisualDiffEngine.stack := [(startX, startY)];
         VisualDiffEngine.visited := seen;
         VisualDiffEngine.minX := startX; VisualDiffEngine.maxX := startX;
         VisualDiffEngine.minY := startY; VisualDiffEngine.maxY := startY;
         VisualDiffEngine.pixelCount := 0 |} in
  VisualDiffEngine.stack final = []
  \/ 100000 < Z.of_nat (length (VisualDiffEngine.stack final)).
Proof.
  intros Hw Hh. apply floodLoop_ends.
  unfold turnsLeft. cbn.
  pose proof (unmarkedCount_le img seen). nia.
Qed.

(** ** The scan for diff areas *)

Lemma elem_of_pixelsOf (w h px py : Z) :
  (px, py) ∈ VisualDiffEngine.pixelsOf w h -> 0 <= px < w /\ 0 <= py < h.
Proof.
  unfold VisualDiffEngine.pixelsOf. intros H.
  apply list_elem_of_bind in H as (y0 & H & Hy).
  apply list_elem_of_bind in H as (x0 & H & Hx).
  apply list_elem_of_singleton in H. injection H as -> ->.
  apply elem_of_seqZ in Hx, Hy. lia.
Qed.

Lemma foldl_scanPixel_inside (img : PNG) (l : list (Z * Z)) :
  Forall (fun p => 0 <= p.1 < pngWidth img /\ 0 <= p.2 < pngHeight img) l ->
  forall acc,
    Forall (fun r => inside r (imageBox img)) acc.1 ->
    Forall (fun r => inside r (imageBox img))
      (foldl (VisualDiffEngine.scanPixel img) acc l).1.
Proof.
  induction 1 as [|[px py] l [Hx Hy] Hl IH]; intros acc Hacc; [exact Hacc|].
  cbn [foldl]. apply IH. unfold VisualDiffEngine.scanPixel.
  destruct (_ && _); [|exact Hacc].
  destruct (VisualDiffEngine.floodFillRegion img px py acc.2)
    as [[region|] seen'] eqn:E; [|exact Hacc].
  cbn [fst]. apply Forall_app. split; [exact Hacc|].
  constructor; [|constructor].
  exact (proj1 (floodFillRegion_inside img px py _ _ _ Hx Hy E)).
Qed.

Lemma findDiffAreas_inside (img : PNG) (mismatchedPixels : Z) :
  exists areas,
    VisualDiffEngine.findDiffAreas img mismatchedPixels = Some areas
    /\ Forall (fun r => inside r (imageBox img)) areas.
Proof.
  unfold VisualDiffEngine.findDiffAreas.
  destruct (mismatchedPixels =? 0); [exists []; split; [reflexivity|constructor]|].
  match goal with
  | |- context [VisualDiffEngine.mergeNearbyRegions ?a ?t] =>
      destruct (mergeNearbyRegions_spec a t) as (merged & E & _ & _ & HQ);
      assert (Ha : Forall (fun r => inside r (imageBox img)) a)
  end.
  { apply foldl_scanPixel_inside; [|constructor].
    apply Forall_forall. intros [px py] Hp. cbn.
    exact (elem_of_pixelsOf _ _ _ _ Hp). }
  exists merged. split; [exact E|].
  apply HQ; [|exact Ha].
  intros a b. apply inside_mergeRegions_least.
Qed.

(** X21. [findDiffAreas] always returns, and every area it returns lies
    within the diff image. *)
Theorem diff_areas_lie_within_image (img : PNG) (mismatchedPixels : Z) :
  exists areas,
    VisualDiffEngine.findDiffAreas img mismatchedPixels = Some areas
    /\ Forall (fun r => inside r (imageBox img)) areas.
Proof. apply findDiffAreas_inside. Qed.

(** ** Buffers *)

Lemma shl2_small (v : Z) :
  0 <= v -> 4 * v < 2147483648 -> VisualDiffEngine.shl2 v = 4 * v.
Proof.
  intros H0 H1. unfold VisualDiffEngine.shl2.
  rewrite Z.mod_small by lia. lia.
Qed.

Lemma length_setByte (bytes : list Z) (i v : Z) :
  length (VisualDiffEngine.setByte bytes i v) = length bytes.
Proof.
  unfold VisualDiffEngine.setByte. destruct (i <? 0); [reflexivity|].
  apply length_insert.
Qed.

Lemma byteAt_setByte_same (bytes : list Z) (i v : Z) :
  0 <= i < Z.of_nat (length bytes) ->
  VisualDiffEngine.byteAt (VisualDiffEngine.setByte bytes i v) i = Some v.
Proof.
  intros Hi. unfold VisualDiffEngine.byteAt, VisualDiffEngine.setByte.
  destruct (i <? 0) eqn:E; [lia|].
  apply list_lookup_insert_eq. lia.
Qed.

Lemma byteAt_setByte_other (bytes : list Z) (i j v : Z) :
  i <> j ->
  VisualDiffEngine.byteAt (VisualDiffEngine.setByte bytes i v) j
  = VisualDiffEngine.byteAt bytes j.
Proof.
  intros Hij. unfold VisualDiffEngine.byteAt, VisualDiffEngine.setByte.
  destruct (j <? 0) eqn:Ej; [reflexivity|].
  destruct (i <? 0) eqn:Ei; [reflexivity|].
  apply list_lookup_insert_ne. lia.
Qed.

Lemma byteAt_in_range (bytes : list Z) (i : Z) :
  0 <= i < Z.of_nat (length bytes) ->
  Some (default 0 (VisualDiffEngine.byteAt bytes i))
  = VisualDiffEngine.byteAt bytes i.
Proof.
  intros Hi. unfold VisualDiffEngine.byteAt.
  destruct (i <? 0) eqn:E; [lia|].
  destruct (lookup_lt_is_Some_2 bytes (Z.to_nat i)) as [v ->]; [lia|].
  reflexivity.
Qed.

(** A loop that writes, for each of its items [p], the four bytes
    [f p 0 .. f p 3] at [d p]. *)
Section Writes.
Context {P : Type} `{EqDecision P}.
Context (step : list Z -> P -> list Z) (d : P -> Z) (f : P -> Z -> Z).
Context (ok : P -> Prop).
Hypothesis step_length : forall b p, length (step b p) = length b.
Hypothesis step_other :
  forall b p j, j < d p \/ d p + 3 < j ->
    VisualDiffEngine.byteAt (step b p) j = VisualDiffEngine.byteAt b j.
Hypothesis step_same :
  forall b p k, ok p -> 0 <= d p -> d p + 3 < Z.of_nat (length b) ->
    0 <= k < 4 ->
    VisualDiffEngine.byteAt (step b p) (d p + k) = Some (f p k).

Lemma foldl_writes_length (ps : list P) :
  forall b, length (foldl step b ps) = length b.
Proof.
  induction ps as [|p ps IH]; intros b; [reflexivity|].
  cbn [foldl]. rewrite IH. apply step_length.
Qed.

Lemma foldl_writes_other (ps : list P) (j : Z) :
  (forall p, p ∈ ps -> j < d p \/ d p + 3 < j) ->
  forall b,
    VisualDiffEngine.byteAt (foldl step b ps) j = VisualDiffEngine.byteAt b j.
Proof.
  induction ps as [|p ps IH]; intros Hout b; [reflexivity|].
  cbn [foldl]. rewrite IH.
  - apply step_other, Hout. left.
  - intros q Hq. apply Hout. right. exact Hq.
Qed.

Lemma foldl_writes_same (ps : list P) (q : P) (k : Z) :
  q ∈ ps -> 0 <= k < 4 ->
  (forall p, p ∈ ps -> p <> q -> d p + 3 < d q \/ d q + 3 < d p) ->
  forall b,
    (forall p, p ∈ ps -> ok p /\ 0 <= d p /\ d p + 3 < Z.of_nat (length b)) ->
    VisualDiffEngine.byteAt (foldl step b ps) (d q + k) = Some (f q k).
Proof.
  intros Hq Hk. induction ps as [|p ps IH]; intros Hdis b Hin;
    [inversion Hq|].
  cbn [foldl].
  destruct (decide (q ∈ ps)) as [Hq' | Hq'].
  - apply IH; [exact Hq'| |].
    + intros p' Hp'. apply Hdis. right. exact Hp'.
    + intros p' Hp'. rewrite step_length. apply Hin. right. exact Hp'.
  - apply elem_of_cons in Hq as [-> | Hq]; [|contradiction].
    rewrite foldl_writes_other.
    + destruct (Hin p) as (Hok & H0 & H3); [left|].
      apply step_same; assumption.
    + intros p' Hp'.
      assert (Hne : p' <> p) by (intros ->; contradiction).
      destruct (Hdis p' ltac:(right; exact Hp') Hne); lia.
Qed.

End Writes.

(** The write of one pixel, as [resizeImage] and [copyImageTo] spell it. *)
Lemma write4_spec (bytes : list Z) (idx v0 v1 v2 v3 : Z) :
  let b' :=
    VisualDiffEngine.setByte
      (VisualDiffEngine.setByte
         (VisualDiffEngine.setByte
            (VisualDiffEngine.setByte bytes idx v0) (idx + 1) v1)
         (idx + 2) v2)
      (idx + 3) v3 in
  length b' = length bytes
  /\ (forall j, j < idx \/ idx + 3 < j ->
        VisualDiffEngine.byteAt b' j = VisualDiffEngine.byteAt bytes j)
  /\ (0 <= idx -> idx + 3 < Z.of_nat (length bytes) ->
      VisualDiffEngine.byteAt b' (idx + 0) = Some v0
      /\ VisualDiffEngine.byteAt b' (idx + 1) = Some v1
      /\ VisualDiffEngine.byteAt b' (idx + 2) = Some v2
      /\ VisualDiffEngine.byteAt b' (idx + 3) = Some v3).
Proof.
  cbv zeta. split; [rewrite !length_setByte; reflexivity|]. split.
  - intros j Hj. rewrite !byteAt_setByte_other by lia. reflexivity.
  - intros H0 H3. rewrite Z.add_0_r. repeat split.
    + rewrite !byteAt_setByte_other by lia.
      apply byteAt_setByte_same. lia.
    + rewrite !byteAt_setByte_other by lia.
      apply byteAt_setByte_same. rewrite length_setByte. lia.
    + rewrite !byteAt_setByte_other by lia.
      apply byteAt_setByte_same. rewrite !length_setByte. lia.
    + apply byteAt_setByte_same. rewrite !length_setByte. lia.
Qed.

Lemma pixelsOf_elem (w h px py : Z) :
  0 <= px < w -> 0 <= py < h -> (px, py) ∈ VisualDiffEngine.pixelsOf w h.
Proof.
  intros Hx Hy. unfold VisualDiffEngine.pixelsOf.
  apply list_elem_of_bind. exists py. split; [|apply elem_of_seqZ; lia].
  apply list_elem_of_bind. exists px. split; [|apply elem_of_seqZ; lia].
  apply list_elem_of_singleton. reflexivity.
Qed.

(** Different pixels of a row-major image are four bytes apart. *)
Lemma pixels_apart (w x1 y1 x2 y2 : Z) :
  0 <= x1 < w -> 0 <= x2 < w -> (x1, y1) <> (x2, y2) ->
  4 * (w * y1 + x1) + 3 < 4 * (w * y2 + x2)
  \/ 4 * (w * y2 + x2) + 3 < 4 * (w * y1 + x1).
Proof.
  intros H1 H2 Hne.
  destruct (Z.lt_trichotomy y1 y2) as [Hy | [Hy | Hy]].
  - left. nia.
  - subst y2. assert (x1 <> x2) by congruence. lia.
  - right. nia.
Qed.

(** ** Resizing *)

Section Resize.
Context (img : PNG) (W H : Z).
Hypothesis img_sized : wellSized img.
Hypothesis wider : pngWidth img <= W.
Hypothesis taller : pngHeight img <= H.
Hypothesis no_wrap : 4 * W * H < 2147483648.

Lemma resized_byte (px py k : Z) :
  (pngWidth img =? W) && (pngHeight img =? H) = false ->
  0 <= px < W -> 0 <= py < H -> 0 <= k < 4 ->
  VisualDiffEngine.byteAt (data (VisualDiffEngine.resizeImage img W H))
    (4 * (W * py + px) + k)
  = if (px <? pngWidth img) && (py <? pngHeight img)
    then VisualDiffEngine.byteAt (data img) (4 * (pngWidth img * py + px) + k)
    else Some 255.
Proof.
  intros Hne Hx Hy Hk. destruct img_sized as (Hw0 & Hh0 & Hlen).
  unfold VisualDiffEngine.resizeImage. rewrite Hne. cbv zeta. cbn [data].
  rewrite (Z.min_l _ _ wider), (Z.min_l _ _ taller).
  match goal with
  | |- VisualDiffEngine.byteAt (foldl ?s2 (foldl ?s1 ?b0 ?ps1) ?ps2) _ = _ =>
      set (copy := s2); set (fill := s1); set (blank := b0)
  end.
  set (d := fun p : Z * Z => VisualDiffEngine.shl2 (W * p.2 + p.1)).
  assert (Hd : forall qx qy, 0 <= qx < W -> 0 <= qy < H ->
                 d (qx, qy) = 4 * (W * qy + qx)
                 /\ 0 <= d (qx, qy)
                 /\ d (qx, qy) + 3 < Z.of_nat (length blank)).
  { intros qx qy Hqx Hqy. unfold d. cbn [fst snd].
    rewrite shl2_small by nia.
    unfold blank, VisualDiffEngine.newPNG. cbn [data].
    rewrite length_replicate. nia. }
  assert (Hfill_len : forall b p, length (fill b p) = length b).
  { intros b [qx qy]. apply write4_spec. }
  assert (Hfill_other : forall b p j, j < d p \/ d p + 3 < j ->
            VisualDiffEngine.byteAt (fill b p) j = VisualDiffEngine.byteAt b j).
  { intros b [qx qy] j. apply write4_spec. }
  assert (Hcopy_len : forall b p, length (copy b p) = length b).
  { intros b [qx qy]. apply write4_spec. }
  assert (Hcopy_other : forall b p j, j < d p \/ d p + 3 < j ->
            VisualDiffEngine.byteAt (copy b p) j = VisualDiffEngine.byteAt b j).
  { intros b [qx qy] j. apply write4_spec. }
  replace (4 * (W * py + px)) with (d (px, py))
    by (apply (Hd px py Hx Hy)).
  destruct ((px <? pngWidth img) && (py <? pngHeight img)) eqn:Hins.
  - apply andb_prop in Hins as [Hpx Hpy].
    apply Z.ltb_lt in Hpx, Hpy.
    rewrite (foldl_writes_same copy d
               (fun p k =>
                  default 0
                    (VisualDiffEngine.byteAt (data img)
                       (VisualDiffEngine.shl2 (pngWidth img * p.2 + p.1) + k)))
               (fun _ => True) Hcopy_len Hcopy_other).
    + cbn [fst snd]. rewrite shl2_small by nia.
      apply byteAt_in_range. rewrite Hlen. nia.
    + intros b [qx qy] k' _ H0 H3 Hk'. cbn [fst snd].
      destruct (write4_spec b (d (qx, qy))
                  (default 0 (VisualDiffEngine.byteAt (data img)
                     (VisualDiffEngine.shl2 (pngWidth img * qy + qx) + 0)))
                  (default 0 (VisualDiffEngine.byteAt (data img)
                     (VisualDiffEngine.shl2 (pngWidth img * qy + qx) + 1)))
                  (default 0 (VisualDiffEngine.byteAt (data img)
                     (VisualDiffEngine.shl2 (pngWidth img * qy + qx) + 2)))
                  (default 0 (VisualDiffEngine.byteAt (data img)
                     (VisualDiffEngine.shl2 (pngWidth img * qy + qx) + 3))))
        as (_ & _ & Hs).
      destruct (Hs H0 H3) as (S0 & S1 & S2 & S3).
      assert (Hc : k' = 0 \/ k' = 1 \/ k' = 2 \/ k' = 3) by lia.
      destruct Hc as [-> | [-> | [-> | ->]]]; assumption.
    + apply pixelsOf_elem; lia.
    + exact Hk.
    + intros [qx qy] Hq Hneq. apply elem_of_pixelsOf in Hq as [Hqx Hqy].
      rewrite (proj1 (Hd qx qy ltac:(lia) ltac:(lia))).
      rewrite (proj1 (Hd px py Hx Hy)).
      apply pixels_apart; [lia | lia | exact Hneq].
    + intros [qx qy] Hq. apply elem_of_pixelsOf in Hq as [Hqx Hqy].
      split; [exact I|].
      rewrite (foldl_writes_length fill Hfill_len).
      apply (Hd qx qy); lia.
  - rewrite (foldl_writes_other copy d Hcopy_other).
    2:{ intros [qx qy] Hq. apply elem_of_pixelsOf in Hq as [Hqx Hqy].
        assert (Hneq : (qx, qy) <> (px, py)).
        { intros [= -> ->].
          apply andb_false_iff in Hins as [Hf | Hf];
            apply Z.ltb_ge in Hf; lia. }
        rewrite (proj1 (Hd qx qy ltac:(lia) ltac:(lia))).
        rewrite (proj1 (Hd px py Hx Hy)).
        destruct (pixels_apart W qx qy px py ltac:(lia) ltac:(lia) Hneq); lia. }
    apply (foldl_writes_same fill d (fun _ _ => 255) (fun _ => True)
             Hfill_len Hfill_other).
    + intros b [qx qy] k' _ H0 H3 Hk'.
      destruct (write4_spec b (d (qx, qy)) 255 255 255 255) as (_ & _ & Hs).
      destruct (Hs H0 H3) as (S0 & S1 & S2 & S3).
      assert (Hc : k' = 0 \/ k' = 1 \/ k' = 2 \/ k' = 3) by lia.
      destruct Hc as [-> | [-> | [-> | ->]]]; assumption.
    + apply pixelsOf_elem; lia.
    + exact Hk.
    + intros [qx qy] Hq Hneq. apply elem_of_pixelsOf in Hq as [Hqx Hqy].
      rewrite (proj1 (Hd qx qy ltac:(lia) ltac:(lia))).
      rewrite (proj1 (Hd px py Hx Hy)).
      apply pixels_apart; [lia | lia | exact Hneq].
    + intros [qx qy] Hq. apply elem_of_pixelsOf in Hq as [Hqx Hqy].
      split; [exact I|]. apply (Hd qx qy); lia.
Qed.

Lemma resizeImage_sized :
  pngWidth (VisualDiffEngine.resizeImage img W H) = W
  /\ pngHeight (VisualDiffEngine.resizeImage img W H) = H
  /\ wellSized (VisualDiffEngine.resizeImage img W H).
Proof.
  destruct img_sized as (Hw0 & Hh0 & Hlen).
  unfold VisualDiffEngine.resizeImage.
  destruct ((pngWidth img =? W) && (pngHeight img =? H)) eqn:E.
  - apply andb_prop in E as [Ew Eh]. apply Z.eqb_eq in Ew, Eh.
    split; [exact Ew|]. split; [exact Eh|]. exact img_sized.
  - cbv zeta. split; [reflexivity|]. split; [reflexivity|].
    unfold wellSized. cbn [pngWidth pngHeight data].
    split; [lia|]. split; [lia|].
    rewrite foldl_writes_length by (intros b [qx qy]; apply write4_spec).
    rewrite foldl_writes_length by (intros b [qx qy]; apply write4_spec).
    cbn. apply length_replicate.
Qed.

Lemma resizeImage_pixel (px py : Z) :
  0 <= px < W -> 0 <= py < H ->
  pixel (VisualDiffEngine.resizeImage img W H) px py
  = if (px <? pngWidth img) && (py <? pngHeight img)
    then pixel img px py else white.
Proof.
  intros Hx Hy.
  destruct ((pngWidth img =? W) && (pngHeight img =? H)) eqn:E.
  - unfold VisualDiffEngine.resizeImage. rewrite E.
    apply andb_prop in E as [Ew Eh]. apply Z.eqb_eq in Ew, Eh.
    replace ((px <? pngWidth img) && (py <? pngHeight img)) with true;
      [reflexivity|].
    symmetry. apply andb_true_intro. split; apply Z.ltb_lt; lia.
  - unfold pixel. cbn [map].
    rewrite (proj1 resizeImage_sized).
    rewrite !(resized_byte px py _ E Hx Hy) by lia.
    destruct ((px <? pngWidth img) && (py <? pngHeight img)); reflexivity.
Qed.

End Resize.

(** ** Copies *)

Section Copy.
Context (target source : PNG) (offsetX offsetY : Z).
Hypothesis target_sized : wellSized target.
Hypothesis source_sized : wellSized source.
Hypothesis right_of_origin : 0 <= offsetX.
Hypothesis below_origin : 0 <= offsetY.
Hypothesis fits_across : offsetX + pngWidth source <= pngWidth target.
Hypothesis fits_down : offsetY + pngHeight source <= pngHeight target.
Hypothesis no_wrap : 4 * pngWidth target * pngHeight target < 2147483648.

Lemma copyImageTo_sized : wellSized (copyImageTo target source offsetX offsetY).
Proof.
  destruct target_sized as (Hw & Hh & Hlen).
  unfold wellSized, copyImageTo. cbn [pngWidth pngHeight data].
  split; [exact Hw|]. split; [exact Hh|].
  rewrite foldl_writes_length; [exact Hlen|].
  intros b [qx qy]. destruct (_ && _); [apply write4_spec | reflexivity].
Qed.

Lemma copied_byte (px py k : Z) :
  0 <= px < pngWidth target -> 0 <= py < pngHeight target -> 0 <= k < 4 ->
  VisualDiffEngine.byteAt (data (copyImageTo target source offsetX offsetY))
    (4 * (pngWidth target * py + px) + k)
  = if (offsetX <=? px) && (px <? offsetX + pngWidth source)
       && (offsetY <=? py) && (py <? offsetY + pngHeight source)
    then VisualDiffEngine.byteAt (data source)
           (4 * (pngWidth source * (py - offsetY) + (px - offsetX)) + k)
    else VisualDiffEngine.byteAt (data target)
           (4 * (pngWidth target * py + px) + k).
Proof.
  intros Hx Hy Hk.
  destruct target_sized as (Htw & Hth & Htlen).
  destruct source_sized as (Hsw & Hsh & Hslen).
  unfold copyImageTo. cbn [data].
  match goal with
  | |- VisualDiffEngine.byteAt (foldl ?s _ _) _ = _ => set (copy := s)
  end.
  set (d := fun p : Z * Z =>
              VisualDiffEngine.shl2
                (pngWidth target * (p.2 + offsetY) + (p.1 + offsetX))).
  assert (Hd : forall qx qy, 0 <= qx < pngWidth source ->
                 0 <= qy < pngHeight source ->
                 d (qx, qy)
                 = 4 * (pngWidth target * (qy + offsetY) + (qx + offsetX))
                 /\ 0 <= d (qx, qy)
                 /\ d (qx, qy) + 3 < Z.of_nat (length (data target))).
  { intros qx qy Hqx Hqy. unfold d. cbn [fst snd].
    rewrite shl2_small by nia. rewrite Htlen. nia. }
  assert (Hcopy_len : forall b p, length (copy b p) = length b).
  { intros b [qx qy]. unfold copy.
    destruct (_ && _); [apply write4_spec | reflexivity]. }
  assert (Hcopy_other : forall b p j, j < d p \/ d p + 3 < j ->
            VisualDiffEngine.byteAt (copy b p) j = VisualDiffEngine.byteAt b j).
  { intros b [qx qy] j. unfold copy.
    destruct (_ && _); [apply write4_spec | reflexivity]. }
  destruct ((offsetX <=? px) && (px <? offsetX + pngWidth source)
            && (offsetY <=? py) && (py <? offsetY + pngHeight source))
    eqn:Hins.
  - repeat (apply andb_prop in Hins as [Hins ?]).
    assert (Hqx : 0 <= px - offsetX < pngWidth source) by lia.
    assert (Hqy : 0 <= py - offsetY < pngHeight source) by lia.
    replace (4 * (pngWidth target * py + px))
      with (d (px - offsetX, py - offsetY)).
    2:{ rewrite (proj1 (Hd _ _ Hqx Hqy)). f_equal. f_equal; [f_equal|]; lia. }
    rewrite (foldl_writes_same copy d
               (fun p k =>
                  default 0
                    (VisualDiffEngine.byteAt (data source)
                       (VisualDiffEngine.shl2 (pngWidth source * p.2 + p.1)
                        + k)))
               (fun p => 0 <= p.1 < pngWidth source
                         /\ 0 <= p.2 < pngHeight source)
               Hcopy_len Hcopy_other).
    + cbn [fst snd]. rewrite shl2_small by nia.
      apply byteAt_in_range. rewrite Hslen. nia.
    + intros b [qx qy] k' [Hpx Hpy] Hd0 Hd3 Hk'. cbn [fst snd] in *.
      unfold copy.
      replace ((qx + offsetX <? pngWidth target)
               && (qy + offsetY <? pngHeight target)) with true.
      2:{ symmetry. apply andb_true_intro. split; apply Z.ltb_lt; lia. }
      cbv zeta.
      destruct (write4_spec b (d (qx, qy))
                  (default 0 (VisualDiffEngine.byteAt (data source)
                     (VisualDiffEngine.shl2 (pngWidth source * qy + qx) + 0)))
                  (default 0 (VisualDiffEngine.byteAt (data source)
                     (VisualDiffEngine.shl2 (pngWidth source * qy + qx) + 1)))
                  (default 0 (VisualDiffEngine.byteAt (data source)
                     (VisualDiffEngine.shl2 (pngWidth source * qy + qx) + 2)))
                  (default 0 (VisualDiffEngine.byteAt (data source)
                     (VisualDiffEngine.shl2 (pngWidth source * qy + qx) + 3))))
        as (_ & _ & Hs).
      destruct (Hs Hd0 Hd3) as (S0 & S1 & S2 & S3).
      assert (Hc : k' = 0 \/ k' = 1 \/ k' = 2 \/ k' = 3) by lia.
      destruct Hc as [-> | [-> | [-> | ->]]]; assumption.
    + apply pixelsOf_elem; lia.
    + exact Hk.
    + intros [qx qy] Hq Hneq. apply elem_of_pixelsOf in Hq as [Hqx' Hqy'].
      rewrite (proj1 (Hd qx qy ltac:(lia) ltac:(lia))).
      rewrite (proj1 (Hd _ _ Hqx Hqy)).
      apply pixels_apart; [lia | lia |].
      intros [= E1 E2]. apply Hneq. f_equal; lia.
    + intros [qx qy] Hq. apply elem_of_pixelsOf in Hq as [Hqx' Hqy'].
      split; [cbn; lia|]. apply (Hd qx qy); lia.
  - apply (foldl_writes_other copy d Hcopy_other).
    intros [qx qy] Hq. apply elem_of_pixelsOf in Hq as [Hqx Hqy].
    assert (Hneq : (qx + offsetX, qy + offsetY) <> (px, py)).
    { intros [= <- <-].
      repeat (apply andb_false_iff in Hins as [Hins | Hins]);
        first [apply Z.ltb_ge in Hins | apply Z.leb_gt in Hins]; lia. }
    rewrite (proj1 (Hd qx qy ltac:(lia) ltac:(lia))).
    destruct (pixels_apart (pngWidth target) (qx + offsetX) (qy + offsetY)
                px py ltac:(lia) ltac:(lia) Hneq); lia.
Qed.

Lemma copyImageTo_pixel (px py : Z) :
  0 <= px < pngWidth target -> 0 <= py < pngHeight target ->
  pixel (copyImageTo target source offsetX offsetY) px py
  = if (offsetX <=? px) && (px <? offsetX + pngWidth source)
       && (offsetY <=? py) && (py <? offsetY + pngHeight source)
    then pixel source (px - offsetX) (py - offsetY)
    else pixel target px py.
Proof.
  intros Hx Hy. unfold pixel. cbn [map].
  change (pngWidth (copyImageTo target source offsetX offsetY))
    with (pngWidth target).
  rewrite !(copied_byte px py _ Hx Hy) by lia.
  destruct (_ && _); reflexivity.
Qed.

End Copy.

(** ** The side-by-side image *)

Lemma fillLightGray_length (bytes : list Z) :
  length (fillLightGray bytes) = length bytes.
Proof.
  unfold fillLightGray. apply foldl_writes_length.
  intros b n. apply write4_spec.
Qed.

Lemma fillLightGray_byte (bytes : list Z) (n i k : Z) :
  length bytes = Z.to_nat (4 * n) -> 0 <= i < n -> 0 <= k < 4 ->
  VisualDiffEngine.byteAt (fillLightGray bytes) (4 * i + k)
  = Some (if k =? 3 then 255 else 245).
Proof.
  intros Hlen Hi Hk. unfold fillLightGray.
  replace ((Z.of_nat (length bytes) + 3) / 4) with n.
  2:{ rewrite Hlen, Z2Nat.id by lia.
      replace (4 * n + 3) with (3 + n * 4) by lia.
      rewrite Z.div_add by lia. reflexivity. }
  match goal with
  | |- VisualDiffEngine.byteAt (foldl ?s _ _) _ = _ => set (fill := s)
  end.
  apply (foldl_writes_same fill (fun m => 4 * m)
           (fun _ k => if k =? 3 then 255 else 245) (fun _ => True)).
  - intros b m. apply write4_spec.
  - intros b m j. apply write4_spec.
  - intros b m k' _ H0 H3 Hk'.
    destruct (write4_spec b (4 * m) 245 245 245 255) as (_ & _ & Hs).
    destruct (Hs H0 H3) as (S0 & S1 & S2 & S3).
    assert (Hc : k' = 0 \/ k' = 1 \/ k' = 2 \/ k' = 3) by lia.
    destruct Hc as [-> | [-> | [-> | ->]]]; assumption.
  - apply elem_of_seqZ. lia.
  - exact Hk.
  - intros m Hm Hne. lia.
  - intros m Hm. apply elem_of_seqZ in Hm. split; [exact I|]. lia.
Qed.

Lemma lightGrayCanvas_sized (w h : Z) :
  0 <= w -> 0 <= h -> wellSized (lightGrayCanvas w h).
Proof.
  intros Hw Hh. unfold wellSized, lightGrayCanvas.
  cbn [pngWidth pngHeight data].
  split; [exact Hw|]. split; [exact Hh|].
  rewrite fillLightGray_length. cbn. apply length_replicate.
Qed.

Lemma lightGrayCanvas_pixel (w h px py : Z) :
  0 <= px < w -> 0 <= py < h ->
  pixel (lightGrayCanvas w h) px py = lightGray.
Proof.
  intros Hx Hy. unfold pixel, lightGray, lightGrayCanvas.
  cbn [map pngWidth data].
  rewrite !(fillLightGray_byte _ (w * h)); try lia;
    try nia; try reflexivity.
  all: cbn; rewrite length_replicate; f_equal; lia.
Qed.

Section SideBySide.
Context (img1 img2 diff : PNG).
Hypothesis img1_sized : wellSized img1.
Hypothesis img2_sized : wellSized img2.
Hypothesis diff_sized : wellSized diff.
Hypothesis no_wrap :
  4 * (pngWidth img1 + pngWidth img2 + pngWidth diff + 20)
  * Z.max (Z.max (pngHeight img1) (pngHeight img2)) (pngHeight diff)
  < 2147483648.

Lemma sideBySide_pixel (px py : Z) :
  0 <= px < pngWidth img1 + pngWidth img2 + pngWidth diff + 20 ->
  0 <= py < Z.max (Z.max (pngHeight img1) (pngHeight img2)) (pngHeight diff) ->
  pixel (sideBySide img1 img2 diff) px py
  = if (px <? pngWidth img1) && (py <? pngHeight img1)
    then pixel img1 px py
    else if (pngWidth img1 + 10 <=? px)
            && (px <? pngWidth img1 + 10 + pngWidth img2)
            && (py <? pngHeight img2)
    then pixel img2 (px - (pngWidth img1 + 10)) py
    else if (pngWidth img1 + pngWidth img2 + 20 <=? px)
            && (py <? pngHeight diff)
    then pixel diff (px - (pngWidth img1 + pngWidth img2 + 20)) py
    else lightGray.
Proof.
  intros Hx Hy.
  destruct img1_sized as (Hw1 & Hh1 & _), img2_sized as (Hw2 & Hh2 & _),
    diff_sized as (Hwd & Hhd & _).
  unfold sideBySide. cbv zeta.
  set (totalWidth := pngWidth img1 + pngWidth img2 + pngWidth diff + 20) in *.
  set (maxHeight :=
         Z.max (Z.max (pngHeight img1) (pngHeight img2)) (pngHeight diff)) in *.
  set (canvas := lightGrayCanvas totalWidth maxHeight).
  assert (Hc : wellSized canvas)
    by (apply lightGrayCanvas_sized; unfold totalWidth, maxHeight; lia).
  assert (H1 : wellSized (copyImageTo canvas img1 0 0))
    by (apply copyImageTo_sized; exact Hc).
  assert (H2 : wellSized
                 (copyImageTo (copyImageTo canvas img1 0 0) img2
                    (pngWidth img1 + 10) 0))
    by (apply copyImageTo_sized; exact H1).
  rewrite copyImageTo_pixel;
    try assumption; try (cbn [pngWidth pngHeight copyImageTo canvas
                              lightGrayCanvas];
                         unfold totalWidth, maxHeight in *; lia).
  rewrite copyImageTo_pixel;
    try assumption; try (cbn [pngWidth pngHeight copyImageTo canvas
                              lightGrayCanvas];
                         unfold totalWidth, maxHeight in *; lia).
  rewrite copyImageTo_pixel;
    try assumption; try (cbn [pngWidth pngHeight copyImageTo canvas
                              lightGrayCanvas];
                         unfold totalWidth, maxHeight in *; lia).
  unfold canvas. rewrite lightGrayCanvas_pixel by assumption.
  rewrite !Z.sub_0_r.
  unfold totalWidth in Hx.
  repeat match goal with
         | |- context [if ?c then _ else _] => destruct c eqn:?
         end;
    try reflexivity; exfalso;
    repeat match goal with
           | H : _ && _ = true |- _ => apply andb_prop in H as [? ?]
           end;
    repeat match goal with
           | H : _ && _ = false |- _ => apply andb_false_iff in H as [H | H]
           end;
    repeat match goal with
           | H : (_ <? _) = true |- _ => apply Z.ltb_lt in H
           | H : (_ <? _) = false |- _ => apply Z.ltb_ge in H
           | H : (_ <=? _) = true |- _ => apply Z.leb_le in H
           | H : (_ <=? _) = false |- _ => apply Z.leb_gt in H
           end;
    lia.
Qed.

End SideBySide.

(** X22. [resizeImage] does not scale: on a larger canvas the image keeps
    its pixels where they were, from the top left corner, and the rest of
    the canvas is white. The canvas must be small enough for [<< 2] not to
    wrap around. *)
Theorem resize_keeps_pixels_and_pads_white (img : PNG) (W H px py : Z) :
  wellSized img -> pngWidth img <= W -> pngHeight img <= H ->
  4 * W * H < 2147483648 ->
  0 <= px < W -> 0 <= py < H ->
  pixel (VisualDiffEngine.resizeImage img W H) px py
  = if (px <? pngWidth img) && (py <? pngHeight img)
    then pixel img px py else white.
Proof. intros. apply resizeImage_pixel; assumption. Qed.

(** X23. [normalizeImageSizes] returns two images of one size, the larger
    width by the larger height, each with a buffer of that size — what
    pixelmatch asks of its inputs. *)
Theorem normalised_images_share_one_size (img1 img2 : PNG) :
  wellSized img1 -> wellSized img2 ->
  exists r1 r2,
    VisualDiffEngine.normalizeImageSizes img1 img2
    = (Z.max (pngWidth img1) (pngWidth img2),
       Z.max (pngHeight img1) (pngHeight img2), r1, r2)
    /\ pngWidth r1 = Z.max (pngWidth img1) (pngWidth img2)
    /\ pngHeight r1 = Z.max (pngHeight img1) (pngHeight img2)
    /\ pngWidth r2 = Z.max (pngWidth img1) (pngWidth img2)
    /\ pngHeight r2 = Z.max (pngHeight img1) (pngHeight img2)
    /\ wellSized r1 /\ wellSized r2
    /\ length (data r1) = length (data r2).
Proof.
  intros H1 H2. unfold VisualDiffEngine.normalizeImageSizes.
  destruct ((pngWidth img1 =? pngWidth img2)
            && (pngHeight img1 =? pngHeight img2)) eqn:E.
  - apply andb_prop in E as [Ew Eh]. apply Z.eqb_eq in Ew, Eh.
    exists img1, img2. split; [reflexivity|].
    destruct H1 as (? & ? & L1), H2 as (? & ? & L2).
    repeat split; try lia; try assumption;
      rewrite ?L1, ?L2, ?Ew, ?Eh; try reflexivity; try lia.
  - eexists _, _. split; [reflexivity|].
    destruct (resizeImage_sized img1 (Z.max (pngWidth img1) (pngWidth img2))
                (Z.max (pngHeight img1) (pngHeight img2)) H1 ltac:(lia)
                ltac:(lia))
      as (W1 & Hh1 & S1).
    destruct (resizeImage_sized img2 (Z.max (pngWidth img1) (pngWidth img2))
                (Z.max (pngHeight img1) (pngHeight img2)) H2 ltac:(lia)
                ltac:(lia))
      as (W2 & Hh2 & S2).
    repeat split; try assumption; try apply S1; try apply S2.
    destruct S1 as (_ & _ & ->), S2 as (_ & _ & ->).
    rewrite W1, W2, Hh1, Hh2. reflexivity.
Qed.

(** X24. [copyImageTo], for a source that fits in the target at the
    offset, puts the source there pixel by pixel and leaves every other
    pixel of the target as it was. *)
Theorem copy_places_source_at_offset (target source : PNG)
    (offsetX offsetY px py : Z) :
  wellSized target -> wellSized source ->
  0 <= offsetX -> 0 <= offsetY ->
  offsetX + pngWidth source <= pngWidth target ->
  offsetY + pngHeight source <= pngHeight target ->
  4 * pngWidth target * pngHeight target < 2147483648 ->
  0 <= px < pngWidth target -> 0 <= py < pngHeight target ->
  pixel (copyImageTo target source offsetX offsetY) px py
  = if (offsetX <=? px) && (px <? offsetX + pngWidth source)
       && (offsetY <=? py) && (py <? offsetY + pngHeight source)
    then pixel source (px - offsetX) (py - offsetY)
    else pixel target px py.
Proof. intros. apply copyImageTo_pixel; assumption. Qed.

(** X25. [generateSideBySide] encodes an image as wide as the three images
    and two 10px gaps, as high as the highest of them, with the first
    image at the left, the second 10px right of it, the diff 10px right of
    the second, all three at the top, and light gray everywhere else. *)
Theorem side_by_side_layout (libs : ImageLibs) (a b c : string)
    (img1 img2 diff : PNG) :
  VisualDiffEngine.decodeBase64Image libs a = Some img1 ->
  VisualDiffEngine.decodeBase64Image libs b = Some img2 ->
  VisualDiffEngine.decodeBase64Image libs c = Some diff ->
  wellSized img1 -> wellSized img2 -> wellSized diff ->
  let totalWidth := pngWidth img1 + pngWidth img2 + pngWidth diff + 20 in
  let maxHeight :=
    Z.max (Z.max (pngHeight img1) (pngHeight img2)) (pngHeight diff) in
  4 * totalWidth * maxHeight < 2147483648 ->
  exists combined,
    generateSideBySide libs a b c = pngPack libs combined
    /\ pngWidth combined = totalWidth /\ pngHeight combined = maxHeight
    /\ forall px py, 0 <= px < totalWidth -> 0 <= py < maxHeight ->
         pixel combined px py
         = if (px <? pngWidth img1) && (py <? pngHeight img1)
           then pixel img1 px py
           else if (pngWidth img1 + 10 <=? px)
                   && (px <? pngWidth img1 + 10 + pngWidth img2)
                   && (py <? pngHeight img2)
           then pixel img2 (px - (pngWidth img1 + 10)) py
           else if (pngWidth img1 + pngWidth img2 + 20 <=? px)
                   && (py <? pngHeight diff)
           then pixel diff (px - (pngWidth img1 + pngWidth img2 + 20)) py
           else lightGray.
Proof.
  intros Ea Eb Ec S1 S2 S3 totalWidth maxHeight Hwrap.
  exists (sideBySide img1 img2 diff).
  split; [unfold generateSideBySide; rewrite Ea, Eb, Ec; reflexivity|].
  split; [reflexivity|]. split; [reflexivity|].
  intros px py Hx Hy. apply sideBySide_pixel; assumption.
Qed.

(** ** The visual comparison as a whole *)

(** X26. [compare] rejects when one of the images does not decode, and
    with an encoder that takes every image it returns a result whenever
    both decode: neither the normalisation nor the search for diff areas
    can fail. *)
Theorem comparison_fails_only_in_the_codec (libs : ImageLibs)
    (a b : string) (options : VisualDiffOptions) :
  (VisualDiffEngine.decodeBase64Image libs a = None
   \/ VisualDiffEngine.decodeBase64Image libs b = None ->
   VisualDiffEngine.compare libs a b options = None)
  /\ (is_Some (VisualDiffEngine.decodeBase64Image libs a) ->
      is_Some (VisualDiffEngine.decodeBase64Image libs b) ->
      (forall png, is_Some (pngPack libs png)) ->
      is_Some (VisualDiffEngine.compare libs a b options)).
Proof.
  unfold VisualDiffEngine.compare. split.
  - intros [E | E]; rewrite E; [reflexivity|].
    destruct (VisualDiffEngine.decodeBase64Image libs a); reflexivity.
  - intros [img1 ->] [img2 ->] Hpack. cbn [mbind option_bind].
    destruct (VisualDiffEngine.normalizeImageSizes img1 img2)
      as [[[w h] r1] r2].
    destruct (pixelmatch libs _ _ _ _ _ _) as [mismatched diffData].
    unfold VisualDiffEngine.encodeImageToBase64.
    destruct (Hpack {| pngWidth := w; pngHeight := h; data := diffData |})
      as [s ->].
    cbn [mbind option_bind].
    destruct (findDiffAreas_inside
                {| pngWidth := w; pngHeight := h; data := diffData |}
                mismatched) as (areas & -> & _).
    eexists. reflexivity.
Qed.

(** X27. A result of [compare] counts the pixels of the common canvas,
    the larger width by the larger height, and each of its diff areas lies
    within that canvas. *)
Theorem comparison_is_over_the_common_canvas (libs : ImageLibs)
    (a b : string) (options : VisualDiffOptions) (img1 img2 : PNG)
    (r : VisualDiffResult) :
  VisualDiffEngine.decodeBase64Image libs a = Some img1 ->
  VisualDiffEngine.decodeBase64Image libs b = Some img2 ->
  VisualDiffEngine.compare libs a b options = Some r ->
  let W := Z.max (pngWidth img1) (pngWidth img2) in
  let H := Z.max (pngHeight img1) (pngHeight img2) in
  totalPixels r = W * H
  /\ Forall (fun area =>
               inside area {| x := 0; y := 0; width := W; height := H |})
       (diffAreas r).
Proof.
  intros Ea Eb. unfold VisualDiffEngine.compare. rewrite Ea, Eb.
  cbn [mbind option_bind].
  assert (En : exists r1 r2,
             VisualDiffEngine.normalizeImageSizes img1 img2
             = (Z.max (pngWidth img1) (pngWidth img2),
                Z.max (pngHeight img1) (pngHeight img2), r1, r2)).
  { unfold VisualDiffEngine.normalizeImageSizes.
    destruct (_ && _); eexists _, _; reflexivity. }
  destruct En as (r1 & r2 & ->).
  destruct (pixelmatch libs _ _ _ _ _ _) as [mismatched diffData].
  destruct (VisualDiffEngine.encodeImageToBase64 libs _) as [s|];
    [|discriminate].
  cbn [mbind option_bind].
  match goal with
  | |- context [VisualDiffEngine.findDiffAreas ?img ?n] =>
      destruct (findDiffAreas_inside img n) as (areas & -> & Hin)
  end.
  cbn [mbind option_bind]. intros [= <-]. cbv zeta. cbn.
  split; [reflexivity | exact Hin].
Qed.

(** * Properties of the validator *)

Section Validator.
Import ValidatorService.
Context {L : Type}.

(** X28. A validation of two uploaded screenshots compares pixels only:
    the analyses hold no DOM and no token, so whatever the images show the
    style comparison finds nothing and scores 100, the LLM service is never
    asked, and the validation ends as the visual comparison of the two
    screenshots does. *)
Theorem screenshots_alone_score_100 (this : Instance L)
    (input : ValidationInput) (shot1 shot2 : string) :
  sourceType (webSource input) = ScreenshotSource ->
  sourceType (figmaSource input) = ScreenshotSource ->
  screenshotBase64 (webSource input) = Some shot1 ->
  screenshotBase64 (figmaSource input) = Some shot2 ->
  JS.nonEmpty shot1 = true -> JS.nonEmpty shot2 = true ->
  match VisualDiffEngine.compare (imageLibs this) shot1 shot2 noOptions with
  | Some diff =>
      exists report,
        snd (validate this input) = Returned report
        /\ resultMismatches (comparisonResult report) = []
        /\ overallScore (comparisonResult report) = JS.ofZ 100
        /\ visualDiff report = diff
        /\ llmAnalysis report = None
  | None => snd (validate this input) = Threw Rejected
  end.
Proof.
  intros T1 T2 S1 S2 N1 N2.
  unfold validate, analyzeWeb, analyzeFigma, analyzeScreenshot.
  rewrite T1, T2, S1, S2.
  cbn [isUrl andb truthyStr default from_option id fst snd].
  rewrite N1, N2.
  cbn [isUrl andb truthyStr default from_option id fst snd].
  rewrite N1, N2. cbn [andb].
  destruct (VisualDiffEngine.compare (imageLibs this) shot1 shot2 noOptions)
    as [diff|]; [|reflexivity].
  eexists. split; [reflexivity|]. cbn [comparisonResult visualDiff llmAnalysis].
  destruct (compare_empty_tree (chromaLib this)
              {| designTokens :=
                   {| colors := []; typography := []; spacing := [] |};
                 components := [] |}) as (Hm & _ & Hs & _).
  split; [exact Hm|]. split; [exact Hs|]. split; [reflexivity|].
  rewrite Hm. destruct (llmService this); reflexivity.
Qed.

(** X29. Nothing the LLM service does can fail a validation or change
    what it measures: with another LLM service, or none, [validate] sends
    the same progress events and throws the same error or returns a report
    with the same sources, analyses, comparison and visual diff. *)
Theorem llm_cannot_fail_validation (this : Instance L)
    (llm : option (WebAnalysisResult -> FigmaAnalysisResult ->
                   ComparisonResult -> option L))
    (input : ValidationInput) :
  fst (validate (withLLM this llm) input) = fst (validate this input)
  /\ match snd (validate this input), snd (validate (withLLM this llm) input)
     with
     | Returned r, Returned r' =>
         reportWebSource r' = reportWebSource r
         /\ reportFigmaSource r' = reportFigmaSource r
         /\ webAnalysis r' = webAnalysis r
         /\ figmaAnalysis r' = figmaAnalysis r
         /\ comparisonResult r' = comparisonResult r
         /\ visualDiff r' = visualDiff r
     | Threw e, Threw e' => e' = e
     | _, _ => False
     end.
Proof.
  unfold validate, failed.
  change (analyzeWeb (withLLM this llm)) with (analyzeWeb this).
  change (analyzeFigma (withLLM this llm)) with (analyzeFigma this).
  cbn [withLLM chromaLib imageLibs llmService].
  destruct (analyzeWeb this (webSource input)) as [web|e]; [|split; reflexivity].
  destruct (analyzeFigma this (figmaSource input)) as [figma|e];
    [|split; reflexivity].
  destruct (JS.nonEmpty web.2 && truthyStr figma.2).
  - destruct (VisualDiffEngine.compare _ _ _ _); cbn; repeat split.
  - cbn. repeat split.
Qed.

(** X30. The progress events of [validate]: a run that returns sent the
    six stages at 10, 30, 50, 70, 85 and 100; a run that throws did so in
    the web analysis, the Figma analysis or the visual diff, and sent the
    stages up to that one and then the error stage at 0. *)
Theorem progress_of_a_validation (this : Instance L)
    (input : ValidationInput) :
  match validate this input with
  | (sent, Returned _) => sent = stagesOfSuccess
  | (sent, Threw _) =>
      exists n, (n = 1 \/ n = 2 \/ n = 4)%nat
        /\ sent = take n stagesOfSuccess
                  ++ [{| stage := error; progress := 0 |}]
  end.
Proof.
  unfold validate, failed.
  destruct (analyzeWeb this (webSource input)) as [web|e].
  2:{ exists 1%nat. split; [auto | reflexivity]. }
  destruct (analyzeFigma this (figmaSource input)) as [figma|e].
  2:{ exists 2%nat. split; [auto | reflexivity]. }
  destruct (JS.nonEmpty web.2 && truthyStr figma.2); [|reflexivity].
  destruct (VisualDiffEngine.compare _ _ _ _); [reflexivity|].
  exists 4%nat. split; [auto | reflexivity].
Qed.

End Validator.

(** * The theorems with hypotheses, at concrete inputs *)

Lemma transparent_background_is_skipped_witness :
  exists new,
    mismatches (checkColors Stub.chromaLib [Examples.green] Examples.button
                  "button" newRun)
    = mismatches newRun ++ new
    /\ Forall (fun m => property m <> "backgroundColor") new.
Proof.
  apply transparent_background_is_skipped. left. reflexivity.
Defined.

Lemma zero_width_border_is_skipped_witness :
  exists new,
    mismatches (checkColors Stub.chromaLib [Examples.green] Examples.button
                  "button" newRun)
    = mismatches newRun ++ new
    /\ Forall (fun m => property m <> "borderColor") new.
Proof.
  apply zero_width_border_is_skipped. left. reflexivity.
Defined.

Lemma normal_line_height_is_skipped_witness :
  exists new,
    mismatches (checkTypography [Examples.displayText] Samples.paragraph
                  "p" newRun)
    = mismatches newRun ++ new
    /\ Forall (fun m => property m <> "lineHeight") new.
Proof.
  apply normal_line_height_is_skipped. left. reflexivity.
Defined.

Lemma nearest_spacing_candidate_witness :
  exists i v d,
    firstMinimumAt (absDistances id 10%Q [4%Q; 16%Q; 8%Q]) i v d
    /\ (((d <= 4)%Q
         /\ findSpacingMismatch (JS.Fin 10) (map JS.Fin [4%Q; 16%Q; 8%Q])
            = None)
        \/ ((4 < d)%Q
            /\ findSpacingMismatch (JS.Fin 10) (map JS.Fin [4%Q; 16%Q; 8%Q])
               = Some {| expectedSpacing := JS.Fin v;
                         spacingDeviation := JS.Fin d |})).
Proof.
  apply nearest_spacing_candidate; [discriminate|].
  split; [apply (binary64_integer _ 10); reflexivity|].
  repeat constructor;
    first [ apply (binary64_integer _ 4); reflexivity
          | apply (binary64_integer _ 16); reflexivity
          | apply (binary64_integer _ 8); reflexivity
          | apply (binary64_integer _ 6); reflexivity
          | apply (binary64_integer _ (-6)); reflexivity
          | apply (binary64_integer _ 2); reflexivity ].
Defined.

Lemma closest_typography_token_witness :
  ([Examples.bodyText; Examples.displayText] = []
   /\ findClosestTypography (JS.Fin 24)
        [Examples.bodyText; Examples.displayText] typoFontSize = None)
  \/ (exists i t d,
        firstMinimumAt
          (absDistances Samples.fontSizeOf 24%Q
             [Examples.bodyText; Examples.displayText]) i t d
        /\ findClosestTypography (JS.Fin 24)
             [Examples.bodyText; Examples.displayText] typoFontSize = Some t).
Proof.
  apply closest_typography_token; [repeat constructor|].
  split; [apply (binary64_integer _ 24); reflexivity|].
  repeat constructor;
    first [ apply (binary64_integer _ 16); reflexivity
          | apply (binary64_integer _ 10); reflexivity
          | apply (binary64_integer _ 8); reflexivity
          | apply (binary64_integer _ 14); reflexivity ].
Defined.

Lemma data_url_prefix_is_stripped_witness :
  VisualDiffEngine.decodeBase64Image Stub.imageLibs "data:image/png;base64,red"
  = pngParse Stub.imageLibs "red".
Proof.
  exact (proj1 (data_url_prefix_is_stripped Stub.imageLibs "png" "red" "")
           eq_refl eq_refl).
Defined.

Lemma nearness_of_regions_witness :
  VisualDiffEngine.regionsOverlapOrNear Examples.stroke Examples.everything 0
  = true.
Proof.
  apply (proj2 (proj2 (nearness_of_regions Examples.stroke Examples.everything
                         0 0)));
    unfold inside; cbn; lia.
Defined.

Lemma merging_stays_inside_witness :
  Forall (fun r => inside r Examples.everything)
    [Examples.stroke; Examples.bars].
Proof.
  apply (merging_stays_inside
           [Examples.stroke; Examples.verticalBar; Examples.horizontalBar]
           [Examples.stroke; Examples.bars] 20 Examples.everything).
  - vm_compute. reflexivity.
  - repeat constructor; cbn; lia.
Defined.

Lemma flood_fill_region_within_image_witness :
  inside Examples.stroke (imageBox Examples.diffOfThree)
  /\ x Examples.stroke <= 30 < x Examples.stroke + width Examples.stroke
  /\ y Examples.stroke <= 0 < y Examples.stroke + height Examples.stroke.
Proof.
  apply (flood_fill_region_within_image Examples.diffOfThree 30 0 ∅
           (snd (VisualDiffEngine.floodFillRegion Examples.diffOfThree 30 0 ∅))
           Examples.stroke).
  - unfold Examples.diffOfThree, Examples.paint. cbn [pngWidth]. lia.
  - unfold Examples.diffOfThree, Examples.paint. cbn [pngHeight]. lia.
  - apply injective_projections; [vm_compute; reflexivity | reflexivity].
Defined.

Lemma flood_fill_ends_witness :
  VisualDiffEngine.stack
    (VisualDiffEngine.floodLoop (Z.to_nat (4 * 1 * 1 + 1)) Samples.redPixel
       {| VisualDiffEngine.stack := [(0, 0)];
          VisualDiffEngine.visited := ∅;
          VisualDiffEngine.minX := 0; VisualDiffEngine.maxX := 0;
          VisualDiffEngine.minY := 0; VisualDiffEngine.maxY := 0;
          VisualDiffEngine.pixelCount := 0 |}) = []
  \/ 100000
     < Z.of_nat
         (length
            (VisualDiffEngine.stack
               (VisualDiffEngine.floodLoop (Z.to_nat (4 * 1 * 1 + 1))
                  Samples.redPixel
                  {| VisualDiffEngine.stack := [(0, 0)];
                     VisualDiffEngine.visited := ∅;
                     VisualDiffEngine.minX := 0; VisualDiffEngine.maxX := 0;
                     VisualDiffEngine.minY := 0; VisualDiffEngine.maxY := 0;
                     VisualDiffEngine.pixelCount := 0 |}))).
Proof.
  apply (flood_fill_ends Samples.redPixel 0 0 ∅); cbn; lia.
Defined.

Lemma redPixel_sized : wellSized Samples.redPixel.
Proof. unfold wellSized. cbn. repeat split; lia. Qed.

Lemma blueColumn_sized : wellSized Samples.blueColumn.
Proof. unfold wellSized. cbn. repeat split; lia. Qed.

Lemma blackRow_sized : wellSized Samples.blackRow.
Proof. unfold wellSized. cbn. repeat split; lia. Qed.

Lemma resize_keeps_pixels_and_pads_white_witness :
  pixel (VisualDiffEngine.resizeImage Samples.redPixel 2 1) 1 0 = white.
Proof.
  exact (resize_keeps_pixels_and_pads_white Samples.redPixel 2 1 1 0
           redPixel_sized ltac:(cbn; lia) ltac:(cbn; lia) ltac:(lia)
           ltac:(lia) ltac:(lia)).
Defined.

Lemma normalised_images_share_one_size_witness :
  exists r1 r2,
    VisualDiffEngine.normalizeImageSizes Samples.blueColumn Samples.blackRow
    = (Z.max (pngWidth Samples.blueColumn) (pngWidth Samples.blackRow),
       Z.max (pngHeight Samples.blueColumn) (pngHeight Samples.blackRow),
       r1, r2)
    /\ pngWidth r1
       = Z.max (pngWidth Samples.blueColumn) (pngWidth Samples.blackRow)
    /\ pngHeight r1
       = Z.max (pngHeight Samples.blueColumn) (pngHeight Samples.blackRow)
    /\ pngWidth r2
       = Z.max (pngWidth Samples.blueColumn) (pngWidth Samples.blackRow)
    /\ pngHeight r2
       = Z.max (pngHeight Samples.blueColumn) (pngHeight Samples.blackRow)
    /\ wellSized r1 /\ wellSized r2
    /\ length (data r1) = length (data r2).
Proof.
  exact (normalised_images_share_one_size Samples.blueColumn Samples.blackRow
           blueColumn_sized blackRow_sized).
Defined.

Lemma copy_places_source_at_offset_witness :
  pixel (copyImageTo Samples.blackRow Samples.redPixel 1 0) 1 0
  = pixel Samples.redPixel 0 0.
Proof.
  exact (copy_places_source_at_offset Samples.blackRow Samples.redPixel
           1 0 1 0 blackRow_sized redPixel_sized ltac:(lia) ltac:(lia)
           ltac:(cbn; lia) ltac:(cbn; lia) ltac:(cbn; lia) ltac:(cbn; lia)
           ltac:(cbn; lia)).
Defined.

Lemma side_by_side_layout_witness :
  exists combined,
    generateSideBySide Stub.imageLibs "red" "red" "red"
    = pngPack Stub.imageLibs combined
    /\ pngWidth combined = 23 /\ pngHeight combined = 1
    /\ forall px py, 0 <= px < 23 -> 0 <= py < 1 ->
         pixel combined px py
         = if (px <? 1) && (py <? 1) then pixel Samples.redPixel px py
           else if (11 <=? px) && (px <? 12) && (py <? 1)
           then pixel Samples.redPixel (px - 11) py
           else if (22 <=? px) && (py <? 1)
           then pixel Samples.redPixel (px - 22) py
           else lightGray.
Proof.
  exact (side_by_side_layout Stub.imageLibs "red" "red" "red"
           Samples.redPixel Samples.redPixel Samples.redPixel
           eq_refl eq_refl eq_refl
           redPixel_sized redPixel_sized redPixel_sized ltac:(cbn; lia)).
Defined.

Lemma comparison_fails_only_in_the_codec_witness :
  VisualDiffEngine.compare Stub.imageLibs "blue" "red"
    ValidatorService.noOptions = None.
Proof.
  apply (proj1 (comparison_fails_only_in_the_codec Stub.imageLibs "blue" "red"
                  ValidatorService.noOptions)).
  left. reflexivity.
Defined.

Lemma comparison_is_over_the_common_canvas_witness :
  totalPixels Samples.redAgainstRed = 1 * 1
  /\ Forall (fun area =>
               inside area {| x := 0; y := 0; width := 1; height := 1 |})
       (diffAreas Samples.redAgainstRed).
Proof.
  exact (comparison_is_over_the_common_canvas Stub.imageLibs "red" "red"
           ValidatorService.noOptions Samples.redPixel Samples.redPixel
           Samples.redAgainstRed eq_refl eq_refl eq_refl).
Defined.

Lemma screenshots_alone_score_100_witness :
  exists report,
    snd (ValidatorService.validate Samples.offline Samples.uploads)
    = ValidatorService.Returned report
    /\ resultMismatches (ValidatorService.comparisonResult report) = []
    /\ overallScore (ValidatorService.comparisonResult report) = JS.ofZ 100
    /\ ValidatorService.visualDiff report = Samples.redAgainstRed
    /\ ValidatorService.llmAnalysis report = None.
Proof.
  exact (screenshots_alone_score_100 Samples.offline Samples.uploads
           "red" "red" eq_refl eq_refl eq_refl eq_refl eq_refl eq_refl).
Defined.
